(** * Verification model of [src/fetch_reply.py]

    The module polls a mailbox through the Microsoft Graph HTTP API,
    classifies every unread message with an external model service,
    optionally drafts a reply, stores a record and moves the message into
    a label folder.  This development embeds the pipeline in Rocq:

    - JSON payloads and the handful of Python operations the code applies
      to them ([dict.get], truthiness, [str.strip], [len], ...);
    - [retry_with_backoff], [get_access_token], [get_all_pages],
      [_extract_clean_email_content], [classify_email], [generate_reply]
      and [_process_single_email], each written after its Python text;
    - the properties of these functions, proved at the end of the file. *)

From Stdlib Require Import ZArith QArith List String Ascii Bool Lia Arith.
From Stdlib Require Import SpecFloat.
Import ListNotations.

Set Warnings "-register-all".

Close Scope Q_scope.
Open Scope string_scope.
Open Scope list_scope.
Open Scope Z_scope.

(** ** Python values and exceptions *)

(** Values decoded from JSON ([r.json()]): the messages, the classifier
    answers and the token response are all of this shape.  Numbers are
    kept as rationals; an object is the list of its key/value pairs. *)
Inductive json : Type :=
| JNull
| JBool (b : bool)
| JNum (q : Q)
| JStr (s : string)
| JArr (items : list json)
| JObj (fields : list (string * json)).

(** A Python [dict] with string keys. *)
Definition dict := list (string * json).

(** The exceptions that occur in the module.  [RequestError] stands for
    [httpx.RequestError] and its subclasses (time-outs, connection and
    protocol errors); its argument is what the expression
    [getattr(e.response, 'status_code', None) if hasattr(e, 'response') else None]
    evaluates to.  [HTTPStatusError] is [httpx.HTTPStatusError], raised by
    [raise_for_status()]: in httpx it derives from [HTTPError] next to
    [RequestError], not from it, so a handler written
    [except httpx.RequestError] does not see it. *)
Inductive exn : Type :=
| AttributeError
| TypeError
| KeyError
| IndexError
| OverflowError
| ValueError (msg : string)
| RuntimeError (msg : string)
| PyException (msg : string)
| RequestError (response_status : option Z)
| HTTPStatusError (status_code : Z)
| CollaboratorError (who : string).

(** Outcome of a Python expression: a value or a raised exception. *)
Inductive result (A : Type) : Type :=
| Ok (a : A)
| Raise (e : exn).
Arguments Ok {A} a.
Arguments Raise {A} e.

Definition rbind {A B : Type} (r : result A) (k : A -> result B) : result B :=
  match r with
  | Ok a => k a
  | Raise e => Raise e
  end.

Declare Scope py_scope.
Delimit Scope py_scope with py.
Notation "x <- r ;; k" := (rbind r (fun x => k))
  (at level 61, r at next level, right associativity) : py_scope.
Notation "' p <- r ;; k" := (rbind r (fun x => let 'p := x in k))
  (at level 61, p pattern, r at next level, right associativity) : py_scope.
Open Scope py_scope.

(** Python truthiness: [None], [False], zero, and empty strings, lists
    and dicts are falsy. *)
Definition truthy (v : json) : bool :=
  match v with
  | JNull => false
  | JBool b => b
  | JNum q => negb (Qnum q =? 0)
  | JStr s => negb (s =? "")%string
  | JArr l => match l with [] => false | _ => true end
  | JObj d => match d with [] => false | _ => true end
  end.

(** [d.get(key, default)] on a dict. *)
Fixpoint dict_get (d : dict) (key : string) (default : json) : json :=
  match d with
  | [] => default
  | (k, v) :: rest => if (k =? key)%string then v else dict_get rest key default
  end.

(** [key in d] on a dict. *)
Fixpoint dict_mem (d : dict) (key : string) : bool :=
  match d with
  | [] => false
  | (k, _) :: rest => (k =? key)%string || dict_mem rest key
  end.

(** [v.get(key, default)] on an arbitrary value: only dicts have [get]. *)
Definition py_get (v : json) (key : string) (default : json) : result json :=
  match v with
  | JObj d => Ok (dict_get d key default)
  | _ => Raise AttributeError
  end.

(** [len(v)]. *)
Definition py_len (v : json) : result Z :=
  match v with
  | JStr s => Ok (Z.of_nat (String.length s))
  | JArr l => Ok (Z.of_nat (List.length l))
  | JObj d => Ok (Z.of_nat (List.length d))
  | _ => Raise TypeError
  end.

(** ** Strings

    A string is a sequence of characters with code points below 256. *)

(** The characters [str.strip()] removes. *)
Definition is_space (c : ascii) : bool :=
  let n := nat_of_ascii c in
  (((9 <=? n) && (n <=? 13)) || ((28 <=? n) && (n <=? 32))
   || (n =? 133) || (n =? 160))%nat.

Fixpoint lstrip (s : string) : string :=
  match s with
  | EmptyString => EmptyString
  | String c r => if is_space c then lstrip r else s
  end.

Definition str_rev (s : string) : string :=
  string_of_list_ascii (rev (list_ascii_of_string s)).

(** [s.strip()]. *)
Definition str_strip (s : string) : string :=
  str_rev (lstrip (str_rev (lstrip s))).

Definition lower_char (c : ascii) : ascii :=
  let n := nat_of_ascii c in
  if (((65 <=? n) && (n <=? 90))
      || ((192 <=? n) && (n <=? 222) && negb (n =? 215)))%nat
  then ascii_of_nat (n + 32) else c.

(** [s.lower()]. *)
Fixpoint str_lower (s : string) : string :=
  match s with
  | EmptyString => EmptyString
  | String c r => String (lower_char c) (str_lower r)
  end.

(** [v.strip()] and [v.lower()] on an arbitrary value. *)
Definition py_strip (v : json) : result string :=
  match v with
  | JStr s => Ok (str_strip s)
  | _ => Raise AttributeError
  end.

Definition py_lower (v : json) : result string :=
  match v with
  | JStr s => Ok (str_lower s)
  | _ => Raise AttributeError
  end.

Definition str_len (s : string) : Z := Z.of_nat (String.length s).

(** [needle in hay] on strings. *)
Fixpoint str_contains (needle hay : string) : bool :=
  if String.prefix needle hay then true
  else match hay with
       | EmptyString => false
       | String _ r => str_contains needle r
       end.

(** ** The comparison [len(full) > len(unique) * 1.2]

    Python evaluates the product in IEEE-754 binary64 and compares the
    integer with the resulting float exactly.  The model does the same on
    the reference semantics of binary64 ([SpecFloat]). *)

Definition prec64 : Z := 53.
Definition emax64 : Z := 1024.

(** [float(n)] for an integer. *)
Definition float_of_int (n : Z) : spec_float :=
  binary_normalize prec64 emax64 n 0 false.

(** The literal [1.2]: the binary64 number nearest to 12/10. *)
Definition float_1_2 : spec_float :=
  S754_finite false 5404319552844595 (-52).

(** [n > x] for an integer [n] and a float [x], compared exactly. *)
Definition int_gt_float (n : Z) (x : spec_float) : bool :=
  match x with
  | S754_zero _ => 0 <? n
  | S754_infinity s => s
  | S754_nan => false
  | S754_finite s m e =>
      let v := if s then Z.neg m else Z.pos m in
      if 0 <=? e then v * 2 ^ e <? n else v <? n * 2 ^ (- e)
  end.

(** [full_len > unique_len * 1.2]. *)
Definition len_gt_times_1_2 (full_len unique_len : Z) : bool :=
  int_gt_float full_len (SFmul prec64 emax64 (float_of_int unique_len) float_1_2).

(** ** Content Normalizer: [_extract_clean_email_content] *)

Section ContentNormalizer.

(** [_html_to_text]: tag and entity stripping with regular expressions.
    It catches its own failures and always returns a string; the
    extraction below only hands its result on, so it is left abstract. *)
Variable _html_to_text : string -> string.

(** [b and b.get("content")], taken as a condition. *)
Definition content_present (b : json) : result bool :=
  if truthy b then
    c <- py_get b "content" JNull ;;
    Ok (truthy c)
  else Ok false.

(** The thread check: the [if] at the head of the function and the
    comparison of the two stripped lengths. *)
Definition detect_threads (unique_body full_body : json) : result bool :=
  u <- content_present unique_body ;;
  both <- (if u then content_present full_body else Ok false) ;;
  if both then
    uc <- py_get unique_body "content" (JStr "") ;;
    unique_content <- py_strip uc ;;
    fc <- py_get full_body "content" (JStr "") ;;
    full_content <- py_strip fc ;;
    Ok ((0 <? str_len unique_content)
        && len_gt_times_1_2 (str_len full_content) (str_len unique_content))
  else Ok false.

(** One body variant: plain text is used as it is, markup is converted;
    any other content type leaves [clean_body] and [data_source] alone. *)
Definition use_variant (b : json) (text_tag html_tag : string)
    (cur : string * string) : result (string * string) :=
  p <- content_present b ;;
  if p then
    c <- py_get b "content" (JStr "") ;;
    content <- py_strip c ;;
    t <- py_get b "contentType" (JStr "") ;;
    content_type <- py_lower t ;;
    if (content_type =? "text")%string then Ok (content, text_tag)
    else if (content_type =? "html")%string && negb (content =? "")%string
         then Ok (_html_to_text content, html_tag)
         else Ok cur
  else Ok cur.

(** The body of the [try] block. *)
Definition extract_try (msg : dict) : result (string * string * bool) :=
  let unique_body := dict_get msg "uniqueBody" (JObj []) in
  let full_body := dict_get msg "body" (JObj []) in
  had_threads <- detect_threads unique_body full_body ;;
  s1 <- use_variant unique_body "uniqueBody_text" "uniqueBody_html_converted"
          ("", "") ;;
  s2 <- (if (fst s1 =? "")%string
         then use_variant full_body "body_text" "body_html_converted" s1
         else Ok s1) ;;
  s3 <- (if (fst s2 =? "")%string
         then p <- py_strip (dict_get msg "bodyPreview" (JStr "")) ;;
              Ok (p, "bodyPreview_fallback")
         else Ok s2) ;;
  Ok (fst s3, snd s3, had_threads).

(** [_extract_clean_email_content(msg)]: the triple
    [(clean_body, data_source, had_threads)]; the [except] clause returns
    the raw preview, whatever its type. *)
Definition _extract_clean_email_content (msg : dict) : json * string * bool :=
  match extract_try msg with
  | Ok (clean_body, data_source, had_threads) =>
      (JStr clean_body, data_source, had_threads)
  | Raise _ => (dict_get msg "bodyPreview" (JStr ""), "error_fallback", false)
  end.

End ContentNormalizer.

(** The thread flag as the specification words it: both variants carry a
    non-empty content, the stripped unique text is non-empty and the
    stripped full text is more than 1.2 times as long. *)
Definition nonempty_content (b : json) : option string :=
  match b with
  | JObj d =>
      match dict_get d "content" JNull with
      | JStr s => if (s =? "")%string then None else Some s
      | _ => None
      end
  | _ => None
  end.

Definition spec_had_threads (msg : dict) : bool :=
  match nonempty_content (dict_get msg "uniqueBody" (JObj [])),
        nonempty_content (dict_get msg "body" (JObj [])) with
  | Some u, Some f =>
      (0 <? str_len (str_strip u))
      && (12 * str_len (str_strip u) <? 10 * str_len (str_strip f))
  | _, _ => false
  end.

(** ** Backoff Executor: [retry_with_backoff] *)

(** The test that ends the retries at once:
    [status_code and 400 <= status_code < 500 and status_code not in (429, 408)]. *)
Definition client_error_no_retry (status_code : option Z) : bool :=
  match status_code with
  | Some c =>
      negb (c =? 0) && ((400 <=? c) && (c <? 500))
      && negb ((c =? 429) || (c =? 408))
  | None => false
  end.

(** Arithmetic on floats is that of IEEE-754 binary64, as Python has it. *)
Definition fadd (x y : spec_float) : spec_float := SFadd prec64 emax64 x y.
Definition fmul (x y : spec_float) : spec_float := SFmul prec64 emax64 x y.

(** [x > y] on floats: false when either side is [nan]. *)
Definition fgtb (x y : spec_float) : bool :=
  match SFcompare x y with
  | Some Gt => true
  | _ => false
  end.

(** The literals [0.1] and [1.5]: the binary64 numbers nearest to 1/10
    and equal to 3/2. *)
Definition float_0_1 : spec_float := S754_finite false 7205759403792794 (-56).
Definition float_1_5 : spec_float := S754_finite false 6755399441055744 (-52).

(** [backoff * (1.0 + 0.1 * random.random())], [draw] being the value
    [random.random()] returns. *)
Definition sleep_time_of (backoff draw : spec_float) : spec_float :=
  fmul backoff (fadd (float_of_int 1) (fmul float_0_1 draw)).

(** What one run of the wrapper leaves behind: its result, how often the
    wrapped function was called, and the durations handed to
    [time.sleep], in the order of the calls. *)
Record retry_run (A : Type) : Type := mkRun {
  run_result : result A;
  run_calls : nat;
  run_sleeps : list spec_float
}.
Arguments mkRun {A} _ _ _.
Arguments run_result {A} _.
Arguments run_calls {A} _.
Arguments run_sleeps {A} _.

Section Retry.

Variable A : Type.

(** [func attempt]: what the wrapped call does the [attempt]-th time it
    is made (counting from 0).  [jitter attempt]: the draw of
    [random.random()] before the sleep that follows that attempt.
    [sleep secs]: what [time.sleep(secs)] does, return or raise (CPython
    raises [ValueError] on a negative duration and on [nan], and an
    error of the platform on a duration too long for its clock). *)
Variable func : nat -> result A.
Variable jitter : nat -> spec_float.
Variable sleep : spec_float -> result unit.
Variable max_retries : nat.

(** The [for attempt in range(max_retries)] loop with [remaining]
    iterations to go, and the two statements after it.  [time.sleep] is
    called inside the [except] clause, so what it raises leaves the
    wrapper. *)
Fixpoint retry_loop (remaining attempt : nat) (backoff : spec_float)
    (last_exception : option exn) (sleeps : list spec_float) : retry_run A :=
  match remaining with
  | O =>
      match last_exception with
      | Some e => mkRun (Raise e) attempt sleeps
      | None =>
          mkRun (Raise (RuntimeError
                   "retry_with_backoff gave up but no exception captured"))
                attempt sleeps
      end
  | S remaining' =>
      match func attempt with
      | Ok v => mkRun (Ok v) (S attempt) sleeps
      | Raise (RequestError status_code) =>
          if client_error_no_retry status_code
          then mkRun (Raise (RequestError status_code)) (S attempt) sleeps
          else if (attempt =? max_retries - 1)%nat
          then mkRun (Raise (RequestError status_code)) (S attempt) sleeps
          else
            let sleep_time := sleep_time_of backoff (jitter attempt) in
            match sleep sleep_time with
            | Raise e => mkRun (Raise e) (S attempt) (sleeps ++ [sleep_time])
            | Ok _ =>
                retry_loop remaining' (S attempt) (fmul backoff (float_of_int 2))
                           (Some (RequestError status_code))
                           (sleeps ++ [sleep_time])
            end
      | Raise e => mkRun (Raise e) (S attempt) sleeps
      end
  end.

(** [initial_backoff] is a float, as in every use the module makes of
    the decorator. *)
Definition retry_with_backoff (initial_backoff : spec_float) : retry_run A :=
  retry_loop max_retries 0%nat initial_backoff None [].

End Retry.
Arguments retry_loop {A} func jitter sleep max_retries remaining attempt backoff
  last_exception sleeps.
Arguments retry_with_backoff {A} func jitter sleep max_retries initial_backoff.

(** The decorator as the module applies it:
    [@retry_with_backoff(max_retries=3, initial_backoff=1.5)]. *)
Definition with_retries {A : Type} (func : nat -> result A)
    (jitter : nat -> spec_float) (sleep : spec_float -> result unit)
  : retry_run A :=
  retry_with_backoff func jitter sleep 3 float_1_5.

(** A clock for the examples: [time.sleep] as CPython has it on [nan]
    ([ValueError]), on a negative duration ([ValueError]), on an infinite
    one ([OverflowError]) and on durations from zero to [2^33] seconds,
    which it sleeps.  On longer durations the outcome depends on the
    platform and on how long it has been up; this clock raises there. *)
Definition time_sleep (secs : spec_float) : result unit :=
  match secs with
  | S754_nan => Raise (ValueError "Invalid value NaN (not a number)")
  | S754_infinity _ => Raise OverflowError
  | S754_zero _ => Ok tt
  | S754_finite true _ _ => Raise (ValueError "sleep length must be non-negative")
  | S754_finite false _ _ =>
      if fgtb secs (float_of_int (2 ^ 33)) then Raise OverflowError else Ok tt
  end.

(** ** Token Manager: [get_access_token] *)

(** [self._token_cache].  The expiry is the number [time.time() + ...]
    has given, a float; the [0] of the cache [__init__] creates compares
    with a float as [0.0] does. *)
Record token_cache : Type := mkCache {
  cache_token : json;
  cache_expires_at : spec_float
}.

(** The cache [__init__] creates: [{"token": None, "expires_at": 0}]. *)
Definition empty_cache : token_cache := mkCache JNull (S754_zero false).

(** The four environment variables [validate_config] requires. *)
Record identity_config : Type := mkConfig {
  CLIENT_ID : option string;
  CLIENT_SECRET : option string;
  TENANT_ID : option string;
  EMAIL_ADDRESS : option string
}.

Definition env_missing (v : option string) : bool :=
  match v with
  | Some s => (s =? "")%string
  | None => true
  end.

Definition validate_config (cfg : identity_config) : result unit :=
  if env_missing (CLIENT_ID cfg) || env_missing (CLIENT_SECRET cfg)
     || env_missing (TENANT_ID cfg) || env_missing (EMAIL_ADDRESS cfg)
  then Raise (ValueError "Missing required environment variables")
  else Ok tt.

(** Whether a rational is a whole number. *)
Definition is_whole (q : Q) : bool := (Qnum q mod Zpos (Qden q) =? 0).

(** The float nearest to a rational that is no whole number: the
    correctly rounded quotient of numerator and denominator. *)
Definition float_of_fraction (q : Q) : spec_float :=
  match Qnum q with
  | Z0 => S754_zero false
  | Zpos n => SFdiv prec64 emax64 (S754_finite false n 0)
                (S754_finite false (Qden q) 0)
  | Zneg n => SFdiv prec64 emax64 (S754_finite true n 0)
                (S754_finite false (Qden q) 0)
  end.

(** The float a JSON number is taken to when it is added to a float.  A
    whole number is a Python [int]: it is converted with rounding to
    nearest, and raises [OverflowError] when it lies beyond the floats.
    Any other number was read as the float nearest to it. *)
Definition float_of_number (q : Q) : result spec_float :=
  if is_whole q then
    match float_of_int (Qnum q / Zpos (Qden q)) with
    | S754_infinity _ => Raise OverflowError
    | x => Ok x
    end
  else Ok (float_of_fraction q).

(** [current_time + v] for a value taken from the token response. *)
Definition add_seconds (current_time : spec_float) (v : json)
  : result spec_float :=
  match v with
  | JNum q => x <- float_of_number q ;; Ok (fadd current_time x)
  | JBool b => Ok (fadd current_time (float_of_int (if b then 1 else 0)))
  | _ => Raise TypeError
  end.

(** What one call leaves behind: the returned token or the exception,
    the cache, and how often the identity provider was asked. *)
Record token_call : Type := mkTokenCall {
  token_result : result json;
  token_cache_after : token_cache;
  token_exchanges : nat
}.

(** [acquire] is the outcome of building the MSAL application and
    calling [app.acquire_token_for_client(scopes=[...])]: the provider's
    answer, or the exception the client library raises.  [current_time]
    is the reading of [time.time()], a float; the sum [current_time + 60]
    and the comparison with the cached expiry are those of binary64.
    The [except] clause of the method logs and re-raises, so it is not
    repeated. *)
Definition get_access_token (cfg : identity_config) (acquire : result dict)
    (current_time : spec_float) (force_refresh : bool) (cache : token_cache)
  : token_call :=
  if negb force_refresh && truthy (cache_token cache)
     && fgtb (cache_expires_at cache) (fadd current_time (float_of_int 60))
  then mkTokenCall (Ok (cache_token cache)) cache 0
  else
    match validate_config cfg with
    | Raise e => mkTokenCall (Raise e) cache 0
    | Ok _ =>
        match acquire with
        | Raise e => mkTokenCall (Raise e) cache 1
        | Ok answer =>
            if dict_mem answer "access_token" then
              match add_seconds current_time
                      (dict_get answer "expires_in" (JNum 3600)) with
              | Ok expires_at =>
                  mkTokenCall (Ok (dict_get answer "access_token" JNull))
                    (mkCache (dict_get answer "access_token" JNull) expires_at)
                    1
              | Raise e => mkTokenCall (Raise e) cache 1
              end
            else mkTokenCall (Raise (PyException "Failed to acquire token"))
                             cache 1
        end
    end.

(** ** Paginated Resource Walker: [get_all_pages] *)

(** What [httpx.get(full_url, ...)], [raise_for_status()] and [r.json()]
    give for one request: a page with the elements that iterating
    [data.get("value", [])] produces and [data.get("@odata.nextLink")],
    or one of the three failures the loop catches. *)
Inductive page_fetch : Type :=
| PageOk (value : list json) (next_link : json)
| PageHTTPStatusError (status_code : Z)
| PageRequestError
| PageMalformed.

(** The remote collection: the answer to a GET of each URL.  A link that
    is not a string cannot be requested. *)
Definition fetch_page (server : string -> page_fetch) (full_url : json)
  : page_fetch :=
  match full_url with
  | JStr u => server u
  | _ => PageMalformed
  end.

(** The [for item in data.get("value", [])] loop: the items yielded, and
    the new [count] unless the batch limit made the generator return. *)
Fixpoint yield_items (value : list json) (count max_items : nat)
  : list json * option nat :=
  match value with
  | [] => ([], Some count)
  | item :: rest =>
      let count := S count in
      if negb (max_items =? 0)%nat && (max_items <=? count)%nat
      then ([item], None)
      else let (ys, r) := yield_items rest count max_items in (item :: ys, r)
  end.

(** The sequence a consumer that exhausts the generator receives, with
    the URLs requested on the way.  [fuel] bounds the number of requests;
    [None] means the bound was reached. *)
Fixpoint walk_pages (fuel : nat) (server : string -> page_fetch)
    (full_url : json) (count max_items : nat)
  : option (list json * list json) :=
  if truthy full_url then
    match fuel with
    | O => None
    | S fuel' =>
        match fetch_page server full_url with
        | PageOk value next_link =>
            match yield_items value count max_items with
            | (ys, None) => Some (ys, [full_url])
            | (ys, Some count') =>
                match walk_pages fuel' server next_link count' max_items with
                | Some (zs, reqs) => Some (ys ++ zs, full_url :: reqs)
                | None => None
                end
            end
        | _ => Some ([], [full_url])
        end
    end
  else Some ([], []).

(** [max_items or self.batch_size]. *)
Definition effective_max (max_items : option nat) (batch_size : nat) : nat :=
  match max_items with
  | Some (S n) => S n
  | _ => batch_size
  end.

(** [get_all_pages(url, params, max_items)], consumed to the end.
    [full_url] is the URL with the encoded query appended; [token] is the
    outcome of [self.get_access_token()], which runs before the loop and
    outside its handlers. *)
Definition get_all_pages (fuel : nat) (server : string -> page_fetch)
    (token : result json) (batch_size : nat) (full_url : json)
    (max_items : option nat) : option (result (list json)) :=
  match token with
  | Raise e => Some (Raise e)
  | Ok _ =>
      match walk_pages fuel server full_url 0
              (effective_max max_items batch_size) with
      | Some (items, _) => Some (Ok items)
      | None => None
      end
  end.

(** A finite remote collection, as the walker meets it: the pages served
    along the chain of next links from a URL, and how the chain ends. *)
Inductive chain_end : Type := EndOfLinks | FetchFailed.

Definition fetch_fails (f : page_fetch) : bool :=
  match f with
  | PageOk _ _ => false
  | _ => true
  end.

Inductive serves (server : string -> page_fetch)
  : json -> list (list json) -> chain_end -> Prop :=
| serves_done (url : json) :
    truthy url = false -> serves server url [] EndOfLinks
| serves_fail (url : json) :
    truthy url = true -> fetch_fails (fetch_page server url) = true ->
    serves server url [] FetchFailed
| serves_page (url : json) (value : list json) (next_link : json)
    (rest : list (list json)) (e : chain_end) :
    truthy url = true ->
    fetch_page server url = PageOk value next_link ->
    serves server next_link rest e ->
    serves server url (value :: rest) e.

(** ** Classification & Routing Pipeline *)

Definition ALLOWED_LABELS : list string :=
  [ "no_reply_no_info"; "no_reply_with_info"; "auto_reply_no_info";
    "auto_reply_with_info"; "invoice_request_no_info";
    "claims_paid_no_proof"; "claims_paid_with_proof"; "manual_review";
    "uncategorised" ].

Definition RESPONSE_LABELS : list string :=
  [ "invoice_request_no_info"; "claims_paid_no_proof" ].

(** [label in labels] for a list of strings. *)
Definition str_in (label : string) (labels : list string) : bool :=
  existsb (String.eqb label) labels.

(** [os.getenv(name, default).lower() in ["true", "1", "yes"]]. *)
Definition env_flag (value : option string) (default : string) : bool :=
  let v := match value with Some s => s | None => default end in
  str_in (str_lower v) ["true"; "1"; "yes"].

(** [v[0]]. *)
Definition py_first (v : json) : result json :=
  match v with
  | JArr (x :: _) => Ok x
  | JArr [] => Raise IndexError
  | JStr (String c _) => Ok (JStr (String c EmptyString))
  | JStr EmptyString => Raise IndexError
  | JObj _ => Raise KeyError
  | _ => Raise TypeError
  end.

Fixpoint chars_of (s : string) : list json :=
  match s with
  | EmptyString => []
  | String c r => JStr (String c EmptyString) :: chars_of r
  end.

(** The elements [for r in v] goes through. *)
Definition py_iter (v : json) : result (list json) :=
  match v with
  | JArr l => Ok l
  | JStr s => Ok (chars_of s)
  | JObj d => Ok (map (fun kv => JStr (fst kv)) d)
  | _ => Raise TypeError
  end.

(** [key in v] for a string [key]. *)
Definition py_contains (v : json) (key : string) : result bool :=
  match v with
  | JObj d => Ok (dict_mem d key)
  | JArr l =>
      Ok (existsb (fun x => match x with
                            | JStr s => (s =? key)%string
                            | _ => false
                            end) l)
  | JStr s => Ok (str_contains key s)
  | _ => Raise TypeError
  end.

(** The receiver of a [.get] call has to be a dict. *)
Definition as_dict (v : json) : result dict :=
  match v with
  | JObj d => Ok d
  | _ => Raise AttributeError
  end.

(** A list comprehension whose body can raise. *)
Fixpoint map_result {A B : Type} (f : A -> result B) (l : list A)
  : result (list B) :=
  match l with
  | [] => Ok []
  | x :: rest =>
      y <- f x ;;
      ys <- map_result f rest ;;
      Ok (y :: ys)
  end.

(** Structural equality of decoded values; identifiers are compared
    with it. *)
Fixpoint json_eqb (a b : json) : bool :=
  match a, b with
  | JNull, JNull => true
  | JBool x, JBool y => Bool.eqb x y
  | JNum x, JNum y => Qeq_bool x y
  | JStr x, JStr y => (x =? y)%string
  | JArr xs, JArr ys =>
      (fix go (xs ys : list json) : bool :=
         match xs, ys with
         | [], [] => true
         | x :: xs', y :: ys' => json_eqb x y && go xs' ys'
         | _, _ => false
         end) xs ys
  | JObj xs, JObj ys =>
      (fix go (xs ys : list (string * json)) : bool :=
         match xs, ys with
         | [], [] => true
         | (k, x) :: xs', (k', y) :: ys' =>
             (k =? k')%string && json_eqb x y && go xs' ys'
         | _, _ => false
         end) xs ys
  | _, _ => false
  end.

(** *** The model service client *)

(** What a [requests] or [httpx] call followed by [raise_for_status()]
    and [.json()] gives: an exception from the call or the status check,
    a body that does not decode, or the decoded body. *)
Inductive http_outcome : Type :=
| HttpRaises (e : exn)
| HttpBadJson
| HttpJson (v : json).

Definition fallback_classification (method : string) : dict :=
  [ ("label", JStr "uncategorised"); ("confidence", JNum 0);
    ("method", JStr method) ].

(** The [try] block of [classify_email] once the service is known to be
    up.  A decoded body that is not a dict ends in the [except] clause or
    in the [else] branch, which return the same value. *)
Definition classify_try (post : http_outcome) : result json :=
  match post with
  | HttpRaises e => Raise e
  | HttpBadJson => Raise (ValueError "response is not JSON")
  | HttpJson v =>
      d <- match v with JObj d => Ok d | _ => Raise TypeError end ;;
      if dict_mem d "status"
         && json_eqb (dict_get d "status" JNull) (JStr "success")
         && dict_mem d "results"
      then py_first (dict_get d "results" JNull)
      else Ok (JObj (fallback_classification "api_error"))
  end.

(** [ModelAPIClient.classify_email]: [health] is the answer of
    [health_check()], [post] the outcome of the POST to [/api/classify]. *)
Definition classify_email (health : bool) (post : http_outcome) : result json :=
  if negb health then Ok (JObj (fallback_classification "api_unavailable"))
  else
    match classify_try post with
    | Ok classification => Ok classification
    | Raise _ => Ok (JObj (fallback_classification "api_error"))
    end.

(** The [try] block of [generate_reply]. *)
Definition generate_reply_try (label : string) (health : bool)
    (post : http_outcome) : result json :=
  if negb (str_in label RESPONSE_LABELS) then Ok (JStr "")
  else if negb health then Ok (JStr "")
  else
    match post with
    | HttpRaises e => Raise e
    | HttpBadJson => Raise (ValueError "response is not JSON")
    | HttpJson v =>
        reply <- py_get v "reply" (JStr "") ;;
        _ <- py_len reply ;;
        Ok reply
    end.

(** [ModelAPIClient.generate_reply]. *)
Definition generate_reply (label : string) (health : bool)
    (post : http_outcome) : result json :=
  match generate_reply_try label health post with
  | Ok reply => Ok reply
  | Raise _ => Ok (JStr "")
  end.

(** *** The two mailbox mutations *)

(** The body of [move_email_to_folder]: the token is fetched before the
    [try]; every failure of the POST gives [(False, None)]. *)
Definition move_email_to_folder (token : result json) (post : http_outcome)
  : result (bool * json) :=
  _ <- token ;;
  match post with
  | HttpJson (JObj d) => Ok (true, dict_get d "id" (JStr "unknown"))
  | _ => Ok (false, JNull)
  end.

(** The body of [mark_email_read_status]. *)
Definition mark_email_read_status (token : result json) (patch : http_outcome)
  : result bool :=
  _ <- token ;;
  match patch with
  | HttpRaises _ => Ok false
  | _ => Ok true
  end.

(** *** Records, run metrics and collaborators *)

(** [self.metrics]. *)
Record metrics : Type := mkMetrics {
  emails_processed : nat;
  emails_classified : nat;
  emails_skipped : nat;
  emails_errored : nat;
  emails_moved : nat;
  clean_text_extracted : nat
}.

(** The document [email_data] handed to [insert_email].  The keys that
    repeat another key ([to], [text], [prediction], [target_folder], the
    copies under [metadata] and [headers]) and the constant ones are not
    repeated here. *)
Record email_data : Type := mkEmailData {
  ed_message_id : json;
  ed_sender : json;
  ed_recipient : json;
  ed_subject : json;
  ed_body : json;
  ed_received_at : json;
  ed_classification : string;
  ed_confidence : json;
  ed_method : json;
  ed_response : json;
  ed_response_sent : option bool;
  ed_batch_id : json;
  ed_save_as_draft : bool;
  ed_entities : json;
  ed_conversation_id : json;
  ed_has_attachments : json;
  ed_data_source : string;
  ed_had_threads : bool;
  ed_headers_count : Z;
  ed_recipients_count : Z;
  ed_body_length : Z;
  ed_out_of_office : option (json * json * json);
  ed_left_company : option (json * json)
}.

(** The calls that leave the process, in the order made. *)
Inductive event : Type :=
| EvEmailExists (message_id : json)
| EvClassify (subject body : json) (had_threads : bool)
| EvGenerateReply (label : string)
| EvSetBatchId (batch : json)
| EvInsertEmail (doc : email_data)
| EvMove (message_id folder_id : json)
| EvUpdateMessageId (old_id new_id : json)
| EvMarkReadStatus (message_id : json) (is_read : bool).

Inductive db_op : Type := OpExists | OpSetBatchId | OpInsert | OpUpdateId.

(** Everything outside [_process_single_email] that decides how the
    processing of one message goes. *)
Record env : Type := mkEnv {
  MAIL_SEND_ENABLED : bool;
  FORCE_DRAFTS : bool;
  batch_id : json;
  folder_mapping : dict;
  db_raises : db_op -> bool;
  classify_health : bool;
  classify_post : http_outcome;
  reply_health : bool;
  reply_post : http_outcome;
  move_attempt : nat -> result json * http_outcome;
  mark_attempt : nat -> result json * http_outcome;
  jitter : nat -> spec_float;
  sleep : spec_float -> result unit
}.

(** The processor: run metrics, the persisted records and the trace of
    outside calls. *)
Record state : Type := mkState {
  st_metrics : metrics;
  st_store : list email_data;
  st_log : list event
}.

(** Statements of the method: they change the state and return a value
    or raise; what was done before a raise stays done. *)
Definition M (A : Type) : Type := state -> result A * state.

Definition ret {A : Type} (a : A) : M A := fun st => (Ok a, st).

Definition bind {A B : Type} (m : M A) (k : A -> M B) : M B :=
  fun st =>
    match m st with
    | (Ok a, st') => k a st'
    | (Raise e, st') => (Raise e, st')
    end.

Definition lift {A : Type} (r : result A) : M A := fun st => (r, st).

Notation "x <~ m ;; k" := (bind m (fun x => k))
  (at level 61, m at next level, right associativity) : py_scope.
Notation "' p <~ m ;; k" := (bind m (fun x => let 'p := x in k))
  (at level 61, p pattern, m at next level, right associativity) : py_scope.

Definition emit (ev : event) : M unit :=
  fun st => (Ok tt, mkState (st_metrics st) (st_store st) (st_log st ++ [ev])).

Definition update_metrics (f : metrics -> metrics) : M unit :=
  fun st => (Ok tt, mkState (f (st_metrics st)) (st_store st) (st_log st)).

Definition incr_processed (m : metrics) : metrics :=
  mkMetrics (S (emails_processed m)) (emails_classified m) (emails_skipped m)
            (emails_errored m) (emails_moved m) (clean_text_extracted m).
Definition incr_classified (m : metrics) : metrics :=
  mkMetrics (emails_processed m) (S (emails_classified m)) (emails_skipped m)
            (emails_errored m) (emails_moved m) (clean_text_extracted m).
Definition incr_skipped (m : metrics) : metrics :=
  mkMetrics (emails_processed m) (emails_classified m) (S (emails_skipped m))
            (emails_errored m) (emails_moved m) (clean_text_extracted m).
Definition incr_errored (m : metrics) : metrics :=
  mkMetrics (emails_processed m) (emails_classified m) (emails_skipped m)
            (S (emails_errored m)) (emails_moved m) (clean_text_extracted m).
Definition incr_moved (m : metrics) : metrics :=
  mkMetrics (emails_processed m) (emails_classified m) (emails_skipped m)
            (emails_errored m) (S (emails_moved m)) (clean_text_extracted m).
Definition incr_clean_text_extracted (m : metrics) : metrics :=
  mkMetrics (emails_processed m) (emails_classified m) (emails_skipped m)
            (emails_errored m) (emails_moved m) (S (clean_text_extracted m)).

(** A call into the storage layer: it is traced, and it raises when the
    storage layer does. *)
Definition db_call (E : env) (op : db_op) (ev : event) : M unit :=
  _ <~ emit ev ;;
  if db_raises E op then lift (Raise (CollaboratorError "mongo")) else ret tt.

(** Modelled from the spec: the persistence collaborator ([src.db] is not
    part of the sources) with its existence check by external id, its
    insert and its id patch after a move, over the list of persisted
    records. *)
Definition has_id (message_id : json) (doc : email_data) : bool :=
  json_eqb (ed_message_id doc) message_id.

Definition email_exists (E : env) (message_id : json) : M bool :=
  _ <~ db_call E OpExists (EvEmailExists message_id) ;;
  fun st => (Ok (existsb (has_id message_id) (st_store st)), st).

Definition set_batch_id (E : env) : M unit :=
  db_call E OpSetBatchId (EvSetBatchId (batch_id E)).

Definition insert_email (E : env) (doc : email_data) : M unit :=
  _ <~ db_call E OpInsert (EvInsertEmail doc) ;;
  fun st => (Ok tt, mkState (st_metrics st) (st_store st ++ [doc]) (st_log st)).

Definition with_message_id (new_id : json) (doc : email_data) : email_data :=
  mkEmailData new_id (ed_sender doc) (ed_recipient doc) (ed_subject doc)
    (ed_body doc) (ed_received_at doc) (ed_classification doc)
    (ed_confidence doc) (ed_method doc) (ed_response doc)
    (ed_response_sent doc) (ed_batch_id doc) (ed_save_as_draft doc)
    (ed_entities doc) (ed_conversation_id doc) (ed_has_attachments doc)
    (ed_data_source doc) (ed_had_threads doc) (ed_headers_count doc)
    (ed_recipients_count doc) (ed_body_length doc) (ed_out_of_office doc)
    (ed_left_company doc).

Definition update_message_id (E : env) (old_id new_id : json) : M unit :=
  _ <~ db_call E OpUpdateId (EvUpdateMessageId old_id new_id) ;;
  fun st =>
    (Ok tt,
     mkState (st_metrics st)
       (map (fun doc => if has_id old_id doc then with_message_id new_id doc
                        else doc) (st_store st))
       (st_log st)).

(** The number of persisted records with a given id. *)
Definition records_with_id (message_id : json) (store : list email_data) : nat :=
  List.length (filter (has_id message_id) store).

(** *** [_process_single_email] *)

(** Step 1: what the method reads off the message before it looks at the
    store. *)
Record prelude : Type := mkPrelude {
  p_sender : json;
  p_subject : json;
  p_received : json;
  p_has_attachments : json;
  p_conversation_id : json;
  p_clean_body : json;
  p_data_source : string;
  p_had_threads : bool;
  p_headers : json;
  p_recipient : json;
  p_recipient_emails : list json;
  p_body_length : Z
}.

(** [r.get("emailAddress", {}).get("address", "")]. *)
Definition address_of (r : json) : result json :=
  e <- py_get r "emailAddress" (JObj []) ;;
  py_get e "address" (JStr "").

Definition needs_manual_review (label : string) : bool :=
  str_in label ["manual_review"; "uncategorised"].

(** Step 5: the draft flag. *)
Definition save_as_draft (E : env) (label : string) : bool :=
  if negb (MAIL_SEND_ENABLED E) || FORCE_DRAFTS E then true
  else needs_manual_review label.

(** [if label not in ALLOWED_LABELS: label = "uncategorised"]. *)
Definition coerce_label (label : json) : string :=
  match label with
  | JStr s => if str_in s ALLOWED_LABELS then s else "uncategorised"
  | _ => "uncategorised"
  end.

Section Pipeline.

Variable _html_to_text : string -> string.

Definition extract_metadata (msg : dict) : result prelude :=
  sender_info <- py_get (dict_get msg "from" (JObj [])) "emailAddress" (JObj []) ;;
  sender <- py_get sender_info "address" (JStr "") ;;
  let subject := dict_get msg "subject" (JStr "") in
  let received := dict_get msg "receivedDateTime" (JStr "") in
  let has_attachments := dict_get msg "hasAttachments" (JBool false) in
  let conversation_id := dict_get msg "conversationId" (JStr "") in
  let content := _extract_clean_email_content _html_to_text msg in
  let headers := dict_get msg "internetMessageHeaders" (JArr []) in
  let to_recipients := dict_get msg "toRecipients" (JArr []) in
  let cc_recipients := dict_get msg "ccRecipients" (JArr []) in
  primary <- (if truthy to_recipients then
                first <- py_first to_recipients ;;
                recipient <- address_of first ;;
                rs <- py_iter to_recipients ;;
                addresses <- map_result address_of rs ;;
                Ok (recipient, addresses)
              else Ok (JStr "", [])) ;;
  copies <- (if truthy cc_recipients then
               rs <- py_iter cc_recipients ;;
               map_result address_of rs
             else Ok []) ;;
  body_length <- py_len (fst (fst content)) ;;
  Ok (mkPrelude sender subject received has_attachments conversation_id
        (fst (fst content)) (snd (fst content)) (snd content) headers
        (fst primary) (snd primary ++ copies) body_length).

(** Step 3: the classifier call and the reading of its answer, with the
    [except] clause that replaces a failed reading. *)
Definition classify_stage (E : env) (pre : prelude) : M (string * json * dict) :=
  _ <~ emit (EvClassify (p_subject pre) (p_clean_body pre) (p_had_threads pre)) ;;
  match (answer <- classify_email (classify_health E) (classify_post E) ;;
         as_dict answer) with
  | Ok classification_result =>
      let label := dict_get classification_result "label" (JStr "uncategorised") in
      let confidence := dict_get classification_result "confidence" (JNum 0) in
      _ <~ update_metrics incr_classified ;;
      ret (coerce_label label, confidence, classification_result)
  | Raise _ =>
      ret ("uncategorised", JNum 0, fallback_classification "api_error")
  end.

(** Step 4: the reply, only for the labels that get one; the [except]
    clause resets the label. *)
Definition reply_stage (E : env) (label : string) : M (string * json) :=
  if str_in label RESPONSE_LABELS then
    _ <~ emit (EvGenerateReply label) ;;
    match generate_reply label (reply_health E) (reply_post E) with
    | Ok reply_text => ret (label, reply_text)
    | Raise _ => ret ("uncategorised", JStr "")
    end
  else ret (label, JStr "").

(** The out-of-office and left-company copies of step 6. *)
Definition out_of_office (entities : json) : result (option (json * json * json)) :=
  present <- py_contains entities "ooo_person" ;;
  if present then
    person <- py_get entities "ooo_person" (JObj []) ;;
    contact <- py_get entities "ooo_contact_person" (JObj []) ;;
    dates <- py_get entities "ooo_dates" (JObj []) ;;
    Ok (Some (person, contact, dates))
  else Ok None.

Definition left_company (entities : json) : result (option (json * json)) :=
  present <- py_contains entities "left_person" ;;
  if present then
    person <- py_get entities "left_person" (JObj []) ;;
    replacement <- py_get entities "replacement_contact" (JObj []) ;;
    Ok (Some (person, replacement))
  else Ok None.

(** Steps 5 to 7: flags, the document, the insert. *)
Definition persist_stage (E : env) (pre : prelude) (message_id : json)
    (label : string) (confidence : json) (classification_result : dict)
    (entities reply_text : json) : M unit :=
  _ <~ set_batch_id E ;;
  headers_count <~ lift (py_len (p_headers pre)) ;;
  ooo <~ lift (out_of_office entities) ;;
  left <~ lift (left_company entities) ;;
  insert_email E
    (mkEmailData message_id (p_sender pre) (p_recipient pre) (p_subject pre)
       (p_clean_body pre) (p_received pre) label confidence
       (dict_get classification_result "method" (JStr "")) reply_text
       (if truthy reply_text then Some false else None)
       (batch_id E) (save_as_draft E label) entities (p_conversation_id pre)
       (p_has_attachments pre) (p_data_source pre) (p_had_threads pre)
       headers_count (Z.of_nat (List.length (p_recipient_emails pre)))
       (p_body_length pre) ooo left).

(** The decorated mailbox calls: three attempts of the body each. *)
Definition move_call (E : env) : result (bool * json) :=
  run_result (with_retries
    (fun i => move_email_to_folder (fst (move_attempt E i)) (snd (move_attempt E i)))
    (jitter E) (sleep E)).

Definition mark_call (E : env) : result bool :=
  run_result (with_retries
    (fun i => mark_email_read_status (fst (mark_attempt E i)) (snd (mark_attempt E i)))
    (jitter E) (sleep E)).

(** Steps 8 and 9: the move, the id patch, the read flag. *)
Definition route_stage (E : env) (message_id : json) (label : string) : M unit :=
  let folder_id := dict_get (folder_mapping E) label JNull in
  message_id' <~ (if truthy folder_id then
                    _ <~ emit (EvMove message_id folder_id) ;;
                    moved <~ lift (move_call E) ;;
                    if fst moved && truthy (snd moved) then
                      _ <~ update_message_id E message_id (snd moved) ;;
                      _ <~ update_metrics incr_moved ;;
                      ret (snd moved)
                    else ret message_id
                  else ret message_id) ;;
  let is_read := negb (needs_manual_review label) in
  _ <~ emit (EvMarkReadStatus message_id' is_read) ;;
  _ <~ lift (mark_call E) ;;
  ret tt.

(** Steps 4 to 9, once the label and the confidence are read. *)
Definition after_classification (E : env) (pre : prelude) (message_id : json)
    (label : string) (confidence : json) (classification_result : dict)
  : M unit :=
  let entities := dict_get classification_result "entities" (JObj []) in
  r <~ reply_stage E label ;;
  _ <~ persist_stage E pre message_id (fst r) confidence classification_result
         entities (snd r) ;;
  _ <~ route_stage E message_id (fst r) ;;
  update_metrics incr_processed.

(** Steps 3 to 9, for a message that has no record yet. *)
Definition handle_new (E : env) (pre : prelude) (message_id : json) : M unit :=
  c <~ classify_stage E pre ;;
  after_classification E pre message_id (fst (fst c)) (snd (fst c)) (snd c).

(** Steps 1 and 2 up to the lookup: the metadata, the clean-text counter
    and the existence check. *)
Definition before_dedup (E : env) (msg : dict) (message_id : json)
  : M (prelude * bool) :=
  pre <~ lift (extract_metadata msg) ;;
  _ <~ (if String.prefix "uniqueBody" (p_data_source pre)
        then update_metrics incr_clean_text_extracted else ret tt) ;;
  found <~ email_exists E message_id ;;
  ret (pre, found).

(** The body of the [try]. *)
Definition process_try (E : env) (msg : dict) (message_id : json) : M unit :=
  d <~ before_dedup E msg message_id ;;
  if snd d then update_metrics incr_skipped
  else handle_new E (fst d) message_id.

(** [_process_single_email(msg)]. *)
Definition _process_single_email (E : env) (msg : dict) (st : state) : state :=
  let message_id := dict_get msg "id" (JStr "unknown_id") in
  match process_try E msg message_id st with
  | (Ok _, st') => st'
  | (Raise _, st') =>
      mkState (incr_errored (st_metrics st')) (st_store st') (st_log st')
  end.

(** The loop of [process_unread_emails] over the messages it hands to
    [_process_single_email] (the fetched ones, up to a stop request),
    each with the collaborators as they behave while it is processed. *)
Fixpoint process_messages (batch : list (env * dict)) (st : state) : state :=
  match batch with
  | [] => st
  | (E, msg) :: rest => process_messages rest (_process_single_email E msg st)
  end.

End Pipeline.

(** ** Vocabulary of the statements below *)

(** The three counters of which every processed message moves one. *)
Definition outcome_counters (st : state) : nat * nat * nat :=
  (emails_skipped (st_metrics st), emails_processed (st_metrics st),
   emails_errored (st_metrics st)).

Definition outcome_total (st : state) : nat :=
  (emails_skipped (st_metrics st) + emails_processed (st_metrics st)
   + emails_errored (st_metrics st))%nat.

(** A statement whose every run relates the state it starts in to the
    state it leaves, whether it returns or raises. *)
Definition respects (R : state -> state -> Prop) {A : Type} (m : M A) : Prop :=
  forall st, R st (snd (m st)).

Definition same_outcome (a b : state) : Prop :=
  outcome_counters b = outcome_counters a.

Definition same_store (a b : state) : Prop := st_store b = st_store a.

(** The trace grows by events that all satisfy [ok]. *)
Definition adds_events (ok : event -> Prop) (a b : state) : Prop :=
  exists evs, st_log b = st_log a ++ evs /\ Forall ok evs.

(** The trace grows, the metrics stay: what is left of a statement once
    the stored documents are set aside. *)
Definition same_metrics (a b : state) : Prop := st_metrics b = st_metrics a.

(** What [k] right shifts of a mantissa keep: the quotient, and on which
    side of the half-way point the dropped bits lie. *)
Definition shr_inv (m : Z) (k : Z) (rc : shr_record) : Prop :=
  0 <= shr_m rc /\
  exists rem, m = shr_m rc * 2 ^ k + rem /\ 0 <= rem < 2 ^ k /\
    match shr_r rc, shr_s rc with
    | false, false => rem = 0
    | false, true => 0 < 2 * rem < 2 ^ k
    | true, false => 2 * rem = 2 ^ k
    | true, true => 2 ^ k < 2 * rem
    end.

(** The prefix of a walk that a batch limit keeps; [0] is no limit. *)
Definition capped (max_items count : nat) (items : list json) : list json :=
  if (max_items =? 0)%nat then items else firstn (max_items - count) items.

(** The one storage call the duplicate check makes. *)
Definition is_dedup_lookup (ev : event) : bool :=
  match ev with
  | EvEmailExists _ => true
  | _ => false
  end.

(** Every record of the store satisfies [ok] after a step if it did
    before. *)
Definition keeps_records (ok : email_data -> Prop) (a b : state) : Prop :=
  Forall ok (st_store a) -> Forall ok (st_store b).

(** The draft flag a document carries is the one step 5 computes from
    the label it carries. *)
Definition draft_flag_ok (E : env) (doc : email_data) : Prop :=
  ed_save_as_draft doc = save_as_draft E (ed_classification doc).

Definition draft_event_ok (E : env) (ev : event) : Prop :=
  match ev with
  | EvInsertEmail doc => draft_flag_ok E doc
  | _ => True
  end.



(** The collaborators of [E], with a classification service that is up
    and answers [answer] for the message. *)
Definition with_classifier_answer (E : env) (answer : json) : env :=
  mkEnv (MAIL_SEND_ENABLED E) (FORCE_DRAFTS E) (batch_id E) (folder_mapping E)
    (db_raises E) true
    (HttpJson (JObj [("status", JStr "success"); ("results", JArr [answer])]))
    (reply_health E) (reply_post E) (move_attempt E) (mark_attempt E) (jitter E)
    (sleep E).


(** The draft rule as the specification words it, for one document. *)
Definition draft_forced (E : env) (doc : email_data) : Prop :=
  (MAIL_SEND_ENABLED E = false \/ FORCE_DRAFTS E = true ->
   ed_save_as_draft doc = true)
  /\ (ed_classification doc = "manual_review"
      \/ ed_classification doc = "uncategorised" ->
      ed_save_as_draft doc = true).

Definition draft_forced_event (E : env) (ev : event) : Prop :=
  match ev with
  | EvInsertEmail doc => draft_forced E doc
  | _ => True
  end.

(** ** Concrete inputs *)

(** A source of three pages with two items each. *)
Definition three_pages (u : string) : page_fetch :=
  if (u =? "page1")%string then PageOk [JNum 1; JNum 2] (JStr "page2")
  else if (u =? "page2")%string then PageOk [JNum 3; JNum 4] (JStr "page3")
  else if (u =? "page3")%string then PageOk [JNum 5; JNum 6] JNull
  else PageRequestError.

(** The same source with a fourth page behind the third. *)
Definition four_pages (u : string) : page_fetch :=
  if (u =? "page3")%string then PageOk [JNum 5; JNum 6] (JStr "page4")
  else if (u =? "page4")%string then PageOk [JNum 7; JNum 8] JNull
  else three_pages u.

(** A source whose second page answers with status 503. *)
Definition second_page_fails (u : string) : page_fetch :=
  if (u =? "page1")%string then PageOk [JNum 1; JNum 2] (JStr "page2")
  else if (u =? "page2")%string then PageHTTPStatusError 503
  else PageRequestError.

(** A message whose unique body declares no usable content type: the
    thread check has already succeeded when [.lower()] fails on [None],
    before any body is converted. *)
Definition msg_null_content_type : dict :=
  [ ("id", JStr "AAMk1");
    ("uniqueBody", JObj [("contentType", JNull); ("content", JStr "Thanks")]);
    ("body", JObj [("contentType", JStr "html");
                   ("content", JStr "Thanks. On Monday you wrote: see below")]);
    ("bodyPreview", JStr "Thanks") ].

(** A reply to a thread, both body variants in plain text. *)
Definition msg_with_thread : dict :=
  [ ("uniqueBody", JObj [("contentType", JStr "text"); ("content", JStr "ok")]);
    ("body", JObj [("contentType", JStr "text");
                   ("content", JStr "ok, see the thread below")]) ].

(** An invoice request in plain text: no body of it is converted, so
    the processing of it does not depend on [_html_to_text]. *)
Definition msg_invoice : dict :=
  [ ("id", JStr "AAMk2");
    ("subject", JStr "Invoice copy");
    ("from", JObj [("emailAddress", JObj [("address", JStr "a@example.org")])]);
    ("body", JObj [("contentType", JStr "text");
                   ("content", JStr "Please send the invoice")]);
    ("bodyPreview", JStr "Please send the invoice") ].

(** A deployment with sending enabled and drafts not forced, a working
    store and mailbox, a classifier that answers [invoice_request_no_info]
    and a reply service that is down.  No folder is mapped, so messages
    stay in the inbox and keep their id. *)
Definition env_reply_down : env :=
  mkEnv true false (JStr "batch-1") []
    (fun _ => false) true
    (HttpJson (JObj [("status", JStr "success");
                     ("results",
                      JArr [JObj [("label", JStr "invoice_request_no_info");
                                  ("confidence", JNum (9 # 10));
                                  ("method", JStr "ml")]])]))
    false (HttpRaises (PyException "connection refused"))
    (fun _ => (Ok (JStr "token"), HttpJson (JObj [("id", JStr "AAMk9")])))
    (fun _ => (Ok (JStr "token"), HttpJson JNull))
    (fun _ => S754_zero false) time_sleep.

Definition fresh_state : state := mkState (mkMetrics 0 0 0 0 0 0) [] [].

(** An identity configuration with no client secret, and a provider that
    would hand out a token. *)
Definition config_without_secret : identity_config :=
  mkConfig (Some "client") None (Some "tenant") (Some "box@example.org").


(** The processor after one run over [msg_invoice]. *)
Definition state_after_first_run : state :=
  _process_single_email (fun s => s) env_reply_down msg_invoice fresh_state.

(** A classifier result with a label outside the closed set. *)
Definition result_with_unknown_label : dict :=
  [("label", JStr "spam"); ("confidence", JNum (7 # 10))].

(** ** More of the module *)

(** The back-off before the sleep that follows attempt [i]:
    [initial_backoff] after [i] executions of [backoff *= 2]. *)
Definition backoff_at (initial_backoff : spec_float) (i : nat) : spec_float :=
  Nat.iter i (fun backoff => fmul backoff (float_of_int 2)) initial_backoff.

(** The duration of the sleep that follows attempt [i]. *)
Definition duration_at (initial_backoff : spec_float)
    (jitter : nat -> spec_float) (i : nat) : spec_float :=
  sleep_time_of (backoff_at initial_backoff i) (jitter i).

(** The errors after which the wrapper goes on to another attempt: an
    [httpx.RequestError] whose status is not a client error other than
    429 and 408. *)
Definition retryable (A : Type) (r : result A) : bool :=
  match r with
  | Raise (RequestError status_code) => negb (client_error_no_retry status_code)
  | _ => false
  end.
Arguments retryable {A} r.

(** What the processing of a message may do outside the process when
    [label] is the label it ends up with: a reply is asked for under
    that label and only if the label gets one; the document carries the
    label, the draft flag of step 5 and, for a label that gets no reply,
    an empty reply; a move goes to the folder mapped to the label; the
    read flag is the one of step 9. *)
Definition handled_as (E : env) (label : string) (ev : event) : Prop :=
  match ev with
  | EvGenerateReply l => l = label /\ str_in label RESPONSE_LABELS = true
  | EvInsertEmail doc =>
      ed_classification doc = label
      /\ ed_save_as_draft doc = save_as_draft E label
      /\ (str_in label RESPONSE_LABELS = false -> ed_response doc = JStr "")
  | EvMove _ folder_id =>
      folder_id = dict_get (folder_mapping E) label JNull
      /\ truthy folder_id = true
  | EvMarkReadStatus _ is_read => is_read = negb (needs_manual_review label)
  | _ => True
  end.

(** The calls that leave the process, by kind. *)
Inductive call_kind : Type :=
| KEmailExists | KClassify | KGenerateReply | KSetBatchId | KInsertEmail
| KMove | KUpdateMessageId | KMarkReadStatus.

Definition kind_of (ev : event) : call_kind :=
  match ev with
  | EvEmailExists _ => KEmailExists
  | EvClassify _ _ _ => KClassify
  | EvGenerateReply _ => KGenerateReply
  | EvSetBatchId _ => KSetBatchId
  | EvInsertEmail _ => KInsertEmail
  | EvMove _ _ => KMove
  | EvUpdateMessageId _ _ => KUpdateMessageId
  | EvMarkReadStatus _ _ => KMarkReadStatus
  end.

Definition call_kind_eqb (a b : call_kind) : bool :=
  match a, b with
  | KEmailExists, KEmailExists | KClassify, KClassify
  | KGenerateReply, KGenerateReply | KSetBatchId, KSetBatchId
  | KInsertEmail, KInsertEmail | KMove, KMove
  | KUpdateMessageId, KUpdateMessageId | KMarkReadStatus, KMarkReadStatus => true
  | _, _ => false
  end.

(** The calls of a message that is processed to the end, in the order of
    steps 2 to 9: [reply] tells whether a reply was asked for, [move]
    whether a move was tried and, if so, whether the record was re-keyed
    after it. *)
Definition lifecycle (reply : bool) (move : option bool) : list call_kind :=
  [KEmailExists; KClassify]
  ++ (if reply then [KGenerateReply] else [])
  ++ [KSetBatchId; KInsertEmail]
  ++ match move with
     | None => []
     | Some false => [KMove]
     | Some true => [KMove; KUpdateMessageId]
     end
  ++ [KMarkReadStatus].

Fixpoint is_prefix (a b : list call_kind) : bool :=
  match a, b with
  | [], _ => true
  | x :: a', y :: b' => call_kind_eqb x y && is_prefix a' b'
  | _ :: _, [] => false
  end.

Definition lifecycles : list (list call_kind) :=
  [ lifecycle false None; lifecycle false (Some false);
    lifecycle false (Some true); lifecycle true None;
    lifecycle true (Some false); lifecycle true (Some true) ].

(** A statement whose trace of calls is, by kind, one of [oks] when it
    returns and one of [raises] when it raises. *)
Definition traces {A : Type} (m : M A) (oks raises : list (list call_kind))
  : Prop :=
  forall st, exists evs,
    st_log (snd (m st)) = st_log st ++ evs
    /\ In (map kind_of evs)
          (match fst (m st) with Ok _ => oks | Raise _ => raises end).

(** The traces of one statement followed by another. *)
Definition then_calls (first second : list (list call_kind))
  : list (list call_kind) :=
  flat_map (fun x => map (app x) second) first.

(** A step that leaves [emails_classified] as it was. *)
Definition same_classified (a b : state) : Prop :=
  emails_classified (st_metrics b) = emails_classified (st_metrics a).

(** Whether the value [classify_email] returned can be read with [.get]
    by step 3. *)
Definition is_dict (v : json) : bool :=
  match v with
  | JObj _ => true
  | _ => false
  end.

(** ** Markup Stripper: [_html_to_text] *)

Definition LF : ascii := "010"%char.
Definition CR : ascii := "013"%char.
Definition TAB : ascii := "009"%char.

(** [re.sub(pattern, repl, s)] and [s.replace(old, new)] for a pattern
    that matches no empty string: the text is scanned from the left; at a
    position where the pattern matches, the match is replaced and the
    scan goes on behind it; elsewhere the character is copied.
    [match_at s] is the length of the match at the head of [s], if there
    is one; [skip] counts the characters of a match still to be passed
    over. *)
Fixpoint sub_from (match_at : string -> option nat) (repl : string)
    (s : string) (skip : nat) : string :=
  match s with
  | EmptyString => EmptyString
  | String c r =>
      match skip with
      | S k => sub_from match_at repl r k
      | O =>
          match match_at s with
          | Some (S n) => repl ++ sub_from match_at repl r n
          | _ => String c (sub_from match_at repl r 0)
          end
      end
  end.

Definition re_sub (match_at : string -> option nat) (repl s : string) : string :=
  sub_from match_at repl s 0.

(** The offset of the first [>]. *)
Fixpoint find_gt (s : string) : option nat :=
  match s with
  | EmptyString => None
  | String c r => if (c =? ">")%char then Some 0%nat
                  else option_map S (find_gt r)
  end.

(** [<[^>]+>]: a [<], at least one character that is no [>], and the
    first [>] after them. *)
Definition tag_at (s : string) : option nat :=
  match s with
  | String c r =>
      if (c =? "<")%char then
        match find_gt r with
        | Some (S j) => Some (S (S (S j)))
        | _ => None
        end
      else None
  | EmptyString => None
  end.

(** A fixed, non-empty text. *)
Definition literal_at (old : string) (s : string) : option nat :=
  if String.prefix old s then Some (String.length old) else None.

(** The offset of the last line feed within the run of white space at
    the head of [s]. *)
Fixpoint last_newline_in_run (s : string) : option nat :=
  match s with
  | EmptyString => None
  | String c r =>
      if is_space c then
        match last_newline_in_run r with
        | Some k => Some (S k)
        | None => if (c =? LF)%char then Some 0%nat else None
        end
      else None
  end.

(** [\n\s*\n]: a line feed, white space taken greedily, and a line
    feed; backtracking ends the match at the last line feed of the run
    of white space. *)
Definition blank_lines_at (s : string) : option nat :=
  match s with
  | String c r =>
      if (c =? LF)%char then option_map (fun k => S (S k)) (last_newline_in_run r)
      else None
  | EmptyString => None
  end.

Definition is_blank (c : ascii) : bool := (c =? " ")%char || (c =? TAB)%char.

Fixpoint blank_run (s : string) : nat :=
  match s with
  | String c r => if is_blank c then S (blank_run r) else 0%nat
  | EmptyString => 0%nat
  end.

(** [[ \t]+]: the whole run of spaces and tabs. *)
Definition blanks_at (s : string) : option nat :=
  match blank_run s with
  | O => None
  | n => Some n
  end.

(** The [html_entities] dict, in its order. *)
Definition html_entities : list (string * string) :=
  [ ("&nbsp;", " "); ("&amp;", "&"); ("&lt;", "<"); ("&gt;", ">");
    ("&quot;", String "034"%char EmptyString); ("&#39;", "'");
    ("&apos;", "'");
    (String CR (String LF EmptyString), String LF EmptyString);
    (String CR EmptyString, String LF EmptyString) ].

Definition replace_entities (text : string) : string :=
  fold_left (fun t er => re_sub (literal_at (fst er)) (snd er) t)
            html_entities text.

(** [_html_to_text(html_content)] on a string.  None of its steps raises
    on a string, so the [except] clause is not entered. *)
Definition _html_to_text (html_content : string) : string :=
  if (html_content =? "")%string then ""
  else
    let text := re_sub tag_at "" html_content in
    let text := replace_entities text in
    let text := re_sub blank_lines_at (String LF (String LF EmptyString)) text in
    let text := re_sub blanks_at " " text in
    str_strip text.

(** A text that does not begin with white space. *)
Definition starts_clean (s : string) : Prop :=
  match s with
  | EmptyString => True
  | String c _ => is_space c = false
  end.

(** A text that does not begin with the character [c]. *)
Definition starts_without (c : ascii) (s : string) : Prop :=
  match s with
  | EmptyString => True
  | String d _ => d <> c
  end.

(** [n] line feeds. *)
Fixpoint line_feeds (n : nat) : string :=
  match n with
  | O => EmptyString
  | S n' => String LF (line_feeds n')
  end.

(** ** Fetching the unread messages: [fetch_unread_emails] *)

(** The answer to the request for the number of unread messages: the
    exception of [httpx.get], or the status code with what
    [int(count_response.text)] makes of the body ([None] when it is no
    number and [int] raises). *)
Inductive count_response : Type :=
| CountRaises (e : exn)
| CountAnswer (status_code : Z) (text_as_int : option Z).

(** The [try] block: the count, which is only logged, and then the walk
    over the pages of the inbox. *)
Definition fetch_unread_emails_try (count : count_response)
    (pages : option (result (list json))) : option (result (list json)) :=
  match count with
  | CountRaises e => Some (Raise e)
  | CountAnswer status_code text_as_int =>
      match (status_code =? 200), text_as_int with
      | true, None => Some (Raise (ValueError "invalid literal for int()"))
      | _, _ => pages
      end
  end.

(** The body of [fetch_unread_emails(max_emails)].  [token] is the
    outcome of the call of [get_access_token] before the [try], [token']
    that of the call [get_all_pages] makes; every exception inside the
    [try] ends in [return []].  The decorator around the body sees an
    exception only from the first token fetch. *)
Definition fetch_unread_emails (fuel : nat) (server : string -> page_fetch)
    (token token' : result json) (count : count_response) (batch_size : nat)
    (full_url : json) (max_emails : option nat)
  : option (result (list json)) :=
  let max_emails := effective_max max_emails batch_size in
  match token with
  | Raise e => Some (Raise e)
  | Ok _ =>
      match fetch_unread_emails_try count
              (get_all_pages fuel server token' batch_size full_url
                 (Some max_emails)) with
      | Some (Ok emails) => Some (Ok emails)
      | Some (Raise _) => Some (Ok [])
      | None => None
      end
  end.

(** ** The run: [EmailProcessor.process_unread_emails] *)

(** The tuple the method returns. *)
Record run_report : Type := mkReport {
  success : bool;
  reported_processed : nat;
  reported_errored : nat;
  reported_classified : nat
}.

Definition report_of (ok : bool) (st : state) : run_report :=
  mkReport ok (emails_processed (st_metrics st)) (emails_errored (st_metrics st))
           (emails_classified (st_metrics st)).

(** [E] with the folder mapping the run has ensured. *)
Definition with_folder_mapping (E : env) (mapping : dict) : env :=
  mkEnv (MAIL_SEND_ENABLED E) (FORCE_DRAFTS E) (batch_id E) mapping
    (db_raises E) (classify_health E) (classify_post E) (reply_health E)
    (reply_post E) (move_attempt E) (mark_attempt E) (jitter E)
    (sleep E).

Section Run.

(** [collab i]: the collaborators as they behave while message [i] is
    processed; [stop i]: whether [stop_requested] is set when the loop
    comes to message [i]. *)
Variable collab : nat -> env.
Variable stop : nat -> bool.

(** The loop of step 4, under the folder mapping of step 2.
    [_process_single_email] reads [msg.get("id")] before its [try], so
    an item that is no dict raises out of it. *)
Fixpoint process_loop (mapping : dict) (i : nat) (emails : list json)
    (st : state) : result unit * state :=
  match emails with
  | [] => (Ok tt, st)
  | email :: rest =>
      if stop i then (Ok tt, st)
      else
        match email with
        | JObj msg =>
            process_loop mapping (S i) rest
              (_process_single_email _html_to_text
                 (with_folder_mapping (collab i) mapping) msg st)
        | _ => (Raise AttributeError, st)
        end
  end.

(** [process_unread_emails()]: [prepare] is the outcome of
    [_prepare_batch()], [folders] that of
    [ensure_classification_folders()], [fetched] that of
    [fetch_unread_emails()].  [_sync_with_databases] catches what it
    raises and touches neither metrics nor records; an interrupt from
    the keyboard is left out. *)
Definition process_unread_emails (prepare : result unit)
    (folders : result dict) (fetched : result (list json)) (st : state)
  : run_report * state :=
  match prepare with
  | Raise _ => (report_of false st, st)
  | Ok _ =>
      match folders with
      | Raise _ => (report_of false st, st)
      | Ok mapping =>
          if negb (truthy (JObj mapping)) then (mkReport false 0 0 0, st)
          else
            match fetched with
            | Raise _ => (report_of false st, st)
            | Ok [] => (mkReport true 0 0 0, st)
            | Ok emails =>
                match process_loop mapping 0 emails st with
                | (Ok _, st') => (report_of true st', st')
                | (Raise _, st') => (report_of false st', st')
                end
            end
      end
  end.

End Run.

(** ** More concrete inputs *)

(** A provider answer with a token good for an hour. *)
Definition token_answer : dict :=
  [("access_token", JStr "tok-1"); ("expires_in", JNum 3600)].

Definition full_config : identity_config :=
  mkConfig (Some "client") (Some "secret") (Some "tenant")
           (Some "box@example.org").

(** A page without items that names itself as the next page. *)
Definition self_linked_page (u : string) : page_fetch :=
  if (u =? "page1")%string then PageOk [] (JStr "page1") else PageRequestError.

(** The deployment of [env_reply_down] with a classifier that is down as
    well. *)
Definition env_services_down : env :=
  mkEnv true false (JStr "batch-1") []
    (fun _ => false) false (HttpRaises (PyException "connection refused"))
    false (HttpRaises (PyException "connection refused"))
    (fun _ => (Ok (JStr "token"), HttpJson (JObj [("id", JStr "AAMk9")])))
    (fun _ => (Ok (JStr "token"), HttpJson JNull))
    (fun _ => S754_zero false) time_sleep.

(** A mailbox whose answer to a move names no id, and a folder for
    invoice requests. *)
Definition env_move_without_id : env :=
  mkEnv true false (JStr "batch-1")
    [("invoice_request_no_info", JStr "folder-7")]
    (fun _ => false) true (HttpJson JNull) true (HttpJson JNull)
    (fun _ => (Ok (JStr "token"), HttpJson (JObj [("status", JStr "moved")])))
    (fun _ => (Ok (JStr "token"), HttpJson JNull))
    (fun _ => S754_zero false) time_sleep.

Definition one_folder : dict := [("manual_review", JStr "folder-1")].

(** ** The label folders: [ensure_classification_folders] *)

(** [c.isalnum()] for a character below 256. *)
Definition is_alnum (c : ascii) : bool :=
  let n := nat_of_ascii c in
  (((48 <=? n) && (n <=? 57)) || ((65 <=? n) && (n <=? 90))
   || ((97 <=? n) && (n <=? 122)) || (n =? 170) || (n =? 178) || (n =? 179)
   || (n =? 181) || (n =? 185) || (n =? 186) || ((188 <=? n) && (n <=? 190))
   || ((192 <=? n) && (n <=? 214)) || ((216 <=? n) && (n <=? 246))
   || (248 <=? n))%nat.

Fixpoint str_filter (keep : ascii -> bool) (s : string) : string :=
  match s with
  | EmptyString => EmptyString
  | String c r => if keep c then String c (str_filter keep r)
                  else str_filter keep r
  end.

(** The local [normalize]: [''.join(c for c in s.lower() if c.isalnum())]. *)
Definition normalize (s : string) : string := str_filter is_alnum (str_lower s).

(** [s.replace(old, new)] for single characters. *)
Fixpoint replace_char (old new : ascii) (s : string) : string :=
  match s with
  | EmptyString => EmptyString
  | String c r =>
      String (if (c =? old)%char then new else c) (replace_char old new r)
  end.

Definition is_ascii_letter (c : ascii) : bool :=
  let n := nat_of_ascii c in
  (((65 <=? n) && (n <=? 90)) || ((97 <=? n) && (n <=? 122)))%nat.

Definition upper_char (c : ascii) : ascii :=
  let n := nat_of_ascii c in
  if ((97 <=? n) && (n <=? 122))%nat then ascii_of_nat (n - 32) else c.

(** [s.title()] on ASCII text, which the labels are: a letter behind a
    letter is put in lower case, any other letter in upper case. *)
Fixpoint title_from (behind_letter : bool) (s : string) : string :=
  match s with
  | EmptyString => EmptyString
  | String c r =>
      String (if behind_letter then lower_char c else upper_char c)
             (title_from (is_ascii_letter c) r)
  end.

(** [display = label.replace("_", " ").title()] and
    [key = normalize(display)]. *)
Definition display_name (label : string) : string :=
  title_from false (replace_char "_" " " label).

Definition folder_key (label : string) : string := normalize (display_name label).

(** [v[key]] for a string [key]. *)
Definition py_index (v : json) (key : string) : result json :=
  match v with
  | JObj d => if dict_mem d key then Ok (dict_get d key JNull) else Raise KeyError
  | _ => Raise TypeError
  end.

(** The answer to the POST that creates a label folder: the exception of
    the call, status 409, or, for any other status, what
    [raise_for_status()] and [r.json()] give. *)
Inductive create_outcome : Type :=
| CreateRaises (e : exn)
| CreateConflict
| CreateAnswer (body : result json).

(** The mailbox as the loop over the labels meets it, by display name:
    [graph_search(display)] (the first folder of that name or [None]),
    [move_to_parent], the creation of the folder, and the
    [graph_search] that follows a conflict. *)
Record folder_service : Type := mkFolderService {
  search : string -> result json;
  move_to_parent : string -> result unit;
  create_folder : string -> create_outcome;
  search_after_conflict : string -> result json
}.

(** One round of the loop over [ALLOWED_LABELS]: the id the label is
    mapped to, [None] where the loop says [continue], or the exception
    that leaves the loop. *)
Definition folder_for (child_lookup : dict) (S : folder_service)
    (label : string) : result (option json) :=
  let display := display_name label in
  let folder_id := dict_get child_lookup (folder_key label) JNull in
  if truthy folder_id then Ok (Some folder_id)
  else
    ghost <- search S display ;;
    if truthy ghost then
      folder_id <- py_index ghost "id" ;;
      _ <- move_to_parent S display ;;
      Ok (Some folder_id)
    else
      match
        match create_folder S display with
        | CreateRaises e => Raise e
        | CreateConflict =>
            ghost <- search_after_conflict S display ;;
            if truthy ghost then
              folder_id <- py_index ghost "id" ;;
              Ok (Some folder_id)
            else Ok None
        | CreateAnswer body =>
            b <- body ;;
            folder_id <- py_index b "id" ;;
            Ok (Some folder_id)
        end
      with
      | Ok r => Ok r
      | Raise _ => Ok None
      end.

Fixpoint map_labels (child_lookup : dict) (S : folder_service)
    (labels : list string) (folder_map : dict) : result dict :=
  match labels with
  | [] => Ok folder_map
  | label :: rest =>
      r <- folder_for child_lookup S label ;;
      map_labels child_lookup S rest
        match r with
        | Some folder_id => folder_map ++ [(label, folder_id)]
        | None => folder_map
        end
  end.

(** [ensure_classification_folders()].  [token] is the outcome of
    [get_access_token()], which runs before the [try]; [lookup] is the
    dict made of the folder listing, [created_parent] the outcome of
    creating the parent folder, [child_lookup] the dict made of the
    folders under the parent, each with the exceptions that making it
    can raise.  Whatever the [try] raises ends in [return {}]. *)
Definition ensure_classification_folders (token : result json)
    (lookup : result dict) (created_parent : result json)
    (child_lookup : result dict) (S : folder_service) : result dict :=
  _ <- token ;;
  match
    folders <- lookup ;;
    _ <- (if truthy (dict_get folders (normalize "Email Classification") JNull)
          then Ok tt
          else (_ <- created_parent ;; Ok tt)) ;;
    children <- child_lookup ;;
    map_labels children S ALLOWED_LABELS []
  with
  | Ok folder_map => Ok folder_map
  | Raise _ => Ok []
  end.

(** Whether the round of the loop for [label] ends with an id. *)
Definition gets_folder (child_lookup : dict) (S : folder_service)
    (label : string) : bool :=
  match folder_for child_lookup S label with
  | Ok (Some _) => true
  | _ => false
  end.

(** A mailbox that already has every label folder under the parent, and
    a folder service that fails at everything. *)
Definition all_children : dict :=
  map (fun label => (folder_key label, JStr ("id-" ++ label))) ALLOWED_LABELS.

Definition failing_service : folder_service :=
  mkFolderService (fun _ => Raise (RequestError None))
    (fun _ => Raise (RequestError None))
    (fun _ => CreateRaises (RequestError None))
    (fun _ => Raise (RequestError None)).

(** The same mailbox with the folder for manual review somewhere else,
    and a service that finds it there but cannot move it. *)
Definition children_but_manual_review : dict :=
  filter (fun kv => negb (fst kv =? folder_key "manual_review")%string)
         all_children.

Definition stuck_ghost_service : folder_service :=
  mkFolderService (fun _ => Ok (JObj [("id", JStr "ghost-1")]))
    (fun _ => Raise (HTTPStatusError 403))
    (fun _ => CreateRaises (RequestError None))
    (fun _ => Raise (RequestError None)).

(** A service that finds no such folder and cannot create one. *)
Definition no_create_service : folder_service :=
  mkFolderService (fun _ => Ok JNull)
    (fun _ => Ok tt)
    (fun _ => CreateRaises (RequestError None))
    (fun _ => Ok JNull).

(** A mailbox that refuses every move with status 503 and one whose
    token cannot be had when the move comes. *)
Definition env_move_refused : env :=
  mkEnv true false (JStr "batch-1")
    [("invoice_request_no_info", JStr "folder-7")]
    (fun _ => false) true (HttpJson JNull) true (HttpJson JNull)
    (fun _ => (Ok (JStr "token"), HttpRaises (HTTPStatusError 503)))
    (fun _ => (Ok (JStr "token"), HttpJson JNull))
    (fun _ => S754_zero false) time_sleep.

Definition env_move_without_token : env :=
  mkEnv true false (JStr "batch-1")
    [("invoice_request_no_info", JStr "folder-7")]
    (fun _ => false) true (HttpJson JNull) true (HttpJson JNull)
    (fun _ => (Raise (ValueError "Missing required environment variables"),
               HttpJson JNull))
    (fun _ => (Ok (JStr "token"), HttpJson JNull))
    (fun _ => S754_zero false) time_sleep.

(** ** What a run stores *)

(** A record after [update_message_id(old_id, new_id)]. *)
Definition rekey (old_id new_id : json) (doc : email_data) : email_data :=
  if has_id old_id doc then with_message_id new_id doc else doc.

(** Step 3 as a value: the label after coercion, the confidence and the
    classification result that the later steps work with. *)
Definition classified_as (E : env) : string * json * dict :=
  match (answer <- classify_email (classify_health E) (classify_post E) ;;
         as_dict answer) with
  | Ok classification_result =>
      (coerce_label (dict_get classification_result "label" (JStr "uncategorised")),
       dict_get classification_result "confidence" (JNum 0),
       classification_result)
  | Raise _ => ("uncategorised", JNum 0, fallback_classification "api_error")
  end.

(** The conditions under which a message without a record goes through
    all nine steps: its metadata can be read and its headers counted,
    the store answers every call, the entities of the classification can
    be searched for the out-of-office and left-company keys, and the
    mailbox client gets its token for the move and for the read flag. *)
Definition goes_through (_html_to_text : string -> string) (E : env)
    (msg : dict) : Prop :=
  (exists pre n, extract_metadata _html_to_text msg = Ok pre
                 /\ py_len (p_headers pre) = Ok n)
  /\ (forall op, db_raises E op = false)
  /\ (exists o l,
        out_of_office (dict_get (snd (classified_as E)) "entities" (JObj []))
        = Ok o
        /\ left_company (dict_get (snd (classified_as E)) "entities" (JObj []))
           = Ok l)
  /\ (exists token, fst (move_attempt E 0) = Ok token)
  /\ (exists token, fst (mark_attempt E 0) = Ok token).

(** The deployment of [env_reply_down] with sending switched off. *)
Definition env_send_disabled : env :=
  mkEnv false false (batch_id env_reply_down) (folder_mapping env_reply_down)
    (db_raises env_reply_down) (classify_health env_reply_down)
    (classify_post env_reply_down) (reply_health env_reply_down)
    (reply_post env_reply_down) (move_attempt env_reply_down)
    (mark_attempt env_reply_down) (jitter env_reply_down) (sleep env_reply_down).

(** A message whose sender is [null]: reading its metadata raises. *)
Definition msg_without_sender : dict :=
  [("id", JStr "AAMk2"); ("from", JNull); ("subject", JStr "Invoice copy")].

(** The deployment of [env_reply_down] with a folder for invoice
    requests: the move succeeds and the mailbox returns the id [AAMk9]. *)
Definition env_folder_mapped : env :=
  mkEnv true false (batch_id env_reply_down)
    [("invoice_request_no_info", JStr "folder-7")]
    (db_raises env_reply_down) (classify_health env_reply_down)
    (classify_post env_reply_down) (reply_health env_reply_down)
    (reply_post env_reply_down) (move_attempt env_reply_down)
    (mark_attempt env_reply_down) (jitter env_reply_down) (sleep env_reply_down).
(** * Properties *)

(** ** Content Normalizer *)

Lemma dict_get_truthy_default (d : dict) (k : string) (d1 d2 : json) :
  truthy (dict_get d k d1) = true -> truthy d2 = false ->
  truthy d1 = false ->
  dict_get d k d2 = dict_get d k d1.
Proof.
  induction d as [|[k' v] d IH]; simpl; intros H H2 H1.
  - congruence.
  - destruct (k' =? k)%string; auto.
Qed.

Lemma content_present_true (b : json) :
  content_present b = Ok true ->
  exists d, b = JObj d /\ truthy (dict_get d "content" JNull) = true
            /\ dict_get d "content" (JStr "") = dict_get d "content" JNull.
Proof.
  unfold content_present. destruct (truthy b) eqn:Hb; [|discriminate].
  destruct b; simpl; try discriminate.
  intros H. injection H as H. exists fields. repeat split; auto.
  apply dict_get_truthy_default; auto.
Qed.

Lemma content_present_obj (d : dict) :
  content_present (JObj d) = Ok (truthy (dict_get d "content" JNull)).
Proof.
  unfold content_present. simpl. destruct d as [|p d]; reflexivity.
Qed.

Lemma nonempty_content_some (b : json) (s : string) :
  nonempty_content b = Some s <->
  exists d, b = JObj d /\ dict_get d "content" JNull = JStr s /\ s <> "".
Proof.
  unfold nonempty_content. split.
  - destruct b; try discriminate.
    destruct (dict_get fields "content" JNull) eqn:E; try discriminate.
    destruct (String.eqb_spec s0 ""); [discriminate|].
    intros H. injection H as <-. eauto.
  - intros (d & -> & -> & Hne).
    destruct (String.eqb_spec s ""); congruence.
Qed.

Section ContentProperties.

Variable _html_to_text : string -> string.

(** The thread check alone: when it completes, its answer is the
    comparison of the two stripped contents. *)
Lemma detect_threads_ok (ub fb : json) (h : bool) :
  detect_threads ub fb = Ok h ->
  (h = true <->
   exists u f, nonempty_content ub = Some u /\ nonempty_content fb = Some f
     /\ 0 < str_len (str_strip u)
     /\ len_gt_times_1_2 (str_len (str_strip f)) (str_len (str_strip u)) = true).
Proof.
  unfold detect_threads. intros H.
  destruct (content_present ub) as [pu|] eqn:Hu; simpl in H; [|discriminate].
  destruct pu.
  - destruct (content_present fb) as [pf|] eqn:Hf; simpl in H; [|discriminate].
    destruct pf.
    + apply content_present_true in Hu as (du & -> & Htu & Hdu).
      apply content_present_true in Hf as (df & -> & Htf & Hdf).
      simpl in H. rewrite Hdu, Hdf in H.
      destruct (dict_get du "content" JNull) as [| | |su| |] eqn:Eu;
        simpl in H; try discriminate.
      destruct (dict_get df "content" JNull) as [| | |sf| |] eqn:Ef;
        simpl in H; try discriminate.
      injection H as <-.
      simpl in Htu, Htf.
      split.
      * intros Hc. apply andb_true_iff in Hc as [H1 H2].
        exists su, sf. repeat split.
        -- apply nonempty_content_some. exists du. repeat split; auto.
           intros ->. discriminate.
        -- apply nonempty_content_some. exists df. repeat split; auto.
           intros ->. discriminate.
        -- apply Z.ltb_lt; auto.
        -- auto.
      * intros (u & f & Hnu & Hnf & Hpos & Hgt).
        apply nonempty_content_some in Hnu as (du' & Hdu' & Hgu & _).
        apply nonempty_content_some in Hnf as (df' & Hdf' & Hgf & _).
        injection Hdu' as <-. injection Hdf' as <-.
        rewrite Eu in Hgu. rewrite Ef in Hgf.
        injection Hgu as <-. injection Hgf as <-.
        apply andb_true_iff. split; auto. apply Z.ltb_lt; auto.
    + injection H as <-. split; [discriminate|].
      intros (u & f & _ & Hnf & _).
      apply nonempty_content_some in Hnf as (df & -> & Hg & Hne).
      rewrite content_present_obj, Hg in Hf. simpl in Hf.
      destruct (String.eqb_spec f ""); [congruence|discriminate].
  - injection H as <-. split; [discriminate|].
    intros (u & f & Hnu & _).
    apply nonempty_content_some in Hnu as (du & -> & Hg & Hne).
    rewrite content_present_obj, Hg in Hu. simpl in Hu.
    destruct (String.eqb_spec u ""); [congruence|discriminate].
Qed.

Lemma extract_try_had_threads (msg : dict) (c ds : string) (h : bool) :
  extract_try _html_to_text msg = Ok (c, ds, h) ->
  detect_threads (dict_get msg "uniqueBody" (JObj []))
                 (dict_get msg "body" (JObj [])) = Ok h.
Proof.
  unfold extract_try.
  destruct (detect_threads _ _) as [h'|]; simpl; [|discriminate].
  destruct (use_variant _ _ _ _ _) as [s1|]; simpl; [|discriminate].
  destruct (if (fst s1 =? "")%string then _ else _) as [s2|]; simpl; [|discriminate].
  destruct (if (fst s2 =? "")%string then _ else _) as [s3|]; simpl; [|discriminate].
  intros H. injection H as _ _ <-. reflexivity.
Qed.

End ContentProperties.

(** A key that is absent gives the default. *)
Lemma dict_get_absent (d : dict) (key : string) (default : json) :
  dict_mem d key = false -> dict_get d key default = default.
Proof.
  induction d as [|[k v] d IH]; cbn; [reflexivity|].
  destruct (k =? key)%string; cbn; [discriminate|exact IH].
Qed.

(** ** Binary64 arithmetic behind the thread threshold *)

Lemma digits2_pos_bounds (p : positive) :
  2 ^ (Z.pos (digits2_pos p) - 1) <= Z.pos p < 2 ^ Z.pos (digits2_pos p).
Proof.
  induction p as [p IH|p IH|]; simpl digits2_pos.
  - rewrite Pos2Z.inj_succ.
    replace (Z.succ (Z.pos (digits2_pos p)) - 1) with (Z.succ (Z.pos (digits2_pos p) - 1)) by lia.
    rewrite !Z.pow_succ_r by lia. lia.
  - rewrite Pos2Z.inj_succ.
    replace (Z.succ (Z.pos (digits2_pos p)) - 1) with (Z.succ (Z.pos (digits2_pos p) - 1)) by lia.
    rewrite !Z.pow_succ_r by lia. lia.
  - simpl. lia.
Qed.

Lemma digits2_pos_unique (p : positive) (k : Z) :
  2 ^ (k - 1) <= Z.pos p < 2 ^ k -> Z.pos (digits2_pos p) = k.
Proof.
  intros [Hlo Hhi]. pose proof (digits2_pos_bounds p) as [Dlo Dhi].
  set (d := Z.pos (digits2_pos p)) in *.
  assert (0 < k).
  { destruct (Z.ltb_spec 0 k); auto.
    assert (2 ^ k <= 2 ^ 0) by (apply Z.pow_le_mono_r; lia). simpl in *. lia. }
  destruct (Z.lt_trichotomy d k) as [Hlt|[Heq|Hgt]]; auto.
  - assert (2 ^ d <= 2 ^ (k - 1)) by (apply Z.pow_le_mono_r; lia). lia.
  - assert (2 ^ k <= 2 ^ (d - 1)) by (apply Z.pow_le_mono_r; lia). lia.
Qed.

Lemma iter_pos_nat {A : Type} (f : A -> A) (n : positive) (x : A) :
  iter_pos f n x = Nat.iter (Pos.to_nat n) f x.
Proof.
  revert x. induction n as [n IH|n IH|]; intros x; cbn [iter_pos].
  - rewrite !IH. rewrite Pos2Nat.inj_xI.
    replace (S (2 * Pos.to_nat n))%nat with (Pos.to_nat n + (Pos.to_nat n + 1))%nat by lia.
    rewrite !Nat.iter_add. simpl. reflexivity.
  - rewrite !IH. rewrite Pos2Nat.inj_xO.
    replace (2 * Pos.to_nat n)%nat with (Pos.to_nat n + Pos.to_nat n)%nat by lia.
    rewrite Nat.iter_add. reflexivity.
  - reflexivity.
Qed.

Lemma shr_1_inv (m k : Z) (rc : shr_record) :
  0 <= k -> shr_inv m k rc -> shr_inv m (k + 1) (shr_1 rc).
Proof.
  intros Hk (Hm & rem & Heq & Hrem & Hloc).
  destruct rc as [q r s]. unfold shr_inv.
  cbn [shr_m shr_r shr_s] in *.
  rewrite Z.pow_add_r by lia. change (2 ^ 1) with 2.
  assert (0 < 2 ^ k) by (apply Z.pow_pos_nonneg; lia).
  destruct q as [|[p|p|]|p]; cbn [shr_1 shr_m shr_r shr_s]; try lia.
  - split; [lia|]. exists rem. destruct r, s; cbn [orb] in *; lia.
  - split; [lia|]. exists (rem + 2 ^ k). rewrite Pos2Z.inj_xI in Heq.
    destruct r, s; cbn [orb] in *; lia.
  - split; [lia|]. exists rem. rewrite Pos2Z.inj_xO in Heq.
    destruct r, s; cbn [orb] in *; lia.
  - split; [lia|]. exists (rem + 2 ^ k). destruct r, s; cbn [orb] in *; lia.
Qed.

Lemma iter_shr_1_inv (m : Z) (k : nat) :
  0 <= m ->
  shr_inv m (Z.of_nat k) (Nat.iter k shr_1 (Build_shr_record m false false)).
Proof.
  intros Hm. induction k as [|k IH].
  - split; [cbn; lia|]. exists 0. cbn. lia.
  - rewrite Nat2Z.inj_succ, <- Z.add_1_r. cbn [Nat.iter nat_rect].
    apply shr_1_inv; [lia|exact IH].
Qed.

Lemma shr_nonneg (rc : shr_record) (e n : Z) :
  0 <= n -> shr rc e n = (Nat.iter (Z.to_nat n) shr_1 rc, e + n).
Proof.
  intros Hn. unfold shr. destruct n as [|p|p]; try lia.
  - simpl. f_equal. lia.
  - rewrite iter_pos_nat. reflexivity.
Qed.

(** Rounding to nearest after [n] shifts moves the mantissa by at most
    half a unit in the last place. *)
Lemma round_nearest_even_close (m n : Z) (rc : shr_record) :
  0 <= n -> shr_inv m n rc ->
  let m2 := round_nearest_even (shr_m rc) (loc_of_shr_record rc) in
  2 * m - 2 ^ n <= 2 * m2 * 2 ^ n <= 2 * m + 2 ^ n /\ shr_m rc <= m2 <= shr_m rc + 1.
Proof.
  intros Hn (Hm & rem & Heq & Hrem & Hloc). destruct rc as [q r s].
  cbn [shr_m shr_r shr_s] in *.
  assert (0 < 2 ^ n) by (apply Z.pow_pos_nonneg; lia).
  destruct r, s; cbn [loc_of_shr_record round_nearest_even].
  - nia.
  - destruct (Z.even q); nia.
  - nia.
  - nia.
Qed.

Lemma fexp64 (e : Z) : -1074 <= e - 53 -> fexp prec64 emax64 e = e - 53.
Proof. unfold fexp, emin, prec64, emax64. lia. Qed.

(** Rounding a positive mantissa of at least 53 bits, away from the
    subnormal and overflow ranges. *)
Lemma binary_round_aux_spec (mx : positive) (ex : Z) :
  let n := Z.pos (digits2_pos mx) - 53 in
  0 <= n -> -1074 <= ex + n -> ex + n + 1 <= 971 ->
  exists m3 e3 m2,
    binary_round_aux prec64 emax64 false (Z.pos mx) ex loc_Exact
      = S754_finite false m3 e3 /\
    2 * Z.pos mx - 2 ^ n <= 2 * m2 * 2 ^ n <= 2 * Z.pos mx + 2 ^ n /\
    ((e3 = ex + n /\ Z.pos m3 = m2 /\ m2 < 2 ^ 53)
     \/ (e3 = ex + n + 1 /\ Z.pos m3 = 2 ^ 52 /\ m2 = 2 ^ 53)).
Proof.
  intros n Hn Hlo Hhi.
  pose proof (digits2_pos_bounds mx) as [Dlo Dhi].
  unfold binary_round_aux, shr_fexp.
  cbn [Zdigits2 shr_record_of_loc].
  rewrite fexp64 by (fold n; lia).
  replace (Z.pos (digits2_pos mx) + ex - 53 - ex) with n by (unfold n; lia).
  rewrite shr_nonneg by exact Hn.
  pose proof (@iter_shr_1_inv (Z.pos mx) (Z.to_nat n) ltac:(lia)) as Hinv.
  rewrite Z2Nat.id in Hinv by exact Hn.
  set (rc := Nat.iter (Z.to_nat n) shr_1 _) in *.
  pose proof (round_nearest_even_close _ _ _ Hn Hinv) as [Hclose Hm2].
  set (m2 := round_nearest_even (shr_m rc) (loc_of_shr_record rc)) in *.
  destruct Hinv as (Hq & rem & Heq & Hrem & _).
  assert (Hpn : 0 < 2 ^ n) by (apply Z.pow_pos_nonneg; lia).
  assert (Hd1 : 2 ^ (Z.pos (digits2_pos mx) - 1) = 2 ^ 52 * 2 ^ n).
  { replace (Z.pos (digits2_pos mx) - 1) with (52 + n) by (unfold n; lia).
    apply Z.pow_add_r; lia. }
  assert (Hd2 : 2 ^ Z.pos (digits2_pos mx) = 2 ^ 53 * 2 ^ n).
  { replace (Z.pos (digits2_pos mx)) with (53 + n) at 1 by (unfold n; lia).
    apply Z.pow_add_r; lia. }
  rewrite Hd1 in Dlo. rewrite Hd2 in Dhi.
  assert (Hqb : 2 ^ 52 <= shr_m rc < 2 ^ 53) by nia.
  assert (Hm2b : 2 ^ 52 <= m2 <= 2 ^ 53) by lia.
  destruct m2 as [|p2|p2] eqn:Em2; try lia.
  cbn [Zdigits2].
  destruct (Z.eq_dec (Z.pos p2) (2 ^ 53)) as [Htop|Hntop].
  - assert (Hp2 : p2 = (2 ^ 53)%positive) by lia. subst p2.
    change (Z.pos (digits2_pos (2 ^ 53))) with 54.
    rewrite fexp64 by lia.
    replace (54 + (ex + n) - 53 - (ex + n)) with 1 by lia.
    cbn [shr iter_pos shr_1 shr_m].
    change (Z.pos 1) with 1.
    replace (ex + n + 1 <=? emax64 - prec64) with true
      by (symmetry; apply Z.leb_le; unfold emax64, prec64; lia).
    eexists _, _, (Z.pos (2 ^ 53)). split; [reflexivity|]. split; [exact Hclose|].
    right. repeat split; reflexivity.
  - rewrite (@digits2_pos_unique p2 53) by lia.
    rewrite fexp64 by lia.
    replace (53 + (ex + n) - 53 - (ex + n)) with 0 by lia.
    cbn [shr shr_m].
    replace (ex + n <=? emax64 - prec64) with true
      by (symmetry; apply Z.leb_le; unfold emax64, prec64; lia).
    eexists _, _, (Z.pos p2). split; [reflexivity|]. split; [exact Hclose|].
    left. repeat split; try reflexivity. lia.
Qed.

Lemma pos_iter_xO (p q : positive) :
  Z.pos (Pos.iter xO p q) = Z.pos p * 2 ^ Z.pos q.
Proof.
  induction q as [|q IH] using Pos.peano_ind.
  - cbn [Pos.iter]. lia.
  - rewrite Pos.iter_succ, Pos2Z.inj_xO, IH, Pos2Z.inj_succ, Z.pow_succ_r by lia.
    lia.
Qed.

(** [float(n)] is exact below [2^53]; here for [n < 2^50]. *)
Lemma float_of_int_spec (p : positive) :
  let d := Z.pos (digits2_pos p) in
  d <= 50 ->
  exists mU, float_of_int (Z.pos p) = S754_finite false mU (d - 53)
             /\ Z.pos mU = Z.pos p * 2 ^ (53 - d).
Proof.
  intros d Hd.
  pose proof (digits2_pos_bounds p) as [Dlo Dhi]. fold d in Dlo, Dhi.
  unfold float_of_int, binary_normalize, binary_round, shl_align.
  rewrite fexp64 by (fold d; lia). fold d.
  destruct (d + 0 - 53 - 0) as [|q|q] eqn:Eq; try lia.
  assert (Hq : Z.pos q = 53 - d) by lia.
  pose proof (pos_iter_xO p q) as Hmz. rewrite Hq in Hmz.
  set (mz := Pos.iter xO p q) in *.
  assert (Ha : 0 < 2 ^ (53 - d)) by (apply Z.pow_pos_nonneg; lia).
  assert (Hsplit1 : 2 ^ 52 = 2 ^ (d - 1) * 2 ^ (53 - d)).
  { rewrite <- Z.pow_add_r by lia. f_equal. lia. }
  assert (Hsplit2 : 2 ^ 53 = 2 ^ d * 2 ^ (53 - d)).
  { rewrite <- Z.pow_add_r by lia. f_equal. lia. }
  assert (Hdz : Z.pos (digits2_pos mz) = 53).
  { apply digits2_pos_unique. change (53 - 1) with 52.
    rewrite Hmz, Hsplit1, Hsplit2. nia. }
  destruct (binary_round_aux_spec mz (d + 0 - 53)) as (m3 & e3 & m2 & Hr & Hc & He);
    rewrite ?Hdz; try lia.
  rewrite Hdz in Hc, He. change (53 - 53) with 0 in Hc, He.
  change (2 ^ 0) with 1 in Hc.
  assert (m2 = Z.pos mz) by lia. subst m2.
  destruct He as [(He & Hm & _)|(_ & _ & Hm)].
  - exists m3. rewrite Hr. split; [f_equal; lia|lia].
  - exfalso. rewrite Hmz, Hsplit2 in Hm. nia.
Qed.

(** The arithmetic core: [m2] is the rounded mantissa, [t] the scale of
    the integer and [w] half a rounding unit of the exact product. *)
Lemma threshold_core (U F m2 t w : Z) :
  0 < U -> 0 < w -> 4 <= t -> t * w = 2 ^ 52 -> U < 2 * w ->
  2 * U * 5404319552844595 - w <= 2 * m2 * w <= 2 * U * 5404319552844595 + w ->
  (m2 <? F * t) = (12 * U <? 10 * F).
Proof.
  intros HU Hw Ht Htw HUw [Hlo Hhi].
  assert (HF : F * t * w = F * 2 ^ 52) by (rewrite <- Z.mul_assoc, Htw; reflexivity).
  assert (H4 : 4 * w <= t * w) by (apply Z.mul_le_mono_nonneg_r; lia).
  destruct (Z.ltb_spec m2 (F * t)) as [H1|H1];
    destruct (Z.ltb_spec (12 * U) (10 * F)) as [H2|H2]; auto; exfalso.
  - assert ((m2 + 1) * w <= F * t * w) by (apply Z.mul_le_mono_nonneg_r; lia).
    lia.
  - assert (F * t * w <= m2 * w) by (apply Z.mul_le_mono_nonneg_r; lia).
    lia.
Qed.

(** The threshold test decides [full > 1.2 * unique] exactly: rounding
    the product to binary64 never moves it across an integer that the
    exact product does not cross, for lengths below [2^50]. *)
Lemma len_gt_times_1_2_exact (F U : Z) :
  0 < U < 2 ^ 50 ->
  len_gt_times_1_2 F U = (12 * U <? 10 * F).
Proof.
  intros [HU0 HU].
  destruct U as [|p|p]; try lia.
  pose proof (digits2_pos_bounds p) as [Dlo Dhi].
  set (d := Z.pos (digits2_pos p)) in *.
  assert (Hd1 : 1 <= d) by (unfold d; lia).
  assert (Hd : d <= 50).
  { destruct (Z.leb_spec d 50); auto.
    assert (2 ^ 50 <= 2 ^ (d - 1)) by (apply Z.pow_le_mono_r; lia). lia. }
  destruct (float_of_int_spec p Hd) as (mU & HfU & HmU). fold d in HfU, HmU.
  unfold len_gt_times_1_2. rewrite HfU. unfold float_1_2.
  cbn [SFmul xorb].
  set (a := 2 ^ (53 - d)) in *.
  assert (Ha : 0 < a) by (apply Z.pow_pos_nonneg; lia).
  assert (Hs1 : 2 ^ 52 = 2 ^ (d - 1) * a).
  { unfold a. rewrite <- Z.pow_add_r by lia. f_equal. lia. }
  assert (Hdd : 2 ^ d = 2 * 2 ^ (d - 1)).
  { replace d with (Z.succ (d - 1)) at 1 by lia. apply Z.pow_succ_r. lia. }
  assert (Hw1 : 0 < 2 ^ (d - 1)) by (apply Z.pow_pos_nonneg; lia).
  assert (HmUb : 2 ^ 52 <= Z.pos mU < 2 ^ 53).
  { rewrite HmU. change (2 ^ 53) with (2 * 2 ^ 52). rewrite Hs1. split.
    - apply Z.mul_le_mono_nonneg_r; lia.
    - rewrite Z.mul_assoc, <- Hdd. apply Z.mul_lt_mono_pos_r; lia. }
  assert (HPb : 2 ^ 104 <= Z.pos (mU * 5404319552844595) < 2 ^ 106).
  { rewrite Pos2Z.inj_mul. split.
    - apply Z.le_trans with (2 ^ 52 * 5404319552844595); [lia|].
      apply Z.mul_le_mono_nonneg_r; lia.
    - apply Z.lt_le_trans with (2 ^ 53 * 5404319552844595); [|lia].
      apply Z.mul_lt_mono_pos_r; lia. }
  pose proof (digits2_pos_bounds (mU * 5404319552844595)) as [Plo Phi].
  set (dp := Z.pos (digits2_pos (mU * 5404319552844595))) in *.
  assert (Hdp : dp = 105 \/ dp = 106).
  { destruct (Z.leb_spec dp 104).
    - assert (2 ^ dp <= 2 ^ 104) by (apply Z.pow_le_mono_r; unfold dp; lia). lia.
    - destruct (Z.leb_spec 107 dp); [|lia].
      assert (2 ^ 106 <= 2 ^ (dp - 1)) by (apply Z.pow_le_mono_r; lia). lia. }
  destruct (binary_round_aux_spec (mU * 5404319552844595) (d - 53 + -52))
    as (m3 & e3 & m2 & Hr & Hc & He); fold dp; try lia.
  fold dp in Hc, He. rewrite Hr. unfold int_gt_float.
  rewrite Pos2Z.inj_mul, HmU in Hc.
  assert (He3 : e3 < 0) by lia.
  destruct (Z.leb_spec 0 e3) as [|_]; [lia|].
  destruct Hdp as [Hdp|Hdp]; rewrite Hdp in Hc, He.
  - (* the product has 105 bits: 52 are dropped *)
    change (105 - 53) with 52 in Hc, He.
    set (w := 2 ^ (d - 1)) in *.
    assert (Ha8 : 8 <= a).
    { change 8 with (2 ^ 3). apply Z.pow_le_mono_r; lia. }
    rewrite Hs1 in Hc.
    assert (HA : 2 * Z.pos p * 5404319552844595 - w <= 2 * m2 * w
                 <= 2 * Z.pos p * 5404319552844595 + w).
    { split; apply (Z.mul_le_mono_pos_r _ _ a Ha); lia. }
    assert (Hcore := threshold_core (Z.pos p) F m2 a w HU0 Hw1 ltac:(lia)
                       ltac:(lia) ltac:(lia) HA).
    rewrite <- Hcore.
    destruct He as [(He & Hm & _)|(He & Hm & Hm2)].
    + replace (- e3) with (53 - d) by lia. fold a. rewrite Hm. reflexivity.
    + replace (- e3) with (52 - d) by lia.
      assert (Ha2 : a = 2 * 2 ^ (52 - d)).
      { unfold a. replace (53 - d) with (Z.succ (52 - d)) by lia.
        apply Z.pow_succ_r. lia. }
      rewrite Hm, Hm2, Ha2. change (2 ^ 53) with (2 * 2 ^ 52).
      destruct (Z.ltb_spec (2 ^ 52) (F * 2 ^ (52 - d)));
        destruct (Z.ltb_spec (2 * 2 ^ 52) (F * (2 * 2 ^ (52 - d)))); auto; lia.
  - (* the product has 106 bits: 53 are dropped *)
    change (106 - 53) with 53 in Hc, He.
    set (w := 2 ^ d) in *.
    set (t := 2 ^ (52 - d)).
    assert (Ht4 : 4 <= t).
    { change 4 with (2 ^ 2). apply Z.pow_le_mono_r; lia. }
    assert (Hat : a = 2 * t).
    { unfold a, t. replace (53 - d) with (Z.succ (52 - d)) by lia.
      apply Z.pow_succ_r. lia. }
    assert (Htw : t * w = 2 ^ 52).
    { unfold t, w. rewrite <- Z.pow_add_r by lia. f_equal. lia. }
    assert (Hs2 : 2 ^ 53 = w * a).
    { rewrite Hat. change (2 ^ 53) with (2 * 2 ^ 52). rewrite <- Htw. lia. }
    rewrite Hs2 in Hc.
    assert (HA : 2 * Z.pos p * 5404319552844595 - w <= 2 * m2 * w
                 <= 2 * Z.pos p * 5404319552844595 + w).
    { split; apply (Z.mul_le_mono_pos_r _ _ a Ha); lia. }
    assert (Hcore := threshold_core (Z.pos p) F m2 t w HU0 ltac:(lia) Ht4
                       Htw ltac:(lia) HA).
    rewrite <- Hcore.
    destruct He as [(He & Hm & _)|(He & Hm & Hm2)].
    + replace (- e3) with (52 - d) by lia. fold t. rewrite Hm. reflexivity.
    + replace (- e3) with (51 - d) by lia.
      assert (Ht2 : t = 2 * 2 ^ (51 - d)).
      { unfold t. replace (52 - d) with (Z.succ (51 - d)) by lia.
        apply Z.pow_succ_r. lia. }
      rewrite Hm, Hm2, Ht2. change (2 ^ 53) with (2 * 2 ^ 52).
      destruct (Z.ltb_spec (2 ^ 52) (F * 2 ^ (51 - d)));
        destruct (Z.ltb_spec (2 * 2 ^ 52) (F * (2 * 2 ^ (51 - d)))); auto; lia.
Qed.

(** ** The thread flag *)

Lemma spec_had_threads_true (msg : dict) :
  spec_had_threads msg = true <->
  exists u f,
    nonempty_content (dict_get msg "uniqueBody" (JObj [])) = Some u
    /\ nonempty_content (dict_get msg "body" (JObj [])) = Some f
    /\ 0 < str_len (str_strip u)
    /\ 12 * str_len (str_strip u) < 10 * str_len (str_strip f).
Proof.
  unfold spec_had_threads. split.
  - destruct (nonempty_content (dict_get msg "uniqueBody" (JObj []))) as [u|];
      [|discriminate].
    destruct (nonempty_content (dict_get msg "body" (JObj []))) as [f|];
      [|discriminate].
    intros H. apply andb_true_iff in H as [H1 H2].
    apply Z.ltb_lt in H1. apply Z.ltb_lt in H2. eauto 10.
  - intros (u & f & -> & -> & H1 & H2).
    apply andb_true_iff. split; apply Z.ltb_lt; assumption.
Qed.

Section ThreadFlag.

Variable _html_to_text : string -> string.

(** C1, as the code has it: [had_threads] is true if and only if both
    body variants are present with non-empty content, the stripped unique
    content has positive length U, the stripped full content has length
    F > 1.2 * U, and the rest of the extraction meets no internal failure
    (the [try] block completes); on an internal failure the [except]
    clause returns false.  The lengths are those of strings that fit a
    machine: below [2^50] characters, where the binary64 product of the
    code decides F > 1.2 * U exactly. *)
Theorem had_threads_iff (msg : dict) :
  (forall u, nonempty_content (dict_get msg "uniqueBody" (JObj [])) = Some u ->
             str_len (str_strip u) < 2 ^ 50) ->
  snd (_extract_clean_email_content _html_to_text msg) = true <->
  (exists r, extract_try _html_to_text msg = Ok r) /\ spec_had_threads msg = true.
Proof.
  intros Hlen. unfold _extract_clean_email_content.
  destruct (extract_try _html_to_text msg) as [[[c ds] h]|e] eqn:Ht; simpl.
  - pose proof (extract_try_had_threads _ _ _ _ _ Ht) as Hd.
    pose proof (detect_threads_ok _ _ _ Hd) as Hiff.
    rewrite spec_had_threads_true. split.
    + intros ->. split; [eauto|].
      destruct (proj1 Hiff eq_refl) as (u & f & Hu & Hf & Hpos & Hgt).
      exists u, f. repeat split; auto.
      rewrite len_gt_times_1_2_exact in Hgt by (split; [exact Hpos|auto]).
      apply Z.ltb_lt. exact Hgt.
    + intros [_ (u & f & Hu & Hf & Hpos & Hgt)].
      apply Hiff. exists u, f. repeat split; auto.
      rewrite len_gt_times_1_2_exact by (split; [exact Hpos|auto]).
      apply Z.ltb_lt. exact Hgt.
  - split; [discriminate|]. intros [[r Hr] _]. discriminate.
Qed.

End ThreadFlag.

(** ** Backoff Executor *)

(** One iteration of the loop. *)
Lemma retry_loop_step (A : Type) (func : nat -> result A)
    (jitter : nat -> spec_float) (sleep : spec_float -> result unit)
    (max_retries remaining attempt : nat) (backoff : spec_float)
    (last : option exn) (sleeps : list spec_float) :
  retry_loop func jitter sleep max_retries (S remaining) attempt backoff last sleeps
  = if retryable (func attempt) && negb (attempt =? max_retries - 1)%nat
    then
      match sleep (sleep_time_of backoff (jitter attempt)) with
      | Raise e =>
          mkRun (Raise e) (S attempt)
                (sleeps ++ [sleep_time_of backoff (jitter attempt)])
      | Ok _ =>
          retry_loop func jitter sleep max_retries remaining (S attempt)
            (fmul backoff (float_of_int 2))
            (match func attempt with Raise e => Some e | Ok _ => last end)
            (sleeps ++ [sleep_time_of backoff (jitter attempt)])
      end
    else mkRun (func attempt) (S attempt) sleeps.
Proof.
  cbn [retry_loop]. destruct (func attempt) as [v|e]; [reflexivity|].
  destruct e; try reflexivity. cbn [retryable].
  destruct (client_error_no_retry response_status); [reflexivity|].
  destruct (attempt =? max_retries - 1)%nat; reflexivity.
Qed.

(** C2, the failing path: an HTTP status error ([raise_for_status()] on a
    503, a 429, a 408, ...) is an [httpx.HTTPStatusError], which the
    handler [except httpx.RequestError] does not catch: the first attempt
    is the only one, nothing is slept, and the error reaches the caller
    at once, whatever the status code and whatever later attempts would
    have given. *)
Theorem http_status_error_is_not_retried (A : Type) (status_code : Z)
    (later : nat -> result A) (jitter : nat -> spec_float)
    (sleep : spec_float -> result unit) :
  with_retries
    (fun attempt => match attempt with
                    | O => Raise (HTTPStatusError status_code)
                    | S _ => later attempt
                    end) jitter sleep
  = mkRun (Raise (HTTPStatusError status_code)) 1 [].
Proof. reflexivity. Qed.

(** What the wrapper does do: errors of the class [httpx.RequestError]
    that carry no client-error status are retried, three attempts in all
    when the two sleeps in between return; the sleeps are asked to last
    [1.5 * (1.0 + 0.1 * random.random())] and
    [3.0 * (1.0 + 0.1 * random.random())] as binary64 computes them, and
    the last error is the one raised. *)
Lemma request_errors_exhaust_retries (A : Type) (status : nat -> option Z)
    (jitter : nat -> spec_float) (sleep : spec_float -> result unit) :
  let first := fmul float_1_5
                 (fadd (float_of_int 1) (fmul float_0_1 (jitter 0%nat))) in
  let second := fmul (fmul float_1_5 (float_of_int 2))
                  (fadd (float_of_int 1) (fmul float_0_1 (jitter 1%nat))) in
  (forall i, client_error_no_retry (status i) = false) ->
  sleep first = Ok tt ->
  sleep second = Ok tt ->
  with_retries (fun i => @Raise A (RequestError (status i))) jitter sleep
  = mkRun (Raise (RequestError (status 2%nat))) 3 [first; second].
Proof.
  intros first second H H1 H2.
  unfold with_retries, retry_with_backoff. rewrite !retry_loop_step.
  cbn [retryable Nat.eqb Nat.sub negb andb]. rewrite !H. cbn [negb andb].
  change (sleep_time_of float_1_5 (jitter 0%nat)) with first.
  change (sleep_time_of (fmul float_1_5 (float_of_int 2)) (jitter 1%nat))
    with second.
  rewrite H1, H2. reflexivity.
Qed.

(** A client error other than 429 and 408 ends the retries at once. *)
Lemma client_error_is_not_retried (A : Type) (status_code : option Z)
    (later : nat -> result A) (jitter : nat -> spec_float)
    (sleep : spec_float -> result unit) :
  client_error_no_retry status_code = true ->
  with_retries
    (fun attempt => match attempt with
                    | O => Raise (RequestError status_code)
                    | S _ => later attempt
                    end) jitter sleep
  = mkRun (Raise (RequestError status_code)) 1 [].
Proof.
  intros H. unfold with_retries, retry_with_backoff. cbn [retry_loop].
  rewrite H. reflexivity.
Qed.

(** Two retryable failures and a success: the value is returned after
    exactly two sleeps. *)
Lemma third_attempt_succeeds (A : Type) (v : A) (jitter : nat -> spec_float)
    (sleep : spec_float -> result unit) :
  sleep (sleep_time_of float_1_5 (jitter 0%nat)) = Ok tt ->
  sleep (sleep_time_of (fmul float_1_5 (float_of_int 2)) (jitter 1%nat)) = Ok tt ->
  with_retries
    (fun attempt => match attempt with
                    | 0%nat | 1%nat => Raise (RequestError None)
                    | _ => Ok v
                    end) jitter sleep
  = mkRun (Ok v) 3
      [ sleep_time_of float_1_5 (jitter 0%nat);
        sleep_time_of (fmul float_1_5 (float_of_int 2)) (jitter 1%nat) ].
Proof.
  intros H1 H2. unfold with_retries, retry_with_backoff. rewrite !retry_loop_step.
  cbn [retryable client_error_no_retry Nat.eqb Nat.sub negb andb].
  rewrite H1, H2. reflexivity.
Qed.

Lemma client_error_codes (c : Z) :
  client_error_no_retry (Some c) = true
  <-> 400 <= c < 500 /\ c <> 429 /\ c <> 408.
Proof.
  unfold client_error_no_retry.
  rewrite !andb_true_iff, !negb_true_iff, orb_false_iff.
  rewrite Z.leb_le, Z.ltb_lt, !Z.eqb_neq. lia.
Qed.

(** ** Token Manager *)



(** ** Paginated Resource Walker *)

Lemma yield_items_spec (value : list json) (count max_items : nat) :
  (max_items = 0 \/ count < max_items)%nat ->
  yield_items value count max_items
  = if ((max_items =? 0) || (count + List.length value <? max_items))%nat
    then (value, Some (count + List.length value)%nat)
    else (firstn (max_items - count) value, None).
Proof.
  revert count. induction value as [|item rest IH]; intros count Hc; simpl.
  - rewrite Nat.add_0_r.
    destruct (Nat.eqb_spec max_items 0); simpl; [reflexivity|].
    destruct (Nat.ltb_spec count max_items); [reflexivity|lia].
  - destruct (Nat.eqb_spec max_items 0) as [Hz|Hz]; simpl.
    + rewrite IH by lia. subst max_items. simpl.
      rewrite Nat.add_succ_r. reflexivity.
    + destruct (Nat.leb_spec max_items (S count)) as [Hle|Hlt].
      * destruct (Nat.ltb_spec (count + S (List.length rest)) max_items); [lia|].
        replace (max_items - count)%nat with 1%nat by lia. reflexivity.
      * rewrite IH by lia.
        destruct (Nat.eqb_spec max_items 0); [lia|]. simpl.
        rewrite Nat.add_succ_r.
        destruct (Nat.ltb_spec (S (count + List.length rest)) max_items).
        -- reflexivity.
        -- replace (max_items - count)%nat with (S (max_items - S count)) by lia.
           reflexivity.
Qed.

Lemma capped_app (max_items count : nat) (value rest : list json) :
  (max_items = 0 \/ count + List.length value < max_items)%nat ->
  value ++ capped max_items (count + List.length value) rest
  = capped max_items count (value ++ rest).
Proof.
  unfold capped. intros H.
  destruct (Nat.eqb_spec max_items 0); [reflexivity|].
  rewrite firstn_app.
  rewrite (@firstn_all2 _ (max_items - count)%nat value) by lia.
  f_equal. f_equal. lia.
Qed.

Lemma capped_stop (max_items count : nat) (value rest : list json) :
  (max_items <> 0)%nat -> (max_items <= count + List.length value)%nat ->
  firstn (max_items - count) value = capped max_items count (value ++ rest).
Proof.
  unfold capped. intros Hz H.
  destruct (Nat.eqb_spec max_items 0); [lia|].
  rewrite firstn_app.
  replace (max_items - count - List.length value)%nat with 0%nat by lia.
  simpl. symmetry. apply app_nil_r.
Qed.

(** The walk over a finite chain of pages: it ends, and it yields the
    items of the pages in page order, up to the limit. *)
Lemma walk_pages_spec (server : string -> page_fetch) (url : json)
    (pages : list (list json)) (e : chain_end) :
  serves server url pages e ->
  forall (count max_items fuel : nat),
    (max_items = 0 \/ count < max_items)%nat ->
    (List.length pages < fuel)%nat ->
    exists reqs,
      walk_pages fuel server url count max_items
      = Some (capped max_items count (List.concat pages), reqs)
      /\ (List.length reqs
          <= List.length pages + match e with FetchFailed => 1 | EndOfLinks => 0 end)%nat.
Proof.
  induction 1 as [url Hu|url Hu Hf|url value next rest e Hu Hf Hs IH];
    intros count max_items fuel Hc Hfuel.
  - exists []. destruct fuel; simpl; rewrite Hu; split; auto;
      unfold capped; destruct (max_items =? 0)%nat; simpl;
      rewrite ?firstn_nil; reflexivity.
  - destruct fuel as [|fuel]; [simpl in Hfuel; lia|].
    exists [url]. simpl. rewrite Hu.
    destruct (fetch_page server url); try discriminate;
      (split; [|simpl; lia]); unfold capped;
      destruct (max_items =? 0)%nat; simpl; rewrite ?firstn_nil; reflexivity.
  - destruct fuel as [|fuel]; [simpl in Hfuel; lia|].
    simpl in Hfuel. simpl walk_pages. rewrite Hu, Hf.
    rewrite yield_items_spec by exact Hc.
    destruct ((max_items =? 0) || (count + List.length value <? max_items))%nat
      eqn:Hgo.
    + assert (Hc' : (max_items = 0
                     \/ count + List.length value < max_items)%nat).
      { apply orb_true_iff in Hgo as [Hz|Hl].
        - left. apply Nat.eqb_eq. exact Hz.
        - right. apply Nat.ltb_lt. exact Hl. }
      destruct (IH (count + List.length value)%nat max_items fuel Hc' ltac:(lia))
        as (reqs & Hw & Hr).
      rewrite Hw. exists (url :: reqs). split.
      * simpl List.concat. rewrite capped_app by exact Hc'. reflexivity.
      * simpl. lia.
    + apply orb_false_iff in Hgo as [Hz Hl].
      apply Nat.eqb_neq in Hz. apply Nat.ltb_ge in Hl.
      exists [url]. split.
      * simpl List.concat. rewrite <- capped_stop by assumption. reflexivity.
      * simpl. lia.
Qed.

(** C4: a walk with a positive [max_items] over a source that serves a
    finite chain of pages yields exactly min(max_items, total items
    available) elements, in page order: the first [max_items] items of
    the pages laid end to end; and it asks for no more pages than the
    source has. *)
Theorem walk_yields_up_to_max_items (server : string -> page_fetch)
    (url token : json) (pages : list (list json)) (batch_size max_items fuel : nat) :
  serves server url pages EndOfLinks ->
  (0 < max_items)%nat ->
  (List.length pages < fuel)%nat ->
  get_all_pages fuel server (Ok token) batch_size url (Some max_items)
  = Some (Ok (firstn max_items (List.concat pages)))
  /\ List.length (firstn max_items (List.concat pages))
     = Nat.min max_items (List.length (List.concat pages))
  /\ exists reqs,
       walk_pages fuel server url 0 max_items
       = Some (firstn max_items (List.concat pages), reqs)
       /\ (List.length reqs <= List.length pages)%nat.
Proof.
  intros Hs Hm Hfuel.
  destruct (walk_pages_spec _ _ _ _ Hs 0%nat max_items fuel ltac:(lia) Hfuel)
    as (reqs & Hw & Hr).
  unfold capped in Hw. destruct (Nat.eqb_spec max_items 0); [lia|].
  rewrite Nat.sub_0_r in Hw.
  split; [|split].
  - unfold get_all_pages, effective_max.
    destruct max_items; [lia|]. rewrite Hw. reflexivity.
  - apply length_firstn.
  - exists reqs. split; [exact Hw|lia].
Qed.

(** C9: when fetching a page fails, with an HTTP status error, a network
    error or a body that is no page, the sequence ends there: the walk
    returns normally, and what it has yielded is exactly the items of the
    pages before the failing one, up to the limit. *)
Theorem failed_fetch_ends_the_sequence (server : string -> page_fetch)
    (url token : json) (pages : list (list json)) (batch_size fuel : nat)
    (max_items : option nat) :
  serves server url pages FetchFailed ->
  (List.length pages < fuel)%nat ->
  get_all_pages fuel server (Ok token) batch_size url max_items
  = Some (Ok (capped (effective_max max_items batch_size) 0 (List.concat pages))).
Proof.
  intros Hs Hfuel. unfold get_all_pages.
  destruct (walk_pages_spec _ _ _ _ Hs 0%nat (effective_max max_items batch_size) fuel
              ltac:(lia) Hfuel) as (reqs & Hw & _).
  rewrite Hw. reflexivity.
Qed.

(** ** Statements of the pipeline: frame rules *)

Section Respects.

Variable R : state -> state -> Prop.
Hypothesis R_refl : forall st, R st st.
Hypothesis R_trans : forall a b c, R a b -> R b c -> R a c.

Lemma respects_ret (A : Type) (a : A) : respects R (ret a).
Proof. intros st. apply R_refl. Qed.

Lemma respects_lift (A : Type) (r : result A) : respects R (lift r).
Proof. intros st. apply R_refl. Qed.

Lemma respects_bind (A B : Type) (m : M A) (k : A -> M B) :
  respects R m -> (forall a, respects R (k a)) -> respects R (bind m k).
Proof.
  intros Hm Hk st. unfold bind. specialize (Hm st).
  destruct (m st) as [[a|e] st1]; simpl in *; auto.
  eapply R_trans; [exact Hm|]. apply Hk.
Qed.

End Respects.

Lemma same_outcome_refl (st : state) : same_outcome st st.
Proof. reflexivity. Qed.

Lemma same_outcome_trans (a b c : state) :
  same_outcome a b -> same_outcome b c -> same_outcome a c.
Proof. unfold same_outcome. congruence. Qed.

Lemma same_store_refl (st : state) : same_store st st.
Proof. reflexivity. Qed.

Lemma same_store_trans (a b c : state) :
  same_store a b -> same_store b c -> same_store a c.
Proof. unfold same_store. congruence. Qed.

Lemma same_metrics_refl (st : state) : same_metrics st st.
Proof. reflexivity. Qed.

Lemma same_metrics_trans (a b c : state) :
  same_metrics a b -> same_metrics b c -> same_metrics a c.
Proof. unfold same_metrics. congruence. Qed.

Lemma adds_events_refl (ok : event -> Prop) (st : state) : adds_events ok st st.
Proof. exists []. split; [symmetry; apply app_nil_r|constructor]. Qed.

Lemma adds_events_trans (ok : event -> Prop) (a b c : state) :
  adds_events ok a b -> adds_events ok b c -> adds_events ok a c.
Proof.
  intros (e1 & H1 & F1) (e2 & H2 & F2). exists (e1 ++ e2). split.
  - rewrite H2, H1. symmetry. apply app_assoc.
  - apply Forall_app. split; assumption.
Qed.

Create HintDb frame.

#[local] Hint Resolve same_outcome_refl same_outcome_trans same_store_refl
  same_store_trans same_metrics_refl same_metrics_trans adds_events_refl
  adds_events_trans : frame.

(** Breaks a statement into its primitive steps; the primitives are left
    to the hint database. *)
Ltac frame_step :=
  match goal with
  | |- respects _ (bind _ _) => apply respects_bind; [eauto with frame | | intros ?]
  | |- respects _ (ret _) => apply respects_ret; eauto with frame
  | |- respects _ (lift _) => apply respects_lift; eauto with frame
  | |- respects _ (if ?c then _ else _) => destruct c eqn:?
  | |- respects _ (match ?x with Ok _ => _ | Raise _ => _ end) => destruct x eqn:?
  | |- respects _ (let _ := _ in _) => cbv zeta
  end.

Ltac frame := repeat frame_step; eauto with frame; try (intro; reflexivity).

(** *** The three outcome counters *)

Lemma outcome_emit (ev : event) : respects same_outcome (emit ev).
Proof. intros st. reflexivity. Qed.

Lemma outcome_classified : respects same_outcome (update_metrics incr_classified).
Proof. intros st. reflexivity. Qed.

Lemma outcome_moved : respects same_outcome (update_metrics incr_moved).
Proof. intros st. reflexivity. Qed.

Lemma outcome_clean_text :
  respects same_outcome (update_metrics incr_clean_text_extracted).
Proof. intros st. reflexivity. Qed.

#[local] Hint Resolve outcome_emit outcome_classified outcome_moved
  outcome_clean_text : frame.

Lemma outcome_db_call (E : env) (op : db_op) (ev : event) :
  respects same_outcome (db_call E op ev).
Proof. unfold db_call. frame. Qed.

#[local] Hint Resolve outcome_db_call : frame.

Lemma outcome_email_exists (E : env) (id : json) :
  respects same_outcome (email_exists E id).
Proof. unfold email_exists. frame. Qed.

Lemma outcome_set_batch_id (E : env) : respects same_outcome (set_batch_id E).
Proof. unfold set_batch_id. frame. Qed.

Lemma outcome_insert_email (E : env) (doc : email_data) :
  respects same_outcome (insert_email E doc).
Proof. unfold insert_email. frame. Qed.

Lemma outcome_update_message_id (E : env) (old_id new_id : json) :
  respects same_outcome (update_message_id E old_id new_id).
Proof. unfold update_message_id. frame. Qed.

#[local] Hint Resolve outcome_email_exists outcome_set_batch_id
  outcome_insert_email outcome_update_message_id : frame.

Lemma outcome_classify_stage (E : env) (pre : prelude) :
  respects same_outcome (classify_stage E pre).
Proof. unfold classify_stage. frame. Qed.

Lemma outcome_reply_stage (E : env) (label : string) :
  respects same_outcome (reply_stage E label).
Proof. unfold reply_stage. frame. Qed.

Lemma outcome_persist_stage (E : env) (pre : prelude) (id : json)
    (label : string) (confidence : json) (cr : dict) (entities reply : json) :
  respects same_outcome (persist_stage E pre id label confidence cr entities reply).
Proof. unfold persist_stage. frame. Qed.

Lemma outcome_route_stage (E : env) (id : json) (label : string) :
  respects same_outcome (route_stage E id label).
Proof. unfold route_stage. frame. Qed.

#[local] Hint Resolve outcome_classify_stage outcome_reply_stage
  outcome_persist_stage outcome_route_stage : frame.

(** Steps 4 to 9 move [emails_processed] when they complete and none of
    the three counters when they raise. *)
Lemma after_classification_outcome (E : env) (pre : prelude) (id : json)
    (label : string) (confidence : json) (cr : dict) (st : state) :
  let run := after_classification E pre id label confidence cr st in
  match fst run with
  | Ok _ =>
      outcome_counters (snd run)
      = (emails_skipped (st_metrics st), S (emails_processed (st_metrics st)),
         emails_errored (st_metrics st))
  | Raise _ => outcome_counters (snd run) = outcome_counters st
  end.
Proof.
  unfold after_classification, bind.
  pose proof (outcome_reply_stage E label st) as H1.
  destruct (reply_stage E label st) as [[r|e] st1]; simpl in H1; [|exact H1].
  pose proof (outcome_persist_stage E pre id (fst r) confidence cr
                (dict_get cr "entities" (JObj [])) (snd r) st1) as H2.
  destruct (persist_stage _ _ _ _ _ _ _ _ st1) as [[u|e] st2]; simpl in H2;
    [|simpl; unfold same_outcome in *; congruence].
  pose proof (outcome_route_stage E id (fst r) st2) as H3.
  destruct (route_stage E id (fst r) st2) as [[u'|e] st3]; simpl in H3;
    [|simpl; unfold same_outcome in *; congruence].
  simpl. unfold same_outcome, outcome_counters in *. simpl.
  congruence.
Qed.

Lemma handle_new_outcome (E : env) (pre : prelude) (id : json) (st : state) :
  let run := handle_new E pre id st in
  match fst run with
  | Ok _ =>
      outcome_counters (snd run)
      = (emails_skipped (st_metrics st), S (emails_processed (st_metrics st)),
         emails_errored (st_metrics st))
  | Raise _ => outcome_counters (snd run) = outcome_counters st
  end.
Proof.
  unfold handle_new, bind.
  pose proof (outcome_classify_stage E pre st) as H1.
  destruct (classify_stage E pre st) as [[c|e] st1]; simpl in H1; [|exact H1].
  pose proof (after_classification_outcome E pre id (fst (fst c)) (snd (fst c))
                (snd c) st1) as H2.
  cbv zeta in *.
  destruct (fst (after_classification _ _ _ _ _ _ st1));
    unfold same_outcome, outcome_counters in *; congruence.
Qed.

Section PipelineProperties.

Variable _html_to_text : string -> string.

Lemma outcome_before_dedup (E : env) (msg : dict) (id : json) :
  respects same_outcome (before_dedup _html_to_text E msg id).
Proof. unfold before_dedup. frame. Qed.

Lemma store_before_dedup (E : env) (msg : dict) (id : json) :
  respects same_store (before_dedup _html_to_text E msg id).
Proof.
  assert (He : forall ev, respects same_store (emit ev)) by (intros ev st; reflexivity).
  assert (Hu : forall f, respects same_store (update_metrics f))
    by (intros f st; reflexivity).
  unfold before_dedup, email_exists, db_call. frame.
Qed.

(** What the lookup of step 2 answers, and the state it is made in. *)
Lemma before_dedup_found (E : env) (msg : dict) (id : json) (st st1 : state)
    (pre : prelude) (found : bool) :
  before_dedup _html_to_text E msg id st = (Ok (pre, found), st1) ->
  found = existsb (has_id id) (st_store st)
  /\ extract_metadata _html_to_text msg = Ok pre
  /\ db_raises E OpExists = false
  /\ st1 = mkState
             (if String.prefix "uniqueBody" (p_data_source pre)
              then incr_clean_text_extracted (st_metrics st)
              else st_metrics st)
             (st_store st) (st_log st ++ [EvEmailExists id]).
Proof.
  unfold before_dedup, email_exists, db_call, bind, lift, emit, ret,
    update_metrics.
  destruct (extract_metadata _html_to_text msg) as [pre'|e]; [|discriminate].
  destruct (String.prefix "uniqueBody" (p_data_source pre')) eqn:Hp; simpl;
    destruct (db_raises E OpExists); simpl; try discriminate;
    intros H; injection H as <- <- <-; rewrite Hp; auto.
Qed.

Lemma before_dedup_reached (E : env) (msg : dict) (id : json) (st : state)
    (pre : prelude) :
  extract_metadata _html_to_text msg = Ok pre ->
  db_raises E OpExists = false ->
  exists st1,
    before_dedup _html_to_text E msg id st
    = (Ok (pre, existsb (has_id id) (st_store st)), st1).
Proof.
  intros Hm Hd.
  unfold before_dedup, email_exists, db_call, bind, lift, emit, ret,
    update_metrics.
  rewrite Hm.
  destruct (String.prefix "uniqueBody" (p_data_source pre)); simpl;
    rewrite Hd; simpl; eauto.
Qed.

Lemma events_before_dedup (E : env) (msg : dict) (id : json) :
  respects (adds_events (fun ev => is_dedup_lookup ev = true))
           (before_dedup _html_to_text E msg id).
Proof.
  assert (He : respects (adds_events (fun ev => is_dedup_lookup ev = true))
                 (emit (EvEmailExists id))).
  { intros st. exists [EvEmailExists id]. split; [reflexivity|].
    constructor; [reflexivity|constructor]. }
  assert (Hu : forall f, respects (adds_events (fun ev => is_dedup_lookup ev = true))
                           (update_metrics f)).
  { intros f st. exists []. split; [simpl; symmetry; apply app_nil_r|constructor]. }
  unfold before_dedup, email_exists, db_call. frame.
  intros st. apply adds_events_refl.
Qed.

Lemma process_try_outcome (E : env) (msg : dict) (id : json) (st : state) :
  let run := process_try _html_to_text E msg id st in
  match fst run with
  | Raise _ => outcome_counters (snd run) = outcome_counters st
  | Ok _ =>
      if existsb (has_id id) (st_store st)
      then outcome_counters (snd run)
           = (S (emails_skipped (st_metrics st)),
              emails_processed (st_metrics st), emails_errored (st_metrics st))
      else outcome_counters (snd run)
           = (emails_skipped (st_metrics st),
              S (emails_processed (st_metrics st)),
              emails_errored (st_metrics st))
  end.
Proof.
  unfold process_try, bind.
  pose proof (outcome_before_dedup E msg id st) as H1.
  destruct (before_dedup _html_to_text E msg id st) as [[[pre found]|e] st1] eqn:Hb;
    simpl in H1; [|exact H1].
  apply before_dedup_found in Hb as (Hf & _). rewrite <- Hf.
  destruct found; simpl.
  - unfold same_outcome, outcome_counters in *. simpl. congruence.
  - pose proof (handle_new_outcome E pre id st1) as H2. cbv zeta in H2.
    destruct (fst (handle_new E pre id st1));
      unfold same_outcome, outcome_counters in *; congruence.
Qed.

(** One message, one counter. *)
Lemma process_single_outcome (E : env) (msg : dict) (st : state) :
  let id := dict_get msg "id" (JStr "unknown_id") in
  let st' := _process_single_email _html_to_text E msg st in
  match fst (process_try _html_to_text E msg id st) with
  | Raise _ =>
      outcome_counters st'
      = (emails_skipped (st_metrics st), emails_processed (st_metrics st),
         S (emails_errored (st_metrics st)))
  | Ok _ =>
      if existsb (has_id id) (st_store st)
      then outcome_counters st'
           = (S (emails_skipped (st_metrics st)),
              emails_processed (st_metrics st), emails_errored (st_metrics st))
      else outcome_counters st'
           = (emails_skipped (st_metrics st),
              S (emails_processed (st_metrics st)),
              emails_errored (st_metrics st))
  end.
Proof.
  cbv zeta. unfold _process_single_email.
  pose proof (process_try_outcome E msg (dict_get msg "id" (JStr "unknown_id")) st)
    as H. cbv zeta in H.
  destruct (process_try _ E msg _ st) as [[u|e] st1]; simpl in *.
  - exact H.
  - unfold outcome_counters in *. simpl. injection H as H1 H2 H3. congruence.
Qed.

Lemma process_single_total (E : env) (msg : dict) (st : state) :
  outcome_total (_process_single_email _html_to_text E msg st)
  = S (outcome_total st).
Proof.
  pose proof (process_single_outcome E msg st) as H. cbv zeta in H.
  unfold outcome_total, outcome_counters in *.
  destruct (fst (process_try _ E msg _ st));
    [destruct (existsb _ (st_store st))|]; injection H as -> -> ->; lia.
Qed.

(** C10: every message handed to [_process_single_email] moves exactly
    one of [emails_skipped], [emails_processed] and [emails_errored], by
    one: [emails_errored] when an exception reaches the handler of the
    method, else [emails_skipped] when the store already holds a record
    with the message id, else [emails_processed]; hence after a run the
    three counters have grown, together, by the number of messages the
    loop handed over. *)
Theorem one_outcome_counter_per_message :
  (forall (E : env) (msg : dict) (st : state),
     let id := dict_get msg "id" (JStr "unknown_id") in
     let st' := _process_single_email _html_to_text E msg st in
     let sk := emails_skipped (st_metrics st) in
     let pr := emails_processed (st_metrics st) in
     let er := emails_errored (st_metrics st) in
     (outcome_counters st' = (S sk, pr, er)
      \/ outcome_counters st' = (sk, S pr, er)
      \/ outcome_counters st' = (sk, pr, S er))
     /\ (outcome_counters st' = (sk, pr, S er)
         <-> exists e, fst (process_try _html_to_text E msg id st) = Raise e)
     /\ (outcome_counters st' = (S sk, pr, er)
         <-> (exists u, fst (process_try _html_to_text E msg id st) = Ok u)
             /\ existsb (has_id id) (st_store st) = true))
  /\ (forall (batch : list (env * dict)) (st : state),
        outcome_total (process_messages _html_to_text batch st)
        = (outcome_total st + List.length batch)%nat).
Proof.
  split.
  - intros E msg st id st' sk pr er.
    pose proof (process_single_outcome E msg st) as H. cbv zeta in H.
    fold id st' sk pr er in H.
    destruct (fst (process_try _html_to_text E msg id st)) as [u|e].
    + destruct (existsb (has_id id) (st_store st)); rewrite H.
      * split; [left; reflexivity|]. split; split.
        -- intros Heq. injection Heq. lia.
        -- intros [e He]. discriminate.
        -- intros _. split; eauto.
        -- reflexivity.
      * split; [right; left; reflexivity|]. split; split.
        -- intros Heq. injection Heq. lia.
        -- intros [e He]. discriminate.
        -- intros Heq. injection Heq. lia.
        -- intros [_ Hf]. discriminate.
    + rewrite H. split; [right; right; reflexivity|]. split; split.
      * eauto.
      * reflexivity.
      * intros Heq. injection Heq. lia.
      * intros [[u Hu] _]. discriminate.
  - intros batch. induction batch as [|[E msg] rest IH]; intros st; simpl.
    + lia.
    + rewrite IH, process_single_total. lia.
Qed.

(** A message whose id already has a persisted record is never
    classified, stored, moved or marked again: processing it leaves the
    store as it was, and the only call it can make is the lookup itself.
    When the lookup is reached, the message is skipped. *)
Lemma skip_of_persisted_message (E : env) (msg : dict) (st : state) :
  let id := dict_get msg "id" (JStr "unknown_id") in
  let st' := _process_single_email _html_to_text E msg st in
  existsb (has_id id) (st_store st) = true ->
  st_store st' = st_store st
  /\ records_with_id id (st_store st') = records_with_id id (st_store st)
  /\ (exists evs, st_log st' = st_log st ++ evs
                  /\ Forall (fun ev => is_dedup_lookup ev = true) evs)
  /\ (forall pre,
        extract_metadata _html_to_text msg = Ok pre ->
        db_raises E OpExists = false ->
        emails_skipped (st_metrics st') = S (emails_skipped (st_metrics st))
        /\ emails_processed (st_metrics st') = emails_processed (st_metrics st)
        /\ emails_classified (st_metrics st') = emails_classified (st_metrics st)
        /\ emails_errored (st_metrics st') = emails_errored (st_metrics st)
        /\ emails_moved (st_metrics st') = emails_moved (st_metrics st)
        /\ st_log st' = st_log st ++ [EvEmailExists id]).
Proof.
  intros id st' Hex. subst st'. unfold _process_single_email, process_try, bind.
  fold id.
  pose proof (store_before_dedup E msg id st) as Hs.
  pose proof (events_before_dedup E msg id st) as He.
  destruct (before_dedup _html_to_text E msg id st) as [[[pre found]|e] st1] eqn:Hb;
    simpl in Hs, He.
  - apply before_dedup_found in Hb as (Hf & Hm & Hd & Hst).
    rewrite Hex in Hf. subst found. simpl.
    unfold same_store in Hs. rewrite Hs.
    split; [reflexivity|]. split; [reflexivity|]. split; [exact He|].
    intros pre' _ _. rewrite Hst. simpl.
    destruct (String.prefix "uniqueBody" (p_data_source pre)); simpl; auto 10.
  - simpl. unfold same_store in Hs. rewrite Hs.
    split; [reflexivity|]. split; [reflexivity|]. split; [exact He|].
    intros pre Hm Hd.
    destruct (before_dedup_reached E msg id st pre Hm Hd) as [st2 H2]. congruence.
Qed.

End PipelineProperties.

(** *** Events and records of the stages *)

Lemma events_emit (ok : event -> Prop) (ev : event) :
  ok ev -> respects (adds_events ok) (emit ev).
Proof.
  intros H st. exists [ev]. split; [reflexivity|]. constructor; [exact H|constructor].
Qed.

Lemma events_update_metrics (ok : event -> Prop) (f : metrics -> metrics) :
  respects (adds_events ok) (update_metrics f).
Proof.
  intros st. exists []. split; [simpl; symmetry; apply app_nil_r|constructor].
Qed.

Lemma events_db_call (ok : event -> Prop) (E : env) (op : db_op) (ev : event) :
  ok ev -> respects (adds_events ok) (db_call E op ev).
Proof.
  intros H. unfold db_call. pose proof (events_emit ok ev H). frame.
Qed.

Lemma events_insert_email (ok : event -> Prop) (E : env) (doc : email_data) :
  ok (EvInsertEmail doc) -> respects (adds_events ok) (insert_email E doc).
Proof.
  intros H. unfold insert_email.
  pose proof (events_db_call ok E OpInsert (EvInsertEmail doc) H). frame.
  intros st. exists []. split; [simpl; symmetry; apply app_nil_r|constructor].
Qed.

Lemma events_update_message_id (ok : event -> Prop) (E : env) (old_id new_id : json) :
  ok (EvUpdateMessageId old_id new_id) ->
  respects (adds_events ok) (update_message_id E old_id new_id).
Proof.
  intros H. unfold update_message_id.
  pose proof (events_db_call ok E OpUpdateId (EvUpdateMessageId old_id new_id) H).
  frame.
  intros st. exists []. split; [simpl; symmetry; apply app_nil_r|constructor].
Qed.

Lemma events_persist_stage (ok : event -> Prop) (E : env) (pre : prelude)
    (id : json) (label : string) (confidence : json) (cr : dict)
    (entities reply : json) :
  ok (EvSetBatchId (batch_id E)) ->
  (forall doc, ed_classification doc = label -> ed_confidence doc = confidence ->
               ed_save_as_draft doc = save_as_draft E label ->
               ok (EvInsertEmail doc)) ->
  respects (adds_events ok)
           (persist_stage E pre id label confidence cr entities reply).
Proof.
  intros Hb Hi. unfold persist_stage, set_batch_id.
  pose proof (events_db_call ok E OpSetBatchId _ Hb).
  frame. apply events_insert_email. apply Hi; reflexivity.
Qed.

Lemma events_route_stage (ok : event -> Prop) (E : env) (id : json)
    (label : string) :
  ok (EvMove id (dict_get (folder_mapping E) label JNull)) ->
  (forall new_id, ok (EvUpdateMessageId id new_id)) ->
  (forall id', ok (EvMarkReadStatus id' (negb (needs_manual_review label)))) ->
  respects (adds_events ok) (route_stage E id label).
Proof.
  intros Hm Hu Hr. unfold route_stage.
  pose proof (events_emit ok _ Hm).
  pose proof (events_update_metrics ok incr_moved).
  assert (forall new_id, respects (adds_events ok) (update_message_id E id new_id))
    by (intros; apply events_update_message_id; auto).
  assert (forall id', respects (adds_events ok)
            (emit (EvMarkReadStatus id' (negb (needs_manual_review label)))))
    by (intros; apply events_emit; auto).
  frame.
Qed.

Lemma keeps_records_refl (ok : email_data -> Prop) (st : state) :
  keeps_records ok st st.
Proof. intros H. exact H. Qed.

Lemma keeps_records_trans (ok : email_data -> Prop) (a b c : state) :
  keeps_records ok a b -> keeps_records ok b c -> keeps_records ok a c.
Proof. unfold keeps_records. auto. Qed.

#[local] Hint Resolve keeps_records_refl keeps_records_trans : frame.

Lemma records_emit (ok : email_data -> Prop) (ev : event) :
  respects (keeps_records ok) (emit ev).
Proof. intros st H. exact H. Qed.

Lemma records_update_metrics (ok : email_data -> Prop) (f : metrics -> metrics) :
  respects (keeps_records ok) (update_metrics f).
Proof. intros st H. exact H. Qed.

#[local] Hint Resolve records_emit records_update_metrics events_update_metrics
  : frame.

Lemma records_db_call (ok : email_data -> Prop) (E : env) (op : db_op) (ev : event) :
  respects (keeps_records ok) (db_call E op ev).
Proof. unfold db_call. frame. Qed.

#[local] Hint Resolve records_db_call : frame.

Lemma records_insert_email (ok : email_data -> Prop) (E : env) (doc : email_data) :
  ok doc -> respects (keeps_records ok) (insert_email E doc).
Proof.
  intros H. unfold insert_email. frame.
  intros st Hs. simpl. apply Forall_app. split; [exact Hs|].
  constructor; [exact H|constructor].
Qed.

Lemma records_update_message_id (ok : email_data -> Prop) (E : env)
    (old_id new_id : json) :
  (forall doc, ok doc -> ok (with_message_id new_id doc)) ->
  respects (keeps_records ok) (update_message_id E old_id new_id).
Proof.
  intros H. unfold update_message_id. frame.
  intros st Hs. simpl. apply Forall_map.
  eapply Forall_impl; [|exact Hs]. intros doc Hd.
  destruct (has_id old_id doc); auto.
Qed.

Lemma records_email_exists (ok : email_data -> Prop) (E : env) (id : json) :
  respects (keeps_records ok) (email_exists E id).
Proof. unfold email_exists. frame. intros st H. exact H. Qed.

#[local] Hint Resolve records_email_exists : frame.

(** *** The draft flag *)

Lemma draft_flag_events_after (E : env) (pre : prelude) (id : json)
    (label : string) (confidence : json) (cr : dict) :
  respects (adds_events (draft_event_ok E))
           (after_classification E pre id label confidence cr).
Proof.
  unfold after_classification.
  assert (forall l, respects (adds_events (draft_event_ok E)) (reply_stage E l)).
  { intros l. unfold reply_stage.
    pose proof (events_emit (draft_event_ok E) (EvGenerateReply l) I). frame. }
  assert (forall l r, respects (adds_events (draft_event_ok E))
            (persist_stage E pre id l confidence cr
               (dict_get cr "entities" (JObj [])) r)).
  { intros l r. apply events_persist_stage; [exact I|].
    intros doc Hl _ Hd. unfold draft_event_ok, draft_flag_ok. congruence. }
  assert (forall l, respects (adds_events (draft_event_ok E)) (route_stage E id l)).
  { intros l. apply events_route_stage; intros; exact I. }
  frame.
Qed.

Lemma records_after_classification (ok : email_data -> Prop) (E : env)
    (pre : prelude) (id : json) (label : string) (confidence : json) (cr : dict) :
  (forall doc new_id, ok doc -> ok (with_message_id new_id doc)) ->
  (forall doc, ed_save_as_draft doc = save_as_draft E (ed_classification doc) ->
               ed_confidence doc = confidence -> ok doc) ->
  respects (keeps_records ok)
           (after_classification E pre id label confidence cr).
Proof.
  intros Hw Hi.
  assert (Hu : forall old new, respects (keeps_records ok)
                 (update_message_id E old new)).
  { intros. apply records_update_message_id. intros doc Hd. apply Hw. exact Hd. }
  unfold after_classification, reply_stage, persist_stage, route_stage,
    set_batch_id.
  frame; apply records_insert_email; apply Hi; reflexivity.
Qed.

Lemma classify_stage_events (ok : event -> Prop) (E : env) (pre : prelude) :
  ok (EvClassify (p_subject pre) (p_clean_body pre) (p_had_threads pre)) ->
  respects (adds_events ok) (classify_stage E pre).
Proof.
  intros H. unfold classify_stage. pose proof (events_emit ok _ H). frame.
Qed.

Lemma classify_stage_records (ok : email_data -> Prop) (E : env) (pre : prelude) :
  respects (keeps_records ok) (classify_stage E pre).
Proof. unfold classify_stage. frame. Qed.

Lemma draft_flag_ok_forced (E : env) (doc : email_data) :
  draft_flag_ok E doc -> draft_forced E doc.
Proof.
  unfold draft_flag_ok, draft_forced, save_as_draft. intros ->. split.
  - intros [H|H]; rewrite H; [reflexivity|].
    destruct (MAIL_SEND_ENABLED E); reflexivity.
  - intros [H|H]; rewrite H;
      destruct (negb (MAIL_SEND_ENABLED E) || FORCE_DRAFTS E); reflexivity.
Qed.

Lemma adds_events_impl (ok ok' : event -> Prop) (a b : state) :
  (forall ev, ok ev -> ok' ev) -> adds_events ok a b -> adds_events ok' a b.
Proof.
  intros H (evs & Hl & Hf). exists evs. split; [exact Hl|].
  eapply Forall_impl; eauto.
Qed.

Section DraftFlag.

Variable _html_to_text : string -> string.

Lemma events_before_dedup_any (ok : event -> Prop) (E : env) (msg : dict)
    (id : json) :
  ok (EvEmailExists id) ->
  respects (adds_events ok) (before_dedup _html_to_text E msg id).
Proof.
  intros H. pose proof (events_db_call ok E OpExists _ H) as Hd.
  unfold before_dedup, email_exists. frame.
  intros st. apply adds_events_refl.
Qed.

Lemma records_before_dedup (ok : email_data -> Prop) (E : env) (msg : dict)
    (id : json) :
  respects (keeps_records ok) (before_dedup _html_to_text E msg id).
Proof. unfold before_dedup. frame. Qed.

Lemma draft_flag_events_try (E : env) (msg : dict) (id : json) :
  respects (adds_events (draft_event_ok E)) (process_try _html_to_text E msg id).
Proof.
  unfold process_try, handle_new.
  pose proof (events_before_dedup_any (draft_event_ok E) E msg id I).
  pose proof (fun pre => classify_stage_events (draft_event_ok E) E pre I).
  pose proof (draft_flag_events_after E).
  frame.
Qed.

Lemma draft_forced_records_try (E : env) (msg : dict) (id : json) :
  respects (keeps_records (draft_forced E)) (process_try _html_to_text E msg id).
Proof.
  unfold process_try, handle_new.
  pose proof (records_before_dedup (draft_forced E) E msg id).
  pose proof (classify_stage_records (draft_forced E) E).
  assert (forall pre l c cr, respects (keeps_records (draft_forced E))
            (after_classification E pre id l c cr)).
  { intros. apply records_after_classification.
    - intros doc new_id Hd. exact Hd.
    - intros doc Hd _. apply draft_flag_ok_forced. exact Hd. }
  frame.
Qed.

(** The trace and the store of [_process_single_email] are those its
    [try] block leaves. *)
Lemma process_single_log_store (E : env) (msg : dict) (st : state) :
  let run := process_try _html_to_text E msg (dict_get msg "id" (JStr "unknown_id")) st in
  st_log (_process_single_email _html_to_text E msg st) = st_log (snd run)
  /\ st_store (_process_single_email _html_to_text E msg st) = st_store (snd run).
Proof.
  cbv zeta. unfold _process_single_email.
  destruct (process_try _ E msg _ st) as [[u|e] st1]; simpl; auto.
Qed.

(** Every document the processing of a message inserts carries a draft
    flag that obeys the rule, and so does every record of the store
    afterwards when the records before did. *)
Lemma draft_forced_of_inserts (E : env) (msg : dict) (st : state) :
  let st' := _process_single_email _html_to_text E msg st in
  adds_events (draft_forced_event E) st st'
  /\ (Forall (draft_forced E) (st_store st) ->
      Forall (draft_forced E) (st_store st')).
Proof.
  cbv zeta.
  destruct (process_single_log_store E msg st) as [Hl Hs]. cbv zeta in Hl, Hs.
  set (id := dict_get msg "id" (JStr "unknown_id")) in *.
  split.
  - pose proof (draft_flag_events_try E msg id st) as (evs & He & Hf).
    exists evs. split; [congruence|].
    eapply Forall_impl; [|exact Hf].
    intros [ | | | |doc| | | ]; simpl; auto using draft_flag_ok_forced.
  - intros H. rewrite Hs.
    exact (draft_forced_records_try E msg id st H).
Qed.

End DraftFlag.

(** *** Label coercion and the confidence *)


Lemma classify_email_answer (answer : json) :
  classify_email true
    (HttpJson (JObj [("status", JStr "success"); ("results", JArr [answer])]))
  = Ok answer.
Proof. reflexivity. Qed.














Section LabelCoercion.

Variable _html_to_text : string -> string.


End LabelCoercion.

(** ** Concrete runs *)

(** C1 as stated fails on [msg_null_content_type]: both variants are
    present with non-empty content, U = 6 and F = 38 > 1.2 * U, yet
    [had_threads] is false. *)
Lemma had_threads_false_on_internal_failure :
  spec_had_threads msg_null_content_type = true
  /\ _extract_clean_email_content (fun s => s) msg_null_content_type
     = (JStr "Thanks", "error_fallback", false).
Proof. split; reflexivity. Qed.

Lemma had_threads_iff_witness :
  (forall u,
     nonempty_content (dict_get msg_with_thread "uniqueBody" (JObj [])) = Some u ->
     str_len (str_strip u) < 2 ^ 50)
  /\ (snd (_extract_clean_email_content (fun s => s) msg_with_thread) = true <->
      (exists r, extract_try (fun s => s) msg_with_thread = Ok r)
      /\ spec_had_threads msg_with_thread = true).
Proof.
  assert (H : forall u,
     nonempty_content (dict_get msg_with_thread "uniqueBody" (JObj [])) = Some u ->
     str_len (str_strip u) < 2 ^ 50).
  { intros u Hu. vm_compute in Hu. injection Hu as <-. vm_compute. reflexivity. }
  split; [exact H|].
  exact (had_threads_iff (fun s => s) msg_with_thread H).
Defined.


Lemma three_pages_served :
  serves three_pages (JStr "page1")
    [[JNum 1; JNum 2]; [JNum 3; JNum 4]; [JNum 5; JNum 6]] EndOfLinks.
Proof.
  eapply serves_page; [reflexivity|reflexivity|].
  eapply serves_page; [reflexivity|reflexivity|].
  eapply serves_page; [reflexivity|reflexivity|].
  apply serves_done. reflexivity.
Defined.

(** The walk of the specification: [max_items = 5] over 2 + 2 + 2 items
    yields the first five. *)
Lemma walk_yields_up_to_max_items_witness :
  serves three_pages (JStr "page1")
    [[JNum 1; JNum 2]; [JNum 3; JNum 4]; [JNum 5; JNum 6]] EndOfLinks
  /\ (0 < 5)%nat /\ (3 < 4)%nat
  /\ (get_all_pages 4 three_pages (Ok (JStr "token")) 125 (JStr "page1") (Some 5%nat)
      = Some (Ok [JNum 1; JNum 2; JNum 3; JNum 4; JNum 5])
      /\ List.length [JNum 1; JNum 2; JNum 3; JNum 4; JNum 5] = Nat.min 5 6
      /\ exists reqs,
           walk_pages 4 three_pages (JStr "page1") 0 5
           = Some ([JNum 1; JNum 2; JNum 3; JNum 4; JNum 5], reqs)
           /\ (List.length reqs <= 3)%nat).
Proof.
  split; [exact three_pages_served|].
  split; [lia|]. split; [lia|].
  exact (walk_yields_up_to_max_items three_pages (JStr "page1") (JStr "token")
           [[JNum 1; JNum 2]; [JNum 3; JNum 4]; [JNum 5; JNum 6]] 125 5 4
           three_pages_served ltac:(lia) ltac:(simpl; lia)).
Defined.

(** With a fourth page behind, the same walk stops in the middle of the
    third page and never asks for the fourth. *)
Example walk_stops_before_the_fourth_page :
  walk_pages 10 four_pages (JStr "page1") 0 5
  = Some ([JNum 1; JNum 2; JNum 3; JNum 4; JNum 5],
          [JStr "page1"; JStr "page2"; JStr "page3"]).
Proof. reflexivity. Qed.

Lemma second_page_fails_served :
  serves second_page_fails (JStr "page1") [[JNum 1; JNum 2]] FetchFailed.
Proof.
  eapply serves_page; [reflexivity|reflexivity|].
  apply serves_fail; reflexivity.
Defined.

Lemma failed_fetch_ends_the_sequence_witness :
  serves second_page_fails (JStr "page1") [[JNum 1; JNum 2]] FetchFailed
  /\ (1 < 3)%nat
  /\ get_all_pages 3 second_page_fails (Ok (JStr "token")) 125 (JStr "page1") None
     = Some (Ok [JNum 1; JNum 2]).
Proof.
  split; [exact second_page_fails_served|]. split; [lia|].
  exact (failed_fetch_ends_the_sequence second_page_fails (JStr "page1")
           (JStr "token") [[JNum 1; JNum 2]] 125 3 None
           second_page_fails_served ltac:(simpl; lia)).
Defined.

(** *** The reply step *)

Lemma generate_reply_returns (label : string) (health : bool) (post : http_outcome) :
  exists reply, generate_reply label health post = Ok reply.
Proof.
  unfold generate_reply. destruct (generate_reply_try label health post); eauto.
Qed.

(** The label that leaves step 4 is the label that entered it, whatever
    the reply service does: [generate_reply] turns each of its failures
    into an empty reply, so the [except] clause of step 4, the only place
    that resets the label, is never entered. *)
Lemma reply_stage_keeps_label (E : env) (label : string) (st : state) :
  (exists reply, fst (reply_stage E label st) = Ok (label, reply))
  /\ (str_in label RESPONSE_LABELS = true ->
      reply_health E = false \/ (exists e, reply_post E = HttpRaises e)
      \/ reply_post E = HttpBadJson ->
      fst (reply_stage E label st) = Ok (label, JStr "")).
Proof.
  unfold reply_stage, bind, generate_reply, generate_reply_try.
  destruct (str_in label RESPONSE_LABELS) eqn:Hl; simpl.
  - split.
    + destruct (reply_health E); simpl; [|eauto].
      destruct (reply_post E) as [e| |v]; simpl; eauto.
      destruct (py_get v "reply" (JStr "")) as [r|e]; simpl; eauto.
      destruct (py_len r); simpl; eauto.
    + intros _ [H|[[e H]|H]]; rewrite H; simpl; auto.
      * destruct (reply_health E); reflexivity.
      * destruct (reply_health E); reflexivity.
  - split; [eauto|discriminate].
Qed.

(** C5, the failing path: a message classified [invoice_request_no_info]
    whose reply cannot be generated because the reply service is down is
    stored under [invoice_request_no_info], not under [uncategorised],
    with an empty reply; it completes its life cycle and is marked
    read. *)
Theorem reply_failure_keeps_the_label (_html_to_text : string -> string) :
  let st' := _process_single_email _html_to_text env_reply_down msg_invoice
               fresh_state in
  map (fun doc => (ed_classification doc, ed_response doc)) (st_store st')
  = [("invoice_request_no_info", JStr "")]
  /\ st_metrics st' = mkMetrics 1 1 0 0 0 0
  /\ st_log st'
     = [ EvEmailExists (JStr "AAMk2");
         EvClassify (JStr "Invoice copy") (JStr "Please send the invoice") false;
         EvGenerateReply "invoice_request_no_info";
         EvSetBatchId (JStr "batch-1") ]
       ++ map EvInsertEmail (st_store st')
       ++ [ EvMarkReadStatus (JStr "AAMk2") true ].
Proof. repeat split. Qed.

(** Two runs over the same message leave one record. *)
Example second_run_is_a_skip :
  let st2 := _process_single_email (fun s => s) env_reply_down msg_invoice
               state_after_first_run in
  records_with_id (JStr "AAMk2") (st_store st2) = 1%nat
  /\ st_metrics st2 = mkMetrics 1 1 1 0 0 0.
Proof. split; reflexivity. Qed.

Example unknown_label_is_stored_as_uncategorised :
  map (fun doc => (ed_classification doc, ed_confidence doc))
      (st_store (_process_single_email (fun s => s)
                   (with_classifier_answer env_reply_down
                      (JObj result_with_unknown_label))
                   msg_invoice fresh_state))
  = [("uncategorised", JNum (7 # 10))].
Proof. reflexivity. Qed.

(** ** Further properties *)

(** Three time-outs in a row with every draw of [random.random()] at
    one half: three calls, sleeps of 1.5750000000000002 and
    3.1500000000000004 seconds, the third error raised. *)
Lemma request_errors_exhaust_retries_witness :
  let half := S754_finite false 4503599627370496 (-53) in
  let first := fmul float_1_5 (fadd (float_of_int 1) (fmul float_0_1 half)) in
  let second := fmul (fmul float_1_5 (float_of_int 2))
                  (fadd (float_of_int 1) (fmul float_0_1 half)) in
  (forall i : nat, client_error_no_retry ((fun _ => None) i) = false)
  /\ time_sleep first = Ok tt
  /\ time_sleep second = Ok tt
  /\ first = S754_finite false 7093169413108532 (-52)
  /\ second = S754_finite false 7093169413108532 (-51)
  /\ with_retries (fun i : nat => @Raise unit (RequestError None))
       (fun _ => half) time_sleep
     = mkRun (Raise (RequestError None)) 3 [first; second].
Proof.
  assert (H : forall i : nat,
            client_error_no_retry ((fun _ : nat => @None Z) i) = false)
    by (intros i; reflexivity).
  cbv zeta. split; [exact H|]. split; [reflexivity|]. split; [reflexivity|].
  split; [reflexivity|]. split; [reflexivity|].
  exact (request_errors_exhaust_retries unit (fun _ => None)
           (fun _ => S754_finite false 4503599627370496 (-53)) time_sleep
           H eq_refl eq_refl).
Defined.

(** A request error that carries status 404. *)
Lemma client_error_is_not_retried_witness :
  client_error_no_retry (Some 404) = true
  /\ with_retries
       (fun attempt => match attempt with
                       | O => Raise (RequestError (Some 404))
                       | S _ => Ok tt
                       end) (fun _ => S754_zero false) time_sleep
     = mkRun (Raise (RequestError (Some 404))) 1 [].
Proof.
  assert (H : client_error_no_retry (Some 404) = true) by reflexivity.
  split; [exact H|].
  exact (client_error_is_not_retried unit (Some 404) (fun _ => Ok tt)
           (fun _ => S754_zero false) time_sleep H).
Defined.

(** The comparison of the thread check, [len(full) > len(unique) * 1.2]
    evaluated in binary64, is the exact test [10 * F > 12 * U] whenever
    the unique text has between 1 and [2^50 - 1] characters. *)
Theorem thread_threshold_is_exact (F U : Z) :
  0 < U < 2 ^ 50 ->
  len_gt_times_1_2 F U = true <-> 12 * U < 10 * F.
Proof.
  intros H. rewrite (len_gt_times_1_2_exact F U H). apply Z.ltb_lt.
Qed.

(** At the edge: 6 characters are not more than 1.2 times 5. *)
Lemma thread_threshold_is_exact_witness :
  0 < 5 < 2 ^ 50
  /\ (len_gt_times_1_2 6 5 = true <-> 12 * 5 < 10 * 6).
Proof.
  assert (H : 0 < 5 < 2 ^ 50) by (split; reflexivity).
  split; [exact H|].
  exact (thread_threshold_is_exact 6 5 H).
Defined.

Example threshold_at_the_edge :
  len_gt_times_1_2 6 5 = false /\ len_gt_times_1_2 7 5 = true.
Proof. split; vm_compute; reflexivity. Qed.

(** [classify_email] never raises: every failure of the service is
    turned into the fallback classification. *)
Theorem classify_email_returns (health : bool) (post : http_outcome) :
  exists classification, classify_email health post = Ok classification.
Proof.
  unfold classify_email. destruct health; simpl; [|eauto].
  destruct (classify_try post); eauto.
Qed.
(** ** The backoff executor in general *)

(** The loop, entered for attempt [attempt] with iterations to spare:
    where it stops, what it returns and what it has slept. *)
Lemma retry_loop_spec (A : Type) (func : nat -> result A)
    (jitter : nat -> spec_float) (sleep : spec_float -> result unit)
    (max_retries : nat) (initial : spec_float) (remaining : nat) :
  forall (attempt : nat) (last : option exn) (sleeps : list spec_float),
    (attempt + S remaining = max_retries)%nat ->
    let r := retry_loop func jitter sleep max_retries (S remaining) attempt
               (backoff_at initial attempt) last sleeps in
    let duration := duration_at initial jitter in
    (attempt < run_calls r <= max_retries)%nat
    /\ (forall i, (attempt <= i < pred (run_calls r))%nat ->
          retryable (func i) = true /\ sleep (duration i) = Ok tt)
    /\ ((run_result r = func (pred (run_calls r))
         /\ run_sleeps r
            = sleeps ++ map duration (seq attempt (pred (run_calls r) - attempt))
         /\ ((run_calls r < max_retries)%nat ->
             retryable (func (pred (run_calls r))) = false))
        \/ (exists e,
              retryable (func (pred (run_calls r))) = true
              /\ (run_calls r < max_retries)%nat
              /\ sleep (duration (pred (run_calls r))) = Raise e
              /\ run_result r = Raise e
              /\ run_sleeps r
                 = sleeps ++ map duration (seq attempt (run_calls r - attempt)))).
Proof.
  induction remaining as [|remaining IH]; intros attempt last sleeps Hn;
    cbv zeta; rewrite retry_loop_step.
  - replace (attempt =? max_retries - 1)%nat with true
      by (symmetry; apply Nat.eqb_eq; lia).
    rewrite andb_false_r. cbn [run_calls run_result run_sleeps pred].
    split; [lia|]. split; [intros i Hi; lia|]. left.
    rewrite Nat.sub_diag, app_nil_r. repeat split; auto; lia.
  - replace (attempt =? max_retries - 1)%nat with false
      by (symmetry; apply Nat.eqb_neq; lia).
    rewrite andb_true_r.
    destruct (retryable (func attempt)) eqn:Hre.
    + change (sleep_time_of (backoff_at initial attempt) (jitter attempt))
        with (duration_at initial jitter attempt).
      destruct (sleep (duration_at initial jitter attempt)) as [u|e] eqn:Hsl.
      * change (fmul (backoff_at initial attempt) (float_of_int 2))
          with (backoff_at initial (S attempt)).
        specialize (IH (S attempt)
                       (match func attempt with Raise e => Some e | Ok _ => last end)
                       (sleeps ++ [duration_at initial jitter attempt])
                       ltac:(lia)).
        cbv zeta in IH. destruct IH as (Hc1 & Hp & Hend).
        split; [lia|]. split.
        -- intros i Hi. destruct (Nat.eq_dec i attempt) as [->|Hne].
           ++ split; [exact Hre|]. destruct u. exact Hsl.
           ++ apply Hp. lia.
        -- destruct Hend as [(Hr & Hs & Hl)|(e & Hr1 & Hr2 & Hr3 & Hr4 & Hs)].
           ++ left. split; [exact Hr|]. split; [|exact Hl].
              rewrite Hs, <- app_assoc. f_equal.
              match goal with
              | |- context [(pred (run_calls ?r) - attempt)%nat] =>
                  replace (pred (run_calls r) - attempt)%nat
                    with (S (pred (run_calls r) - S attempt)) by lia
              end.
              reflexivity.
           ++ right. exists e. repeat (split; [assumption|]).
              rewrite Hs, <- app_assoc. f_equal.
              match goal with
              | |- context [(run_calls ?r - attempt)%nat] =>
                  replace (run_calls r - attempt)%nat
                    with (S (run_calls r - S attempt)) by lia
              end.
              reflexivity.
      * cbn [run_calls run_result run_sleeps pred].
        split; [lia|]. split; [intros i Hi; lia|]. right. exists e.
        split; [exact Hre|]. split; [lia|]. split; [exact Hsl|].
        split; [reflexivity|].
        replace (S attempt - attempt)%nat with 1%nat by lia. reflexivity.
    + cbn [run_calls run_result run_sleeps pred].
      split; [lia|]. split; [intros i Hi; lia|]. left.
      rewrite Nat.sub_diag, app_nil_r. repeat split; auto; lia.
Qed.

(** [retry_with_backoff], for every wrapped function, number of attempts,
    initial back-off and clock: the wrapped function is called at most
    [max_retries] times.  The wrapper ends either with the outcome of the
    last call made, having slept once between two calls, or, after one
    more sleep was asked for, with the exception [time.sleep] raised (as
    it does on a negative duration).  The sleep that follows attempt [i]
    is asked to last [backoff * (1.0 + 0.1 * random.random())] as
    binary64 computes it, [backoff] being [initial_backoff] doubled [i]
    times.  With [max_retries = 0] the function is not called at all and
    the [RuntimeError] of the last line is raised. *)
Theorem retry_attempts_and_sleeps (A : Type) (func : nat -> result A)
    (jitter : nat -> spec_float) (sleep : spec_float -> result unit)
    (max_retries : nat) (initial_backoff : spec_float) :
  let r := retry_with_backoff func jitter sleep max_retries initial_backoff in
  let duration :=
    fun i => sleep_time_of
               (Nat.iter i (fun backoff => fmul backoff (float_of_int 2))
                         initial_backoff)
               (jitter i) in
  (run_calls r <= max_retries)%nat
  /\ (max_retries = 0%nat ->
      r = mkRun (Raise (RuntimeError
                          "retry_with_backoff gave up but no exception captured"))
                0 [])
  /\ ((0 < max_retries)%nat ->
      (1 <= run_calls r)%nat
      /\ ((run_result r = func (pred (run_calls r))
           /\ run_sleeps r = map duration (seq 0 (pred (run_calls r))))
          \/ (exists e,
                sleep (duration (pred (run_calls r))) = Raise e
                /\ run_result r = Raise e
                /\ run_sleeps r = map duration (seq 0 (run_calls r)))))
  /\ (forall i, (S i < run_calls r)%nat -> sleep (duration i) = Ok tt).
Proof.
  cbv zeta. unfold retry_with_backoff.
  destruct max_retries as [|n].
  - cbn. repeat split; auto; intros; lia.
  - destruct (retry_loop_spec A func jitter sleep (S n) initial_backoff n 0 None []
                ltac:(lia)) as (Hc & Hp & Hend).
    cbv zeta in Hc, Hp, Hend.
    change (backoff_at initial_backoff 0) with initial_backoff in *.
    split; [lia|]. split; [discriminate|]. split.
    + intros _. split; [lia|].
      destruct Hend as [(Hr & Hs & _)|(e & _ & _ & Hsl & Hr & Hs)].
      * left. split; [exact Hr|]. rewrite Hs, Nat.sub_0_r. reflexivity.
      * right. exists e. split; [exact Hsl|]. split; [exact Hr|].
        rewrite Hs, Nat.sub_0_r. reflexivity.
    + intros i Hi. apply Hp. lia.
Qed.

(** The wrapper goes on to a further attempt only after an
    [httpx.RequestError] that carries no client-error status (other than
    429 and 408) and a sleep that returned: every attempt before the last
    one ended in such an error, and when the last call made is not the
    [max_retries]-th, it returned, or raised something the wrapper does
    not retry, or was followed by a sleep that raised. *)
Theorem retry_only_after_request_error (A : Type) (func : nat -> result A)
    (jitter : nat -> spec_float) (sleep : spec_float -> result unit)
    (max_retries : nat) (initial_backoff : spec_float) :
  let r := retry_with_backoff func jitter sleep max_retries initial_backoff in
  (forall i, (S i < run_calls r)%nat ->
     (exists status_code, func i = Raise (RequestError status_code)
                          /\ client_error_no_retry status_code = false)
     /\ sleep (duration_at initial_backoff jitter i) = Ok tt)
  /\ (forall i, run_calls r = S i -> (S i < max_retries)%nat ->
        (exists v, func i = Ok v)
        \/ (exists e, func i = Raise e
                      /\ forall status_code, e = RequestError status_code ->
                           client_error_no_retry status_code = true)
        \/ (exists e, sleep (duration_at initial_backoff jitter i) = Raise e
                      /\ run_result r = Raise e)).
Proof.
  cbv zeta. unfold retry_with_backoff.
  assert (Hret : forall x : result A, retryable x = true ->
            exists status_code, x = Raise (RequestError status_code)
                                /\ client_error_no_retry status_code = false).
  { intros [v|e]; [discriminate|]. destruct e; try discriminate.
    cbn. intros H. apply negb_true_iff in H. eauto. }
  destruct max_retries as [|n].
  - cbn. split; intros; lia.
  - destruct (retry_loop_spec A func jitter sleep (S n) initial_backoff n 0 None []
                ltac:(lia)) as (Hc & Hp & Hend).
    cbv zeta in Hc, Hp, Hend.
    change (backoff_at initial_backoff 0) with initial_backoff in *.
    split.
    + intros i Hi. destruct (Hp i ltac:(lia)) as [H1 H2].
      split; [apply Hret; exact H1|exact H2].
    + intros i Hi Hlt. rewrite Hi in Hend. cbn [pred] in Hend.
      destruct Hend as [(_ & _ & Hl)|(e & _ & _ & Hsl & Hr & _)].
      * specialize (Hl Hlt). destruct (func i) as [v|e]; [eauto|].
        right. left. exists e. split; [reflexivity|].
        intros status_code ->. cbn in Hl. apply negb_false_iff in Hl. exact Hl.
      * right. right. exists e. split; assumption.
Qed.

(** A sleep that raises ends the wrapper: when the first call fails with
    an error the wrapper retries and [time.sleep] raises on the duration
    it is given, as it does on a negative one, the caller gets the
    exception of the sleep after one call, the request error is lost,
    and no further attempt is made. *)
Theorem raising_sleep_ends_the_wrapper (A : Type) (func : nat -> result A)
    (jitter : nat -> spec_float) (sleep : spec_float -> result unit)
    (max_retries : nat) (initial_backoff : spec_float) (e : exn) :
  (1 < max_retries)%nat ->
  retryable (func 0%nat) = true ->
  sleep (sleep_time_of initial_backoff (jitter 0%nat)) = Raise e ->
  retry_with_backoff func jitter sleep max_retries initial_backoff
  = mkRun (Raise e) 1 [sleep_time_of initial_backoff (jitter 0%nat)].
Proof.
  intros Hm Hf Hs. unfold retry_with_backoff.
  destruct max_retries as [|n]; [lia|]. rewrite retry_loop_step, Hf.
  replace (0 =? S n - 1)%nat with false by (symmetry; apply Nat.eqb_neq; lia).
  cbn [andb negb]. rewrite Hs. reflexivity.
Qed.

(** ** The token cache across calls *)

(** A token a call has returned is the token the cache holds after that
    call. *)
Lemma returned_token_is_cached (cfg : identity_config) (acquire : result dict)
    (current_time : spec_float) (force_refresh : bool) (cache : token_cache)
    (tok : json) :
  token_result (get_access_token cfg acquire current_time force_refresh cache)
  = Ok tok ->
  cache_token
    (token_cache_after
       (get_access_token cfg acquire current_time force_refresh cache))
  = tok.
Proof.
  unfold get_access_token.
  destruct (negb force_refresh && truthy (cache_token cache)
            && fgtb (cache_expires_at cache)
                    (fadd current_time (float_of_int 60)));
    [cbn; congruence|].
  destruct (validate_config cfg); [|discriminate].
  destruct acquire as [answer|e]; [|discriminate].
  destruct (dict_mem answer "access_token"); [|discriminate].
  destruct (add_seconds _ _); [|discriminate].
  cbn. congruence.
Qed.

(** Storing and looking up: once a call has returned a non-empty token,
    a later call that does not force a refresh returns that same token,
    asks the identity provider nothing and leaves the cache alone,
    whatever the configuration and the provider have become in the
    meantime, as long as the cached expiry is greater than the later
    time plus 60 as binary64 adds and compares them; as soon as it is
    not, a later call with a complete configuration goes to the
    provider. *)
Theorem returned_token_is_reused (cfg cfg' : identity_config)
    (acquire acquire' : result dict) (current_time later : spec_float)
    (force_refresh : bool) (cache : token_cache) (tok : json) :
  let first := get_access_token cfg acquire current_time force_refresh cache in
  let again := get_access_token cfg' acquire' later false
                 (token_cache_after first) in
  let in_time := fgtb (cache_expires_at (token_cache_after first))
                      (fadd later (float_of_int 60)) in
  token_result first = Ok tok ->
  truthy tok = true ->
  (in_time = true -> again = mkTokenCall (Ok tok) (token_cache_after first) 0)
  /\ (in_time = false -> validate_config cfg' = Ok tt ->
      token_exchanges again = 1%nat).
Proof.
  cbv zeta. intros Hr Ht.
  pose proof (returned_token_is_cached _ _ _ _ _ _ Hr) as Hc.
  split.
  - intros Hl. unfold get_access_token at 1. rewrite Hc, Ht, Hl. reflexivity.
  - intros Hl Hv. unfold get_access_token at 1. rewrite Hc, Ht, Hl, Hv.
    cbn [negb andb].
    destruct acquire' as [answer|e]; [|reflexivity].
    destruct (dict_mem answer "access_token"); [|reflexivity].
    destruct (add_seconds _ _); reflexivity.
Qed.

(** Rounding at the edge: with a token cached until 64 and the clock at
    [4 - 2^-51], the sum [current_time + 60] rounds to 64, the expiry is
    not greater, and the token is fetched anew. *)
Example rounded_sum_reaches_the_expiry :
  get_access_token full_config (Ok token_answer)
    (S754_finite false 9007199254740991 (-51)) false
    (mkCache (JStr "old") (float_of_int 64))
  = mkTokenCall (Ok (JStr "tok-1"))
      (mkCache (JStr "tok-1")
         (fadd (S754_finite false 9007199254740991 (-51)) (float_of_int 3600)))
      1.
Proof. reflexivity. Qed.

(** ** The walker on arbitrary sources *)

Lemma yield_items_length (value : list json) (count max_items : nat) :
  (count < max_items)%nat ->
  (List.length (fst (yield_items value count max_items)) + count <= max_items)%nat
  /\ forall count', snd (yield_items value count max_items) = Some count' ->
       (count' < max_items)%nat
       /\ (List.length (fst (yield_items value count max_items)) + count
           = count')%nat.
Proof.
  intros Hc. rewrite yield_items_spec by (right; exact Hc).
  destruct (Nat.eqb_spec max_items 0); [lia|]. cbn [orb].
  destruct (Nat.ltb_spec (count + List.length value) max_items); cbn [fst snd].
  - split; [lia|]. intros count' [= <-]. lia.
  - split; [|discriminate]. rewrite length_firstn. lia.
Qed.

Lemma walk_pages_length (server : string -> page_fetch) (max_items : nat) :
  forall (fuel : nat) (url : json) (count : nat) (items reqs : list json),
    (count < max_items)%nat ->
    walk_pages fuel server url count max_items = Some (items, reqs) ->
    (List.length items + count <= max_items)%nat.
Proof.
  induction fuel as [|fuel IH]; intros url count items reqs Hc Hw;
    cbn [walk_pages] in Hw; destruct (truthy url);
    try (injection Hw as <- <-; cbn; lia); try discriminate.
  destruct (fetch_page server url) as [value next| | |];
    try (injection Hw as <- <-; cbn; lia).
  pose proof (yield_items_length value count max_items Hc) as [Hy Hn].
  destruct (yield_items value count max_items) as [ys [count'|]];
    cbn [fst snd] in *.
  - destruct (Hn count' eq_refl) as [Hlt Heq].
    destruct (walk_pages fuel server next count' max_items) as [[zs rs]|] eqn:Hrec;
      [|discriminate].
    injection Hw as <- <-. apply IH in Hrec; [|exact Hlt].
    rewrite length_app. lia.
  - injection Hw as <- <-. exact Hy.
Qed.

(** Whatever the remote side serves (failing, malformed, endless), a
    walk that comes to an end under a limit has yielded no more items
    than the limit: [max_items], or [batch_size] when [max_items] is
    [None] or 0. *)
Theorem walk_never_exceeds_the_limit (fuel : nat) (server : string -> page_fetch)
    (token : result json) (batch_size : nat) (url : json)
    (max_items : option nat) (items : list json) :
  get_all_pages fuel server token batch_size url max_items = Some (Ok items) ->
  (0 < effective_max max_items batch_size)%nat ->
  (List.length items <= effective_max max_items batch_size)%nat.
Proof.
  unfold get_all_pages. intros Hg Hpos.
  destruct token as [t|e]; [|discriminate].
  destruct (walk_pages fuel server url 0 (effective_max max_items batch_size))
    as [[its reqs]|] eqn:Hw; [|discriminate].
  injection Hg as <-.
  pose proof (walk_pages_length server _ fuel url 0%nat its reqs Hpos Hw). lia.
Qed.

(** With neither a [max_items] nor a [batch_size] (both [None] or 0) no
    limit applies: over a finite chain of pages the walk yields every
    item of every page it could fetch, in page order. *)
Theorem walk_without_limit_yields_all (server : string -> page_fetch)
    (url token : json) (pages : list (list json)) (e : chain_end)
    (max_items : option nat) (fuel : nat) :
  serves server url pages e ->
  effective_max max_items 0 = 0%nat ->
  (List.length pages < fuel)%nat ->
  get_all_pages fuel server (Ok token) 0 url max_items
  = Some (Ok (List.concat pages)).
Proof.
  intros Hs Hm Hf. unfold get_all_pages. rewrite Hm.
  destruct (walk_pages_spec server url pages e Hs 0%nat 0%nat fuel
              ltac:(left; reflexivity) Hf) as (reqs & Hw & _).
  rewrite Hw. reflexivity.
Qed.

Lemma walk_self_link (server : string -> page_fetch) (u : string)
    (max_items : nat) :
  server u = PageOk [] (JStr u) -> u <> "" ->
  forall fuel count, walk_pages fuel server (JStr u) count max_items = None.
Proof.
  intros Hs Hu. assert (Ht : truthy (JStr u) = true).
  { cbn. destruct (String.eqb_spec u ""); [contradiction|reflexivity]. }
  induction fuel as [|fuel IH]; intros count; cbn [walk_pages]; rewrite Ht;
    [reflexivity|].
  cbn [fetch_page]. rewrite Hs. cbn [yield_items]. rewrite IH. reflexivity.
Qed.

(** The walker has no guard against a next link that leads back: on a
    page without items whose next link is its own address the walk makes
    request after request and never ends, whatever the limit. *)
Theorem walk_of_self_linked_empty_page_never_ends
    (server : string -> page_fetch) (u : string) (token : json)
    (batch_size : nat) (max_items : option nat) :
  server u = PageOk [] (JStr u) -> u <> "" ->
  forall fuel,
    get_all_pages fuel server (Ok token) batch_size (JStr u) max_items = None.
Proof.
  intros Hs Hu fuel. unfold get_all_pages.
  rewrite (walk_self_link server u _ Hs Hu). reflexivity.
Qed.

(** ** One label per message *)

Lemma bind_value (A B : Type) (m : M A) (k : A -> M B) (st st1 : state) (a : A) :
  m st = (Ok a, st1) -> bind m k st = k a st1.
Proof. intros H. unfold bind. rewrite H. reflexivity. Qed.

Lemma bind_raise (A B : Type) (m : M A) (k : A -> M B) (st st1 : state) (e : exn) :
  m st = (Raise e, st1) -> bind m k st = (Raise e, st1).
Proof. intros H. unfold bind. rewrite H. reflexivity. Qed.

Lemma coerce_label_allowed (label : json) :
  str_in (coerce_label label) ALLOWED_LABELS = true.
Proof.
  destruct label; try reflexivity. cbn [coerce_label].
  destruct (str_in s ALLOWED_LABELS) eqn:H; [exact H|reflexivity].
Qed.

(** Step 3 always hands on a label of the closed set. *)
Lemma classify_stage_value (E : env) (pre : prelude) (st : state) :
  exists label confidence cr m,
    classify_stage E pre st
    = (Ok (label, confidence, cr),
       mkState m (st_store st)
         (st_log st ++ [EvClassify (p_subject pre) (p_clean_body pre)
                          (p_had_threads pre)]))
    /\ str_in label ALLOWED_LABELS = true.
Proof.
  unfold classify_stage, bind, emit, update_metrics, ret.
  destruct (answer <- classify_email (classify_health E) (classify_post E) ;;
            as_dict answer) as [cr|e]; cbn.
  - eexists _, _, _, _. split; [reflexivity|]. apply coerce_label_allowed.
  - eexists _, _, _, _. split; [reflexivity|]. reflexivity.
Qed.

(** Step 4 hands on the label it was given. *)
Lemma reply_stage_value (E : env) (label : string) (st : state) :
  exists reply,
    reply_stage E label st
    = (Ok (label, reply),
       mkState (st_metrics st) (st_store st)
         (st_log st ++ if str_in label RESPONSE_LABELS
                       then [EvGenerateReply label] else []))
    /\ (str_in label RESPONSE_LABELS = false -> reply = JStr "").
Proof.
  unfold reply_stage. destruct (str_in label RESPONSE_LABELS) eqn:Hl.
  - destruct (generate_reply_returns label (reply_health E) (reply_post E))
      as [reply Hr].
    unfold bind, emit, ret. cbn. rewrite Hr. cbn.
    exists reply. split; [reflexivity|discriminate].
  - exists (JStr ""). unfold ret. rewrite app_nil_r. destruct st.
    split; reflexivity.
Qed.

Lemma events_persist_stage_doc (ok : event -> Prop) (E : env) (pre : prelude)
    (id : json) (label : string) (confidence : json) (cr : dict)
    (entities reply : json) :
  ok (EvSetBatchId (batch_id E)) ->
  (forall doc, ed_classification doc = label ->
               ed_save_as_draft doc = save_as_draft E label ->
               ed_response doc = reply ->
               ok (EvInsertEmail doc)) ->
  respects (adds_events ok)
           (persist_stage E pre id label confidence cr entities reply).
Proof.
  intros Hb Hi. unfold persist_stage, set_batch_id.
  pose proof (events_db_call ok E OpSetBatchId _ Hb).
  frame. apply events_insert_email. apply Hi; reflexivity.
Qed.

Lemma events_route_stage_mapped (ok : event -> Prop) (E : env) (id : json)
    (label : string) :
  (truthy (dict_get (folder_mapping E) label JNull) = true ->
   ok (EvMove id (dict_get (folder_mapping E) label JNull))) ->
  (forall new_id, ok (EvUpdateMessageId id new_id)) ->
  (forall id', ok (EvMarkReadStatus id' (negb (needs_manual_review label)))) ->
  respects (adds_events ok) (route_stage E id label).
Proof.
  intros Hm Hu Hr. unfold route_stage.
  pose proof (events_update_metrics ok incr_moved).
  assert (forall new_id, respects (adds_events ok) (update_message_id E id new_id))
    by (intros; apply events_update_message_id; auto).
  assert (forall id', respects (adds_events ok)
            (emit (EvMarkReadStatus id' (negb (needs_manual_review label)))))
    by (intros; apply events_emit; auto).
  destruct (truthy (dict_get (folder_mapping E) label JNull)) eqn:Ht.
  - pose proof (events_emit ok _ (Hm eq_refl)). frame.
  - frame.
Qed.

Lemma handled_after_classification (E : env) (pre : prelude) (id : json)
    (label : string) (confidence : json) (cr : dict) :
  respects (adds_events (handled_as E label))
           (after_classification E pre id label confidence cr).
Proof.
  intros st. unfold after_classification.
  destruct (reply_stage_value E label st) as (reply & Hr & Hn).
  rewrite (bind_value _ _ _ _ _ _ _ Hr). cbn [fst snd].
  match type of Hr with _ = (_, ?s) => apply adds_events_trans with (b := s) end.
  - eexists. split; [reflexivity|].
    destruct (str_in label RESPONSE_LABELS) eqn:Hl; repeat constructor. exact Hl.
  - assert (Hp : respects (adds_events (handled_as E label))
              (persist_stage E pre id label confidence cr
                 (dict_get cr "entities" (JObj [])) reply)).
    { apply events_persist_stage_doc; [exact I|].
      intros doc H1 H2 H3. cbn. repeat split; auto.
      intros Hl. rewrite H3. auto. }
    assert (Ho : respects (adds_events (handled_as E label))
              (route_stage E id label)).
    { apply events_route_stage_mapped; cbn; auto. }
    assert (Hk : respects (adds_events (handled_as E label))
              (_ <~ persist_stage E pre id label confidence cr
                      (dict_get cr "entities" (JObj [])) reply ;;
               _ <~ route_stage E id label ;;
               update_metrics incr_processed)) by frame.
    apply Hk.
Qed.

Section OneLabel.

Variable _html_to_text : string -> string.

(** Every message is handled under one label of the closed set
    [ALLOWED_LABELS]: the label of the document that is stored is the
    label a reply was asked for (and only a label of [RESPONSE_LABELS]
    has one asked for), the label whose folder the message is moved to,
    and the label that decides the draft flag and whether the message is
    marked read. *)
Theorem message_is_handled_under_one_label (E : env) (msg : dict) (st : state) :
  let st' := _process_single_email _html_to_text E msg st in
  exists label,
    str_in label ALLOWED_LABELS = true
    /\ adds_events (handled_as E label) st st'.
Proof.
  cbv zeta.
  destruct (process_single_log_store _html_to_text E msg st) as [Hlog _].
  cbv zeta in Hlog. set (id := dict_get msg "id" (JStr "unknown_id")) in *.
  enough (H : exists label, str_in label ALLOWED_LABELS = true
              /\ adds_events (handled_as E label) st
                   (snd (process_try _html_to_text E msg id st))).
  { destruct H as (label & Hl & evs & He & Hf). exists label. split; [exact Hl|].
    exists evs. split; [congruence|exact Hf]. }
  unfold process_try.
  pose proof (fun label => events_before_dedup_any _html_to_text
                (handled_as E label) E msg id I st) as Hb.
  destruct (before_dedup _html_to_text E msg id st) as [[[pre found]|e] st1] eqn:Hd.
  - rewrite (bind_value _ _ _ _ _ _ _ Hd). cbn [fst snd] in *.
    destruct found.
    + exists "uncategorised". split; [reflexivity|].
      eapply adds_events_trans; [apply Hb|].
      apply (events_update_metrics (handled_as E "uncategorised") incr_skipped st1).
    + unfold handle_new.
      destruct (classify_stage_value E pre st1) as (label & c & cr & m & Hc & Hl).
      rewrite (bind_value _ _ _ _ _ _ _ Hc). cbn [fst snd].
      exists label. split; [exact Hl|].
      eapply adds_events_trans; [apply Hb|].
      match type of Hc with _ = (_, ?s) => apply adds_events_trans with (b := s) end;
        [|apply (handled_after_classification E pre id label c cr)].
      eexists. split; [reflexivity|]. repeat constructor.
  - rewrite (bind_raise _ _ _ _ _ _ _ Hd). cbn [snd] in *.
    exists "uncategorised". split; [reflexivity|]. apply Hb.
Qed.

End OneLabel.

(** ** What a run stores *)

Lemma json_eqb_refl : forall a : json, json_eqb a a = true.
Proof.
  fix IH 1. intros [ |b|q|s|l|d]; cbn.
  - reflexivity.
  - apply Bool.eqb_reflx.
  - apply Qeq_bool_refl.
  - apply String.eqb_refl.
  - induction l as [|x l IHl]; [reflexivity|]. rewrite IH, IHl. reflexivity.
  - induction d as [|[k x] d IHd]; [reflexivity|].
    rewrite String.eqb_refl, IH, IHd. reflexivity.
Qed.

Lemma classify_stage_is (E : env) (pre : prelude) (st : state) :
  exists m,
    classify_stage E pre st
    = (Ok (classified_as E),
       mkState m (st_store st)
         (st_log st ++ [EvClassify (p_subject pre) (p_clean_body pre)
                          (p_had_threads pre)]))
    /\ (m = st_metrics st \/ m = incr_classified (st_metrics st)).
Proof.
  unfold classify_stage, classified_as, bind, emit, update_metrics, ret.
  destruct (answer <- classify_email (classify_health E) (classify_post E) ;;
            as_dict answer) as [cr|e]; cbn.
  - eexists. split; [reflexivity|]. right. reflexivity.
  - eexists. split; [reflexivity|]. left. reflexivity.
Qed.

Lemma persist_stage_ok (E : env) (pre : prelude) (id : json) (label : string)
    (confidence : json) (cr : dict) (entities reply : json) (st st1 : state)
    (u : unit) :
  persist_stage E pre id label confidence cr entities reply st = (Ok u, st1) ->
  exists doc,
    st1 = mkState (st_metrics st) (st_store st ++ [doc])
            (st_log st ++ [EvSetBatchId (batch_id E); EvInsertEmail doc])
    /\ ed_message_id doc = id /\ ed_classification doc = label
    /\ ed_confidence doc = confidence
    /\ ed_save_as_draft doc = save_as_draft E label.
Proof.
  unfold persist_stage, set_batch_id, insert_email, db_call, bind, lift, emit, ret.
  cbn. destruct (db_raises E OpSetBatchId); cbn; [discriminate|].
  destruct (py_len (p_headers pre)) as [n|e]; cbn; [|discriminate].
  destruct (out_of_office entities) as [o|e]; cbn; [|discriminate].
  destruct (left_company entities) as [l|e]; cbn; [|discriminate].
  destruct (db_raises E OpInsert); cbn; [discriminate|].
  intros H. injection H as _ <-. eexists. split.
  - rewrite <- app_assoc. reflexivity.
  - repeat split.
Qed.

Lemma persist_stage_returns (E : env) (pre : prelude) (id : json)
    (label : string) (confidence : json) (cr : dict) (entities reply : json)
    (st : state) (n : Z) (o : option (json * json * json))
    (l : option (json * json)) :
  db_raises E OpSetBatchId = false -> db_raises E OpInsert = false ->
  py_len (p_headers pre) = Ok n ->
  out_of_office entities = Ok o -> left_company entities = Ok l ->
  exists st1,
    persist_stage E pre id label confidence cr entities reply st = (Ok tt, st1).
Proof.
  intros H1 H2 H3 H4 H5.
  unfold persist_stage, set_batch_id, insert_email, db_call, bind, lift, emit, ret.
  cbn. rewrite H1. cbn. rewrite H3. cbn. rewrite H4. cbn. rewrite H5. cbn.
  rewrite H2. cbn. eauto.
Qed.

Lemma move_call_returns (E : env) (token : json) :
  fst (move_attempt E 0) = Ok token -> exists m, move_call E = Ok m.
Proof.
  intros H. unfold move_call, with_retries, retry_with_backoff. cbn [retry_loop].
  rewrite H. cbn [move_email_to_folder rbind].
  destruct (snd (move_attempt E 0)) as [e| |v]; cbn; eauto.
  destruct v; cbn; eauto.
Qed.

Lemma mark_call_returns (E : env) (token : json) :
  fst (mark_attempt E 0) = Ok token -> exists b, mark_call E = Ok b.
Proof.
  intros H. unfold mark_call, with_retries, retry_with_backoff. cbn [retry_loop].
  rewrite H. cbn [mark_email_read_status rbind].
  destruct (snd (mark_attempt E 0)); cbn; eauto.
Qed.

(** Steps 8 and 9 leave the records as they are, or re-key those of the
    message when its move is counted. *)
Lemma route_stage_store (E : env) (id : json) (label : string) (st : state) :
  let st1 := snd (route_stage E id label st) in
  (st_store st1 = st_store st /\ st_metrics st1 = st_metrics st)
  \/ (exists new_id,
        st_store st1 = map (rekey id new_id) (st_store st)
        /\ st_metrics st1 = incr_moved (st_metrics st)).
Proof.
  cbv zeta. unfold route_stage.
  destruct (truthy (dict_get (folder_mapping E) label JNull)).
  - unfold bind, emit, lift, ret, update_metrics, update_message_id, db_call.
    cbn. destruct (move_call E) as [[ok new_id]|e]; cbn; [|auto].
    destruct (ok && truthy new_id); cbn.
    + destruct (db_raises E OpUpdateId); cbn; [auto|].
      destruct (mark_call E); cbn; right; exists new_id; split; reflexivity.
    + destruct (mark_call E); cbn; auto.
  - unfold bind, emit, lift, ret. cbn. destruct (mark_call E); cbn; auto.
Qed.

Lemma route_stage_returns (E : env) (id : json) (label : string) (st : state)
    (t1 t2 : json) :
  db_raises E OpUpdateId = false ->
  fst (move_attempt E 0) = Ok t1 -> fst (mark_attempt E 0) = Ok t2 ->
  exists st1, route_stage E id label st = (Ok tt, st1).
Proof.
  intros Hd Hm Hk.
  destruct (move_call_returns E t1 Hm) as [[ok new_id] Hmove].
  destruct (mark_call_returns E t2 Hk) as [b Hmark].
  unfold route_stage, bind, emit, lift, ret, update_metrics, update_message_id,
    db_call.
  destruct (truthy (dict_get (folder_mapping E) label JNull)); cbn.
  - rewrite Hmove. cbn. destruct (ok && truthy new_id); cbn.
    + rewrite Hd. cbn. rewrite Hmark. cbn. eauto.
    + rewrite Hmark. cbn. eauto.
  - rewrite Hmark. cbn. eauto.
Qed.

(** A message that has gone through steps 3 to 9 has had one document
    inserted, under the label and with the confidence of step 3; its
    records are re-keyed exactly when its move is counted. *)
Lemma handle_new_ok (E : env) (pre : prelude) (id : json) (st st1 : state)
    (u : unit) :
  handle_new E pre id st = (Ok u, st1) ->
  exists doc,
    ed_message_id doc = id
    /\ ed_classification doc = fst (fst (classified_as E))
    /\ ed_confidence doc = snd (fst (classified_as E))
    /\ ed_save_as_draft doc = save_as_draft E (ed_classification doc)
    /\ (exists evs, st_log st1 = st_log st ++ evs /\ In (EvInsertEmail doc) evs)
    /\ emails_processed (st_metrics st1) = S (emails_processed (st_metrics st))
    /\ ((st_store st1 = st_store st ++ [doc]
         /\ emails_moved (st_metrics st1) = emails_moved (st_metrics st))
        \/ (exists new_id,
              st_store st1 = map (rekey id new_id) (st_store st ++ [doc])
              /\ emails_moved (st_metrics st1)
                 = S (emails_moved (st_metrics st)))).
Proof.
  unfold handle_new.
  destruct (classify_stage_is E pre st) as (m & Hc & Hm).
  rewrite (bind_value _ _ _ _ _ _ _ Hc).
  destruct (classified_as E) as [[label confidence] cr]. cbn [fst snd].
  unfold after_classification.
  match type of Hc with _ = (_, ?s) => set (s1 := s) in * end.
  destruct (reply_stage_value E label s1) as (reply & Hr & _).
  rewrite (bind_value _ _ _ _ _ _ _ Hr). cbn [fst snd].
  match type of Hr with _ = (_, ?s) => set (s2 := s) in * end.
  unfold bind at 1.
  destruct (persist_stage E pre id label confidence cr
              (dict_get cr "entities" (JObj [])) reply s2) as [[u1|e] s3] eqn:Hp;
    [|discriminate].
  apply persist_stage_ok in Hp as (doc & -> & H1 & H2 & H3 & H4).
  unfold bind at 1.
  match goal with
  | |- context [route_stage E id label ?s] => set (s3 := s) in *
  end.
  pose proof (route_stage_store E id label s3) as Hroute. cbv zeta in Hroute.
  destruct (route_stage E id label s3) as [[u2|e] s4] eqn:Hrt; [|discriminate].
  cbn [snd] in Hroute. unfold update_metrics. intros H. injection H as _ <-.
  exists doc. cbn [st_metrics st_store st_log].
  split; [exact H1|]. split; [exact H2|]. split; [exact H3|].
  split; [rewrite H2; exact H4|]. split.
  - pose proof (events_route_stage (fun _ => True) E id label I
                  (fun _ => I) (fun _ => I) s3) as (evs & Hl & _).
    rewrite Hrt in Hl. cbn [snd] in Hl.
    eexists. split.
    + rewrite Hl. subst s3 s2 s1. cbn [st_log]. rewrite <- !app_assoc. reflexivity.
    + apply in_or_app. right. apply in_or_app. right.
      apply in_or_app. left. right. left. reflexivity.
  - assert (Hpm : emails_processed m = emails_processed (st_metrics st)
                  /\ emails_moved m = emails_moved (st_metrics st))
      by (destruct Hm as [->| ->]; split; reflexivity).
    destruct Hpm as [Hpr Hmv].
    destruct Hroute as [[Hs Hmt]|(new_id & Hs & Hmt)]; rewrite Hs, Hmt;
      subst s3 s2 s1; cbn; rewrite Hpr, Hmv.
    + split; [reflexivity|]. left. split; reflexivity.
    + split; [reflexivity|]. right. exists new_id. split; reflexivity.
Qed.

Lemma handle_new_returns (E : env) (pre : prelude) (id : json) (st : state)
    (n : Z) (o : option (json * json * json)) (l : option (json * json))
    (t1 t2 : json) :
  (forall op, db_raises E op = false) ->
  py_len (p_headers pre) = Ok n ->
  out_of_office (dict_get (snd (classified_as E)) "entities" (JObj [])) = Ok o ->
  left_company (dict_get (snd (classified_as E)) "entities" (JObj [])) = Ok l ->
  fst (move_attempt E 0) = Ok t1 -> fst (mark_attempt E 0) = Ok t2 ->
  exists st1, handle_new E pre id st = (Ok tt, st1).
Proof.
  intros Hd Hn Ho Hl Hm Hk. unfold handle_new.
  destruct (classify_stage_is E pre st) as (m & Hc & _).
  rewrite (bind_value _ _ _ _ _ _ _ Hc).
  destruct (classified_as E) as [[label confidence] cr]. cbn [fst snd] in *.
  unfold after_classification.
  match type of Hc with _ = (_, ?s) => set (s1 := s) in * end.
  destruct (reply_stage_value E label s1) as (reply & Hr & _).
  rewrite (bind_value _ _ _ _ _ _ _ Hr). cbn [fst snd].
  match type of Hr with _ = (_, ?s) => set (s2 := s) in * end.
  destruct (persist_stage_returns E pre id label confidence cr
              (dict_get cr "entities" (JObj [])) reply s2 n o l
              (Hd OpSetBatchId) (Hd OpInsert) Hn Ho Hl) as [s3 Hp].
  rewrite (bind_value _ _ _ _ _ _ _ Hp).
  destruct (route_stage_returns E id label s3 t1 t2 (Hd OpUpdateId) Hm Hk)
    as [s4 Hrt].
  rewrite (bind_value _ _ _ _ _ _ _ Hrt).
  unfold update_metrics. eauto.
Qed.

Lemma rekey_keeps (old_id new_id : json) (doc : email_data) :
  ed_classification (rekey old_id new_id doc) = ed_classification doc
  /\ ed_confidence (rekey old_id new_id doc) = ed_confidence doc
  /\ ed_save_as_draft (rekey old_id new_id doc) = ed_save_as_draft doc.
Proof. unfold rekey. destruct (has_id old_id doc); repeat split. Qed.

Lemma rekey_absent (old_id new_id : json) (store : list email_data) :
  existsb (has_id old_id) store = false ->
  map (rekey old_id new_id) store = store.
Proof.
  induction store as [|doc store IH]; cbn; [reflexivity|].
  intros H. apply orb_false_iff in H as [H1 H2].
  unfold rekey at 1. rewrite H1, (IH H2). reflexivity.
Qed.

Lemma records_with_id_absent (id : json) (store : list email_data) :
  existsb (has_id id) store = false -> records_with_id id store = 0%nat.
Proof.
  unfold records_with_id. induction store as [|doc store IH]; cbn; [reflexivity|].
  intros H. apply orb_false_iff in H as [H1 H2]. rewrite H1. exact (IH H2).
Qed.

Section StoredRecord.

Variable _html_to_text : string -> string.

(** A message that is counted as processed had no record, and has one
    now: the document inserted for it, under the label and with the
    confidence of step 3, re-keyed if the message was moved. *)
Lemma processed_message_is_stored (E : env) (msg : dict) (st : state) :
  let id := dict_get msg "id" (JStr "unknown_id") in
  let st' := _process_single_email _html_to_text E msg st in
  emails_processed (st_metrics st') = S (emails_processed (st_metrics st)) ->
  existsb (has_id id) (st_store st) = false
  /\ exists doc,
       ed_classification doc = fst (fst (classified_as E))
       /\ ed_confidence doc = snd (fst (classified_as E))
       /\ ed_save_as_draft doc = save_as_draft E (ed_classification doc)
       /\ st_store st' = st_store st ++ [doc]
       /\ (emails_moved (st_metrics st') = emails_moved (st_metrics st) ->
           ed_message_id doc = id).
Proof.
  intros id st' Hp.
  pose proof (process_single_outcome _html_to_text E msg st) as Ho.
  cbv zeta in Ho. fold id st' in Ho.
  unfold st', _process_single_email in *. fold id in Hp, Ho |- *.
  unfold process_try in *.
  destruct (before_dedup _html_to_text E msg id st) as [[[pre found]|e] st0] eqn:Hb.
  - rewrite (bind_value _ _ _ _ _ _ _ Hb) in *. cbn [fst snd] in *.
    apply before_dedup_found in Hb as (Hf & Hm & Hd & Hst).
    destruct found.
    + exfalso. unfold update_metrics in *. cbn in Ho, Hp.
      rewrite <- Hf in Ho. unfold outcome_counters in Ho. cbn in Ho.
      injection Ho as _ Ho _. rewrite Hst in Hp. cbn in Hp.
      destruct (String.prefix "uniqueBody" (p_data_source pre)); cbn in Hp; lia.
    + split; [symmetry; exact Hf|].
      destruct (handle_new E pre id st0) as [[u|e] st1] eqn:Hh.
      * apply handle_new_ok in Hh
          as (doc & H1 & H2 & H3 & H4 & _ & _ & Hstore).
        assert (Hs0 : st_store st0 = st_store st) by (rewrite Hst; reflexivity).
        assert (Hm0 : emails_moved (st_metrics st0) = emails_moved (st_metrics st)).
        { rewrite Hst. cbn.
          destruct (String.prefix "uniqueBody" (p_data_source pre)); reflexivity. }
        destruct Hstore as [[Hs Hmv]|(new_id & Hs & Hmv)].
        -- exists doc. repeat (split; [assumption|]). split.
           ++ rewrite Hs, Hs0. reflexivity.
           ++ intros _. exact H1.
        -- exists (rekey id new_id doc).
           destruct (rekey_keeps id new_id doc) as (K1 & K2 & K3).
           rewrite K1, K2, K3. repeat (split; [assumption|]). split.
           ++ rewrite Hs, Hs0, map_app, rekey_absent by (symmetry; exact Hf).
              reflexivity.
           ++ intros Hsame. rewrite Hmv, Hm0 in Hsame. lia.
      * exfalso. cbn in Hp, Ho. unfold outcome_counters in Ho. cbn in Ho.
        injection Ho as _ Ho _. lia.
  - exfalso. rewrite (bind_raise _ _ _ _ _ _ _ Hb) in *.
    cbn in Hp, Ho. unfold outcome_counters in Ho. cbn in Ho.
    injection Ho as _ Ho _. lia.
Qed.

(** When nothing fails, a message without a record is counted as
    processed, and as nothing else. *)
Lemma new_message_is_processed (E : env) (msg : dict) (st : state) :
  let id := dict_get msg "id" (JStr "unknown_id") in
  let st' := _process_single_email _html_to_text E msg st in
  goes_through _html_to_text E msg ->
  existsb (has_id id) (st_store st) = false ->
  emails_processed (st_metrics st') = S (emails_processed (st_metrics st))
  /\ emails_errored (st_metrics st') = emails_errored (st_metrics st)
  /\ emails_skipped (st_metrics st') = emails_skipped (st_metrics st).
Proof.
  intros id st' ((pre & n & Hm & Hn) & Hd & (o & l & Ho & Hl) & [t1 H1] & [t2 H2])
    Hnew.
  pose proof (process_single_outcome _html_to_text E msg st) as Hout.
  cbv zeta in Hout. fold id st' in Hout.
  destruct (before_dedup_reached _html_to_text E msg id st pre Hm (Hd OpExists))
    as [st0 Hb].
  rewrite Hnew in Hb, Hout.
  destruct (handle_new_returns E pre id st0 n o l t1 t2 Hd Hn Ho Hl H1 H2)
    as [st1 Hh].
  assert (Ht : fst (process_try _html_to_text E msg id st) = Ok tt).
  { unfold process_try. rewrite (bind_value _ _ _ _ _ _ _ Hb). cbn [fst snd].
    rewrite Hh. reflexivity. }
  rewrite Ht in Hout. unfold outcome_counters in Hout.
  injection Hout as -> -> ->. auto.
Qed.

End StoredRecord.

(** ** The records of skipped, coerced and drafted messages *)

Lemma existsb_has_id_last (id : json) (store : list email_data)
    (doc : email_data) :
  ed_message_id doc = id -> existsb (has_id id) (store ++ [doc]) = true.
Proof.
  intros H. rewrite existsb_app. cbn. unfold has_id at 2.
  rewrite H, json_eqb_refl. apply orb_true_iff. right. reflexivity.
Qed.

Lemma records_with_id_last (id : json) (store : list email_data)
    (doc : email_data) :
  ed_message_id doc = id ->
  records_with_id id (store ++ [doc]) = S (records_with_id id store).
Proof.
  intros H. unfold records_with_id. rewrite filter_app, length_app. cbn.
  unfold has_id at 2. rewrite H, json_eqb_refl. cbn. lia.
Qed.


Section RecordsOfMessages.

Variable _html_to_text : string -> string.

(** A message that cannot get as far as the lookup is counted as
    errored, record or no record. *)
Lemma unreadable_message_is_errored (E : env) (msg : dict) (st : state) :
  let st' := _process_single_email _html_to_text E msg st in
  (exists e, extract_metadata _html_to_text msg = Raise e)
  \/ db_raises E OpExists = true ->
  emails_errored (st_metrics st') = S (emails_errored (st_metrics st))
  /\ emails_skipped (st_metrics st') = emails_skipped (st_metrics st)
  /\ emails_processed (st_metrics st') = emails_processed (st_metrics st).
Proof.
  intros st' H.
  pose proof (process_single_outcome _html_to_text E msg st) as Ho.
  cbv zeta in Ho. fold st' in Ho.
  assert (Hr : exists e, fst (process_try _html_to_text E msg
                                (dict_get msg "id" (JStr "unknown_id")) st)
                         = Raise e).
  { unfold process_try, before_dedup, email_exists, db_call, bind, lift, emit,
      ret, update_metrics.
    destruct (extract_metadata _html_to_text msg) as [pre|e]; cbn; [|eauto].
    destruct H as [[e He]|Hd]; [discriminate|].
    destruct (String.prefix "uniqueBody" (p_data_source pre)); cbn;
      rewrite Hd; cbn; eauto. }
  destruct Hr as [e Hr]. rewrite Hr in Ho. unfold outcome_counters in Ho.
  injection Ho as -> -> ->. auto.
Qed.

(** C3, as the code has it.  A message whose id already has a persisted
    record is never classified, stored, moved or marked again:
    processing it leaves the store as it was, so the number of records
    with that id stays the same, and the only call it can make is the
    lookup itself.  It is skipped, [emails_skipped] going up by one,
    when the lookup is reached, which takes that the metadata of the
    message can be read and that the store answers; when either fails
    the message is counted as errored instead.  Across two runs: a
    message that had no record, was processed and was not moved has
    exactly one record after the first run, and a second run over it
    leaves the store as it is, with that one record. *)
Theorem persisted_message_is_skipped :
  (forall (E : env) (msg : dict) (st : state),
     let id := dict_get msg "id" (JStr "unknown_id") in
     let st' := _process_single_email _html_to_text E msg st in
     existsb (has_id id) (st_store st) = true ->
     st_store st' = st_store st
     /\ records_with_id id (st_store st') = records_with_id id (st_store st)
     /\ (exists evs, st_log st' = st_log st ++ evs
                     /\ Forall (fun ev => is_dedup_lookup ev = true) evs)
     /\ (forall pre,
           extract_metadata _html_to_text msg = Ok pre ->
           db_raises E OpExists = false ->
           emails_skipped (st_metrics st') = S (emails_skipped (st_metrics st))
           /\ emails_processed (st_metrics st') = emails_processed (st_metrics st)
           /\ emails_classified (st_metrics st')
              = emails_classified (st_metrics st)
           /\ emails_errored (st_metrics st') = emails_errored (st_metrics st)
           /\ emails_moved (st_metrics st') = emails_moved (st_metrics st)
           /\ st_log st' = st_log st ++ [EvEmailExists id])
     /\ ((exists e, extract_metadata _html_to_text msg = Raise e)
         \/ db_raises E OpExists = true ->
         emails_errored (st_metrics st') = S (emails_errored (st_metrics st))
         /\ emails_skipped (st_metrics st') = emails_skipped (st_metrics st)))
  /\ (forall (E1 E2 : env) (msg : dict) (st : state),
        let id := dict_get msg "id" (JStr "unknown_id") in
        let st1 := _process_single_email _html_to_text E1 msg st in
        let st2 := _process_single_email _html_to_text E2 msg st1 in
        existsb (has_id id) (st_store st) = false ->
        emails_processed (st_metrics st1) = S (emails_processed (st_metrics st)) ->
        emails_moved (st_metrics st1) = emails_moved (st_metrics st) ->
        records_with_id id (st_store st1) = 1%nat
        /\ st_store st2 = st_store st1
        /\ records_with_id id (st_store st2) = 1%nat
        /\ (db_raises E2 OpExists = false ->
            emails_skipped (st_metrics st2) = S (emails_skipped (st_metrics st1))
            /\ emails_processed (st_metrics st2)
               = emails_processed (st_metrics st1))).
Proof.
  split.
  - intros E msg st id st' Hex.
    destruct (skip_of_persisted_message _html_to_text E msg st Hex)
      as (H1 & H2 & H3 & H4).
    repeat (split; [assumption|]).
    intros H. destruct (unreadable_message_is_errored E msg st H) as (K1 & K2 & _).
    split; assumption.
  - intros E1 E2 msg st id st1 st2 Hnew Hp Hm.
    destruct (processed_message_is_stored _html_to_text E1 msg st Hp)
      as (_ & doc & _ & _ & _ & Hs & Hid).
    fold st1 id in Hs, Hid. specialize (Hid Hm).
    assert (Hone : records_with_id id (st_store st1) = 1%nat).
    { rewrite Hs, (records_with_id_last id _ doc Hid),
        (records_with_id_absent id _ Hnew). reflexivity. }
    assert (Hex : existsb (has_id id) (st_store st1) = true)
      by (rewrite Hs; apply existsb_has_id_last; exact Hid).
    destruct (skip_of_persisted_message _html_to_text E2 msg st1 Hex)
      as (H1 & H2 & _ & H4).
    fold st2 in H1, H2, H4.
    split; [exact Hone|]. split; [exact H1|]. split; [rewrite H1; exact Hone|].
    intros Hd.
    assert (Hmeta : exists pre, extract_metadata _html_to_text msg = Ok pre).
    { destruct (extract_metadata _html_to_text msg) as [pre|e] eqn:He; [eauto|].
      exfalso.
      destruct (unreadable_message_is_errored E1 msg st
                  (or_introl (ex_intro _ e He))) as (_ & _ & K).
      fold st1 in K. lia. }
    destruct Hmeta as [pre Hpre].
    destruct (H4 pre Hpre Hd) as (K1 & K2 & _). split; assumption.
Qed.

(** C7: whatever the label, the [save_as_draft] flag a message is stored
    with is true when [MAIL_SEND_ENABLED] is false or [FORCE_DRAFTS] is
    true, and it is true when the stored label is [manual_review] or
    [uncategorised].  This holds of every document the processing of a
    message inserts and of every record of the store afterwards when it
    held of the records before; a message that is counted as processed
    has had exactly one record added to the store, with the flag step 5
    computes from its label; and a message without a record is counted
    as processed whenever nothing fails on its way. *)
Theorem draft_is_forced (E : env) (msg : dict) (st : state) :
  let id := dict_get msg "id" (JStr "unknown_id") in
  let st' := _process_single_email _html_to_text E msg st in
  adds_events (draft_forced_event E) st st'
  /\ (Forall (draft_forced E) (st_store st) ->
      Forall (draft_forced E) (st_store st'))
  /\ (emails_processed (st_metrics st') = S (emails_processed (st_metrics st)) ->
      exists doc,
        st_store st' = st_store st ++ [doc]
        /\ ed_save_as_draft doc = save_as_draft E (ed_classification doc)
        /\ (MAIL_SEND_ENABLED E = false \/ FORCE_DRAFTS E = true ->
            ed_save_as_draft doc = true)
        /\ (ed_classification doc = "manual_review"
            \/ ed_classification doc = "uncategorised" ->
            ed_save_as_draft doc = true))
  /\ (goes_through _html_to_text E msg ->
      existsb (has_id id) (st_store st) = false ->
      emails_processed (st_metrics st') = S (emails_processed (st_metrics st))).
Proof.
  intros id st'.
  destruct (draft_forced_of_inserts _html_to_text E msg st) as [H1 H2].
  split; [exact H1|]. split; [exact H2|]. split.
  - intros Hp.
    destruct (processed_message_is_stored _html_to_text E msg st Hp)
      as (_ & doc & _ & _ & Hd & Hs & _).
    exists doc. split; [exact Hs|]. split; [exact Hd|].
    exact (draft_flag_ok_forced E doc Hd).
  - intros Hg Hnew.
    exact (proj1 (new_message_is_processed _html_to_text E msg st Hg Hnew)).
Qed.


End RecordsOfMessages.

(** ** The order of the calls *)

Lemma traces_ret (A : Type) (a : A) : traces (ret a) [[]] [].
Proof. intros st. exists []. split; [symmetry; apply app_nil_r|left; reflexivity]. Qed.

Lemma traces_lift (A : Type) (r : result A) : traces (lift r) [[]] [[]].
Proof.
  intros st. exists []. split; [symmetry; apply app_nil_r|].
  destruct r; left; reflexivity.
Qed.

Lemma traces_emit (ev : event) : traces (emit ev) [[kind_of ev]] [].
Proof. intros st. exists [ev]. split; [reflexivity|left; reflexivity]. Qed.

Lemma traces_update_metrics (f : metrics -> metrics) :
  traces (update_metrics f) [[]] [].
Proof. intros st. exists []. split; [symmetry; apply app_nil_r|left; reflexivity]. Qed.

(** A statement that answers from the state, or changes the store only. *)
Lemma traces_quiet (A : Type) (f : state -> A) (g : state -> list email_data) :
  traces (fun st => (Ok (f st), mkState (st_metrics st) (g st) (st_log st)))
         [[]] [].
Proof. intros st. exists []. split; [symmetry; apply app_nil_r|left; reflexivity]. Qed.

Lemma traces_read (A : Type) (f : state -> A) :
  traces (fun st => (Ok (f st), st)) [[]] [].
Proof. intros st. exists []. split; [symmetry; apply app_nil_r|left; reflexivity]. Qed.

Lemma in_then_calls (x y : list call_kind) (a b : list (list call_kind)) :
  In x a -> In y b -> In (x ++ y) (then_calls a b).
Proof.
  intros Hx Hy. unfold then_calls. apply in_flat_map. exists x. split; [exact Hx|].
  apply in_map. exact Hy.
Qed.

Lemma traces_bind (A B : Type) (m : M A) (k : A -> M B)
    (o1 r1 o2 r2 : list (list call_kind)) :
  traces m o1 r1 -> (forall a, traces (k a) o2 r2) ->
  traces (bind m k) (then_calls o1 o2) (r1 ++ then_calls o1 r2).
Proof.
  intros Hm Hk st. unfold bind. destruct (Hm st) as (e1 & Hl1 & Hi1).
  destruct (m st) as [[a|e] st1]; cbn [fst snd] in *.
  - destruct (Hk a st1) as (e2 & Hl2 & Hi2). exists (e1 ++ e2). split.
    + rewrite Hl2, Hl1. symmetry. apply app_assoc.
    + rewrite map_app.
      destruct (fst (k a st1)); [|apply in_or_app; right];
        apply in_then_calls; assumption.
  - exists e1. split; [exact Hl1|]. apply in_or_app. left. exact Hi1.
Qed.

Lemma traces_weaken (A : Type) (m : M A) (o r o' r' : list (list call_kind)) :
  traces m o r -> incl o o' -> incl r r' -> traces m o' r'.
Proof.
  intros H Ho Hr st. destruct (H st) as (evs & Hl & Hi). exists evs.
  split; [exact Hl|]. destruct (fst (m st)); auto.
Qed.

(** Inclusion of one explicit list of traces in another. *)
Ltac incl_calls :=
  let l := fresh "l" in
  let H := fresh "H" in
  intros l H; cbn in H; cbn;
  repeat (destruct H as [<-|H]; [auto 12|]); try contradiction.

Ltac traces_as o r :=
  match goal with
  | |- traces ?m _ _ => apply traces_weaken with (o := o) (r := r)
  end; [| incl_calls | incl_calls].

Lemma traces_db_call (E : env) (op : db_op) (ev : event) :
  traces (db_call E op ev) [[kind_of ev]] [[kind_of ev]].
Proof.
  unfold db_call.
  eapply traces_weaken;
    [apply traces_bind with (o2 := [[]]) (r2 := [[]]); [apply traces_emit|]
    | incl_calls | incl_calls].
  intros _. destruct (db_raises E op).
  - apply traces_lift.
  - eapply traces_weaken; [apply traces_ret| incl_calls | incl_calls].
Qed.

Lemma traces_email_exists (E : env) (id : json) :
  traces (email_exists E id) [[KEmailExists]] [[KEmailExists]].
Proof.
  unfold email_exists.
  eapply traces_weaken.
  - eapply traces_bind; [apply (traces_db_call E OpExists (EvEmailExists id))|].
    intros _. apply traces_read.
  - incl_calls.
  - incl_calls.
Qed.

Lemma traces_insert_email (E : env) (doc : email_data) :
  traces (insert_email E doc) [[KInsertEmail]] [[KInsertEmail]].
Proof.
  unfold insert_email.
  eapply traces_weaken.
  - eapply traces_bind; [apply (traces_db_call E OpInsert (EvInsertEmail doc))|].
    intros _.
    apply (traces_quiet unit (fun _ => tt) (fun st => st_store st ++ [doc])).
  - incl_calls.
  - incl_calls.
Qed.

Lemma traces_update_message_id (E : env) (old_id new_id : json) :
  traces (update_message_id E old_id new_id)
         [[KUpdateMessageId]] [[KUpdateMessageId]].
Proof.
  unfold update_message_id.
  eapply traces_weaken.
  - eapply traces_bind;
      [apply (traces_db_call E OpUpdateId (EvUpdateMessageId old_id new_id))|].
    intros _.
    apply (traces_quiet unit (fun _ => tt)
             (fun st => map (fun doc => if has_id old_id doc
                                        then with_message_id new_id doc else doc)
                            (st_store st))).
  - incl_calls.
  - incl_calls.
Qed.

Lemma traces_classify_stage (E : env) (pre : prelude) :
  traces (classify_stage E pre) [[KClassify]] [].
Proof.
  intros st.
  destruct (classify_stage_value E pre st) as (label & c & cr & m & Hc & _).
  rewrite Hc. eexists. split; [reflexivity|]. left. reflexivity.
Qed.

Lemma traces_reply_stage (E : env) (label : string) :
  traces (reply_stage E label) [[]; [KGenerateReply]] [].
Proof.
  intros st. destruct (reply_stage_value E label st) as (reply & Hr & _).
  rewrite Hr. eexists. split; [reflexivity|].
  destruct (str_in label RESPONSE_LABELS); cbn; auto.
Qed.

Lemma traces_persist_stage (E : env) (pre : prelude) (id : json)
    (label : string) (confidence : json) (cr : dict) (entities reply : json) :
  traces (persist_stage E pre id label confidence cr entities reply)
         [[KSetBatchId; KInsertEmail]]
         [[KSetBatchId]; [KSetBatchId; KInsertEmail]].
Proof.
  unfold persist_stage, set_batch_id.
  eapply traces_weaken.
  - eapply traces_bind; [apply traces_db_call|]. intros _.
    eapply traces_bind; [apply traces_lift|]. intros hc.
    eapply traces_bind; [apply traces_lift|]. intros ooo.
    eapply traces_bind; [apply traces_lift|]. intros left.
    apply traces_insert_email.
  - incl_calls.
  - incl_calls.
Qed.

Lemma traces_route_stage (E : env) (id : json) (label : string) :
  traces (route_stage E id label)
         [ [KMarkReadStatus]; [KMove; KMarkReadStatus];
           [KMove; KUpdateMessageId; KMarkReadStatus] ]
         [ [KMove]; [KMove; KUpdateMessageId]; [KMarkReadStatus];
           [KMove; KMarkReadStatus];
           [KMove; KUpdateMessageId; KMarkReadStatus] ].
Proof.
  unfold route_stage. cbv zeta.
  eapply traces_weaken.
  - eapply traces_bind
      with (o1 := [[]; [KMove]; [KMove; KUpdateMessageId]])
           (r1 := [[KMove]; [KMove; KUpdateMessageId]]).
    + destruct (truthy (dict_get (folder_mapping E) label JNull)).
      * eapply traces_weaken.
        -- eapply traces_bind; [apply traces_emit|]. intros _.
           eapply traces_bind with (o2 := [[]; [KUpdateMessageId]])
                                   (r2 := [[KUpdateMessageId]]);
             [apply traces_lift|].
           intros moved. destruct (fst moved && truthy (snd moved)).
           ++ eapply traces_weaken.
              ** eapply traces_bind; [apply traces_update_message_id|]. intros _.
                 eapply traces_bind; [apply traces_update_metrics|]. intros _.
                 apply traces_ret.
              ** incl_calls.
              ** incl_calls.
           ++ eapply traces_weaken; [apply traces_ret|incl_calls|incl_calls].
        -- incl_calls.
        -- incl_calls.
      * eapply traces_weaken; [apply traces_ret|incl_calls|incl_calls].
    + intros id'.
      apply traces_weaken with (o := [[KMarkReadStatus]]) (r := [] ++ [[KMarkReadStatus]]).
      * apply (traces_bind _ _ _ _ [[KMarkReadStatus]] [] [[]] [[]]);
          [apply (traces_emit (EvMarkReadStatus id' _))|].
        intros _.
        apply (traces_bind _ _ _ _ [[]] [[]] [[]] []);
          [apply traces_lift|]. intros _. apply traces_ret.
      * apply incl_refl.
      * apply incl_refl.
  - incl_calls.
  - incl_calls.
Qed.

(** Steps 3 to 9: a complete run makes the calls of a life cycle, a run
    that raises a part of them from the start. *)
Lemma traces_handle_new (E : env) (pre : prelude) (id : json) :
  exists raises,
    traces (handle_new E pre id) (map (skipn 1) lifecycles) raises
    /\ forallb (fun l => existsb (is_prefix (KEmailExists :: l)) lifecycles)
               raises = true.
Proof.
  unfold handle_new, after_classification.
  eexists. split.
  - eapply traces_weaken.
    + eapply traces_bind; [apply traces_classify_stage|]. intros c.
      eapply traces_bind; [apply traces_reply_stage|]. intros r.
      eapply traces_bind; [apply traces_persist_stage|]. intros _.
      eapply traces_bind; [apply traces_route_stage|]. intros _.
      apply traces_update_metrics.
    + incl_calls.
    + apply incl_refl.
  - vm_compute. reflexivity.
Qed.

Lemma in_lifecycles (l : list call_kind) :
  In l lifecycles -> exists reply move, l = lifecycle reply move.
Proof.
  intros H. unfold lifecycles in H. cbn [In] in H.
  destruct H as [<-|[<-|[<-|[<-|[<-|[<-|[]]]]]]]; eauto.
Qed.

Section CallOrder.

Variable _html_to_text : string -> string.

Lemma traces_before_dedup (E : env) (msg : dict) (id : json) :
  traces (before_dedup _html_to_text E msg id) [[KEmailExists]]
         [[]; [KEmailExists]].
Proof.
  unfold before_dedup.
  eapply traces_weaken.
  - eapply traces_bind; [apply traces_lift|]. intros pre.
    eapply traces_bind with (o1 := [[]]) (r1 := []).
    + destruct (String.prefix "uniqueBody" (p_data_source pre));
        [apply traces_update_metrics|apply traces_ret].
    + intros _. eapply traces_bind; [apply traces_email_exists|].
      intros found. apply traces_ret.
  - incl_calls.
  - incl_calls.
Qed.

(** The calls [_process_single_email] makes to the store, the model
    service and the mailbox are, in kind and order, a life cycle cut off
    where the processing ended: the lookup, the classification, the
    reply request if there is one, the batch id and the insert, the move
    with the id patch if there is one, the read flag.  In particular the
    record is inserted before the mailbox is touched.  A message counted
    as processed has made the calls of a whole life cycle. *)
Theorem calls_follow_the_life_cycle (E : env) (msg : dict) (st : state) :
  let st' := _process_single_email _html_to_text E msg st in
  exists evs,
    st_log st' = st_log st ++ evs
    /\ (exists reply move,
          is_prefix (map kind_of evs) (lifecycle reply move) = true)
    /\ (emails_processed (st_metrics st') = S (emails_processed (st_metrics st)) ->
        exists reply move, map kind_of evs = lifecycle reply move).
Proof.
  cbv zeta.
  destruct (process_single_log_store _html_to_text E msg st) as [Hlog _].
  pose proof (process_single_outcome _html_to_text E msg st) as Hout.
  cbv zeta in Hlog, Hout. set (id := dict_get msg "id" (JStr "unknown_id")) in *.
  rewrite Hlog. unfold process_try in *.
  destruct (before_dedup _html_to_text E msg id st) as [[[pre found]|e] st1] eqn:Hd.
  - pose proof Hd as Hd'.
    apply before_dedup_found in Hd' as (Hf & _ & _ & Hst).
    rewrite (bind_value _ _ _ _ _ _ _ Hd) in *. cbn [fst snd] in *.
    rewrite <- Hf in Hout. destruct found.
    + exists [EvEmailExists id]. rewrite Hst. split; [reflexivity|]. split.
      * exists false, None. reflexivity.
      * cbn in Hout. unfold outcome_counters in Hout. injection Hout. lia.
    + destruct (traces_handle_new E pre id) as (raises & Ht & Hr).
      destruct (Ht st1) as (evs & Hl & Hi).
      exists (EvEmailExists id :: evs). split.
      { rewrite Hl, Hst. cbn [st_log]. rewrite <- app_assoc. reflexivity. }
      cbn [map kind_of].
      destruct (fst (handle_new E pre id st1)) eqn:Hres.
      * apply in_map_iff in Hi as (L & HL & HinL).
        assert (Hfull : KEmailExists :: map kind_of evs = L).
        { rewrite <- HL. cbn in HinL.
          repeat (destruct HinL as [<-|HinL]; [reflexivity|]). contradiction. }
        destruct (in_lifecycles L HinL) as (reply & move & ->).
        split; [|eauto]. exists reply, move. rewrite Hfull.
        destruct reply, move as [[|]|]; reflexivity.
      * split.
        -- rewrite forallb_forall in Hr. apply Hr in Hi.
           apply existsb_exists in Hi as (L & HinL & Hp).
           destruct (in_lifecycles L HinL) as (reply & move & ->). eauto.
        -- unfold outcome_counters in Hout. injection Hout. lia.
  - rewrite (bind_raise _ _ _ _ _ _ _ Hd) in *. cbn [fst snd] in *.
    destruct (traces_before_dedup E msg id st) as (evs & Hl & Hi).
    rewrite Hd in Hl, Hi. cbn [fst snd] in Hl, Hi.
    exists evs. split; [exact Hl|]. split.
    + exists false, None. destruct Hi as [<-|[<-|[]]]; reflexivity.
    + unfold outcome_counters in Hout. injection Hout. lia.
Qed.

End CallOrder.

(** ** The classification counter *)

Lemma same_classified_refl (st : state) : same_classified st st.
Proof. reflexivity. Qed.

Lemma same_classified_trans (a b c : state) :
  same_classified a b -> same_classified b c -> same_classified a c.
Proof. unfold same_classified. congruence. Qed.

#[local] Hint Resolve same_classified_refl same_classified_trans : frame.

Lemma classified_emit (ev : event) : respects same_classified (emit ev).
Proof. intros st. reflexivity. Qed.

Lemma classified_moved : respects same_classified (update_metrics incr_moved).
Proof. intros st. reflexivity. Qed.

Lemma classified_processed :
  respects same_classified (update_metrics incr_processed).
Proof. intros st. reflexivity. Qed.

#[local] Hint Resolve classified_emit classified_moved classified_processed
  : frame.

Lemma classified_db_call (E : env) (op : db_op) (ev : event) :
  respects same_classified (db_call E op ev).
Proof. unfold db_call. frame. Qed.

#[local] Hint Resolve classified_db_call : frame.

Lemma classified_after_classification (E : env) (pre : prelude) (id : json)
    (label : string) (confidence : json) (cr : dict) :
  respects same_classified (after_classification E pre id label confidence cr).
Proof.
  unfold after_classification, reply_stage, persist_stage, route_stage,
    set_batch_id, insert_email, update_message_id.
  frame.
Qed.

(** What step 3 does to the counter. *)
Lemma classify_stage_counter (E : env) (pre : prelude) (st : state) :
  exists c,
    fst (classify_stage E pre st) = Ok c
    /\ emails_classified (st_metrics (snd (classify_stage E pre st)))
       = (emails_classified (st_metrics st)
          + match classify_email (classify_health E) (classify_post E) with
            | Ok v => if is_dict v then 1 else 0
            | Raise _ => 0
            end)%nat.
Proof.
  unfold classify_stage, bind, emit, update_metrics, ret. cbn.
  destruct (classify_email (classify_health E) (classify_post E)) as [v|e]; cbn.
  - destruct v; cbn; eexists; (split; [reflexivity|lia]).
  - eexists. split; [reflexivity|lia].
Qed.

Section ClassifiedCounter.

Variable _html_to_text : string -> string.

(** [emails_classified] counts a new message exactly when
    [classify_email] returned a dict, and this includes the fallbacks
    [classify_email] makes up itself: a message that went unclassified
    because the service was unavailable or failed is counted as
    classified.  Only an answer that is no dict (the first element of
    [results] when it is not an object) leaves the counter alone. *)
Theorem fallback_answers_count_as_classified (E : env) (msg : dict) (st : state)
    (pre : prelude) :
  let id := dict_get msg "id" (JStr "unknown_id") in
  let st' := _process_single_email _html_to_text E msg st in
  extract_metadata _html_to_text msg = Ok pre ->
  db_raises E OpExists = false ->
  existsb (has_id id) (st_store st) = false ->
  (exists answer,
     classify_email (classify_health E) (classify_post E) = Ok answer
     /\ emails_classified (st_metrics st')
        = (emails_classified (st_metrics st) + if is_dict answer then 1 else 0)%nat)
  /\ (classify_health E = false ->
      emails_classified (st_metrics st') = S (emails_classified (st_metrics st))).
Proof.
  intros id st' Hm Hd Hn.
  assert (Hmain : emails_classified (st_metrics st')
            = (emails_classified (st_metrics st)
               + match classify_email (classify_health E) (classify_post E) with
                 | Ok v => if is_dict v then 1 else 0
                 | Raise _ => 0
                 end)%nat).
  { subst st'. unfold _process_single_email. fold id. unfold process_try.
    destruct (before_dedup_reached _html_to_text E msg id st pre Hm Hd)
      as [st1 Hb].
    rewrite (bind_value _ _ _ _ _ _ _ Hb). cbn [fst snd]. rewrite Hn.
    apply before_dedup_found in Hb as (_ & _ & _ & Hst).
    assert (H1 : emails_classified (st_metrics st1)
                 = emails_classified (st_metrics st)).
    { rewrite Hst. cbn.
      destruct (String.prefix "uniqueBody" (p_data_source pre)); reflexivity. }
    unfold handle_new, bind.
    destruct (classify_stage_counter E pre st1) as (c & Hc & Hk).
    destruct (classify_stage E pre st1) as [r st2]. cbn [fst snd] in Hc, Hk.
    subst r.
    pose proof (classified_after_classification E pre id (fst (fst c))
                  (snd (fst c)) (snd c) st2) as H2.
    unfold same_classified in H2.
    destruct (after_classification E pre id (fst (fst c)) (snd (fst c)) (snd c) st2)
      as [[u|e] st3]; cbn [snd] in H2; cbn; congruence. }
  destruct (classify_email_returns (classify_health E) (classify_post E))
    as [answer Ha].
  split.
  - exists answer. split; [exact Ha|]. rewrite Hmain, Ha. reflexivity.
  - intros Hh. rewrite Hmain. unfold classify_email. rewrite Hh. cbn. lia.
Qed.

End ClassifiedCounter.

(** ** A move that returns no id *)

(** Steps 8 and 9 when the mailbox accepts the move but its answer names
    no id: [move_email_to_folder] puts the word [unknown] in the place of
    the new id, the store is asked to re-key the record of the message
    to [unknown], the move is counted, and the read flag is then set on
    a message called [unknown]. *)
Theorem move_answer_without_id_rekeys_to_unknown (E : env) (message_id : json)
    (label : string) (st : state) (token : json) (answer : dict) :
  let folder_id := dict_get (folder_mapping E) label JNull in
  let st' := snd (route_stage E message_id label st) in
  truthy folder_id = true ->
  move_attempt E 0 = (Ok token, HttpJson (JObj answer)) ->
  dict_mem answer "id" = false ->
  db_raises E OpUpdateId = false ->
  st_log st'
  = st_log st
    ++ [ EvMove message_id folder_id;
         EvUpdateMessageId message_id (JStr "unknown");
         EvMarkReadStatus (JStr "unknown") (negb (needs_manual_review label)) ]
  /\ emails_moved (st_metrics st') = S (emails_moved (st_metrics st)).
Proof.
  intros folder_id st' Hf Hm Ha Hd. subst st' folder_id.
  unfold route_stage. rewrite Hf.
  assert (Hmove : move_call E = Ok (true, JStr "unknown")).
  { unfold move_call, with_retries, retry_with_backoff. cbn [retry_loop].
    rewrite Hm. cbn [fst snd move_email_to_folder rbind].
    rewrite (dict_get_absent _ _ _ Ha). reflexivity. }
  unfold bind, emit, lift, ret, update_metrics, update_message_id, db_call.
  cbn. rewrite Hmove. cbn. rewrite Hd. cbn.
  destruct (mark_call E); cbn; rewrite <- !app_assoc; cbn; auto.
Qed.

(** ** What the classifier client returns *)

(** [classify_email] hands on exactly one thing from the service: the
    first element of [results] of a dict body whose [status] is
    [success], and this only when the service passed its health check
    and the call succeeded.  In every other case it returns, without
    raising, one of its two fallbacks, both labelled [uncategorised]
    with confidence 0. *)
Theorem classify_email_first_result_or_fallback (health : bool)
    (post : http_outcome) :
  (exists body first,
     health = true /\ post = HttpJson (JObj body)
     /\ dict_mem body "status" = true
     /\ json_eqb (dict_get body "status" JNull) (JStr "success") = true
     /\ dict_mem body "results" = true
     /\ py_first (dict_get body "results" JNull) = Ok first
     /\ classify_email health post = Ok first)
  \/ (health = false
      /\ classify_email health post
         = Ok (JObj (fallback_classification "api_unavailable")))
  \/ (health = true
      /\ classify_email health post
         = Ok (JObj (fallback_classification "api_error"))).
Proof.
  unfold classify_email. destruct health; cbn [negb]; [|auto].
  unfold classify_try.
  destruct post as [e| |v]; [auto|auto|].
  destruct v as [| | | | |body]; cbn [rbind]; auto.
  destruct (dict_mem body "status") eqn:H1; cbn [andb]; [|auto].
  destruct (json_eqb (dict_get body "status" JNull) (JStr "success")) eqn:H2;
    cbn [andb]; [|auto].
  destruct (dict_mem body "results") eqn:H3; [|auto].
  destruct (py_first (dict_get body "results" JNull)) as [first|e] eqn:H4; [|auto].
  left. exists body, first. auto 10.
Qed.

(** ** Strings: parts of a text *)

Section Texts.

Local Open Scope string_scope.

Lemma str_contains_tail (f : string) (c : ascii) (r : string) :
  str_contains f (String c r) = false -> str_contains f r = false.
Proof.
  cbn [str_contains]. destruct (String.prefix f (String c r)); [discriminate|auto].
Qed.

Lemma str_contains_head (f : string) (s : string) :
  str_contains f s = false -> String.prefix f s = false.
Proof.
  destruct s; cbn [str_contains]; destruct (String.prefix f _); auto; discriminate.
Qed.

Lemma str_contains_cons (f : string) (c : ascii) (r : string) :
  String.prefix f (String c r) = false -> str_contains f r = false ->
  str_contains f (String c r) = false.
Proof. intros H1 H2. cbn [str_contains]. rewrite H1. exact H2. Qed.

Lemma str_contains_app_l (f a s : string) :
  str_contains f (a ++ s) = false -> str_contains f s = false.
Proof.
  induction a as [|c a IH]; cbn [append]; [auto|].
  intros H. apply IH. eapply str_contains_tail. exact H.
Qed.

Lemma prefix_app (f s b : string) :
  String.prefix f s = true -> String.prefix f (s ++ b) = true.
Proof.
  revert s. induction f as [|x f IH]; intros s H;
    [destruct s, b; reflexivity|].
  destruct s as [|y s]; [discriminate H|].
  cbn [append String.prefix] in *.
  destruct (ascii_dec x y); [apply IH; exact H|discriminate H].
Qed.

Lemma str_contains_app_r (f s b : string) :
  str_contains f (s ++ b) = false -> str_contains f s = false.
Proof.
  induction s as [|c s IH]; cbn [append]; intros H.
  - destruct f as [|x f]; [|reflexivity].
    destruct b; discriminate H.
  - apply str_contains_cons.
    + apply str_contains_head in H.
      destruct (String.prefix f (String c s)) eqn:Hp; [|reflexivity].
      apply (prefix_app _ _ b) in Hp. cbn [append] in Hp. congruence.
    + apply IH. eapply str_contains_tail. exact H.
Qed.

Lemma prefix_head_neq (a b : ascii) (f s : string) :
  a <> b -> String.prefix (String a f) (String b s) = false.
Proof.
  intros H. cbn [String.prefix]. destruct (ascii_dec a b); [contradiction|reflexivity].
Qed.

Lemma prefix_head_eq (a : ascii) (f s : string) :
  String.prefix (String a f) (String a s) = String.prefix f s.
Proof.
  cbn [String.prefix]. destruct (ascii_dec a a); [reflexivity|contradiction].
Qed.

Lemma prefix_nil (f : ascii) (r : string) : String.prefix (String f r) "" = false.
Proof. reflexivity. Qed.

Lemma lstrip_suffix (s : string) : exists p, s = p ++ lstrip s.
Proof.
  induction s as [|c s [p IH]]; cbn [lstrip].
  - exists "". reflexivity.
  - destruct (is_space c).
    + exists (String c p). cbn. congruence.
    + exists "". reflexivity.
Qed.

Lemma list_ascii_of_string_app (a b : string) :
  list_ascii_of_string (a ++ b)
  = (list_ascii_of_string a ++ list_ascii_of_string b)%list.
Proof. induction a as [|c a IH]; cbn; congruence. Qed.

Lemma string_of_list_ascii_app (a b : list ascii) :
  string_of_list_ascii (a ++ b)%list
  = string_of_list_ascii a ++ string_of_list_ascii b.
Proof. induction a as [|c a IH]; cbn; congruence. Qed.

Lemma str_rev_app (a b : string) : str_rev (a ++ b) = str_rev b ++ str_rev a.
Proof.
  unfold str_rev. rewrite list_ascii_of_string_app, rev_app_distr.
  apply string_of_list_ascii_app.
Qed.

Lemma str_rev_involutive (s : string) : str_rev (str_rev s) = s.
Proof.
  unfold str_rev. rewrite list_ascii_of_string_of_list_ascii, rev_involutive.
  apply string_of_list_ascii_of_string.
Qed.

(** [s.strip()] is a part of [s]. *)
Lemma str_strip_part (s : string) : exists a b, s = a ++ str_strip s ++ b.
Proof.
  unfold str_strip.
  destruct (lstrip_suffix s) as [a Ha].
  destruct (lstrip_suffix (str_rev (lstrip s))) as [p Hp].
  exists a, (str_rev p). rewrite Ha at 1. f_equal.
  rewrite <- str_rev_app, <- Hp. symmetry. apply str_rev_involutive.
Qed.

Lemma str_contains_strip (f s : string) :
  str_contains f s = false -> str_contains f (str_strip s) = false.
Proof.
  intros H. destruct (str_strip_part s) as (a & b & Hs). rewrite Hs in H.
  apply str_contains_app_l in H. apply str_contains_app_r in H. exact H.
Qed.

(** *** [strip] twice *)

Lemma lstrip_starts_clean (s : string) : starts_clean (lstrip s).
Proof.
  induction s as [|c s IH]; cbn [lstrip]; [exact I|].
  destruct (is_space c) eqn:H; [exact IH|exact H].
Qed.

Lemma lstrip_clean (s : string) : starts_clean s -> lstrip s = s.
Proof. destruct s as [|c s]; cbn; [auto|]. intros ->. reflexivity. Qed.

Lemma starts_clean_app (a b : string) :
  a <> "" -> starts_clean (a ++ b) -> starts_clean a.
Proof. destruct a; [contradiction|auto]. Qed.

Lemma starts_clean_app_r (a b : string) :
  a <> "" -> starts_clean a -> starts_clean (a ++ b).
Proof. destruct a; [contradiction|auto]. Qed.

Lemma str_rev_empty (s : string) : str_rev s = "" -> s = "".
Proof.
  intros H. rewrite <- (str_rev_involutive s), H. reflexivity.
Qed.

Lemma str_strip_idempotent (s : string) : str_strip (str_strip s) = str_strip s.
Proof.
  unfold str_strip.
  set (u := lstrip s).
  assert (Hu : starts_clean u) by apply lstrip_starts_clean.
  set (w := lstrip (str_rev u)).
  assert (Hw : starts_clean w) by apply lstrip_starts_clean.
  destruct (lstrip_suffix (str_rev u)) as [p Hp]. fold w in Hp.
  assert (Hu' : u = str_rev w ++ str_rev p).
  { rewrite <- str_rev_app, <- Hp. symmetry. apply str_rev_involutive. }
  assert (Ht : starts_clean (str_rev w)).
  { destruct (string_dec (str_rev w) "") as [He|Hne]; [rewrite He; exact I|].
    eapply starts_clean_app; [exact Hne|]. rewrite <- Hu'. exact Hu. }
  rewrite (lstrip_clean _ Ht), str_rev_involutive, (lstrip_clean _ Hw).
  reflexivity.
Qed.

End Texts.

(** ** The markup stripper *)

Section MarkupStripper.

Local Open Scope string_scope.

Lemma sub_from_chars (match_at : string -> option nat) (repl : string)
    (c : ascii) (s : string) :
  forall skip,
    In c (list_ascii_of_string (sub_from match_at repl s skip)) ->
    In c (list_ascii_of_string s) \/ In c (list_ascii_of_string repl).
Proof.
  induction s as [|d s IH]; intros skip; cbn [sub_from]; [auto|].
  destruct skip as [|k].
  - destruct (match_at (String d s)) as [[|n]|].
    + cbn. intros [H|H]; [auto|]. destruct (IH _ H); auto.
    + rewrite list_ascii_of_string_app. intros H.
      apply in_app_or in H as [H|H]; [auto|]. destruct (IH _ H); cbn; auto.
    + cbn. intros [H|H]; [auto|]. destruct (IH _ H); auto.
  - intros H. destruct (IH _ H); cbn; auto.
Qed.

Lemma str_contains_char (c : ascii) (s : string) :
  str_contains (String c "") s = false <-> ~ In c (list_ascii_of_string s).
Proof.
  induction s as [|d s IH]; cbn [str_contains String.prefix list_ascii_of_string In].
  - tauto.
  - destruct (ascii_dec c d) as [->|Hne].
    + destruct s; split; try discriminate; intros H; exfalso; apply H; auto.
    + rewrite IH. split; [intros H [Hd|Hi]; [congruence|auto]|tauto].
Qed.

Lemma strip_chars (c : ascii) (s : string) :
  ~ In c (list_ascii_of_string s) -> ~ In c (list_ascii_of_string (str_strip s)).
Proof.
  rewrite <- !str_contains_char. apply str_contains_strip.
Qed.

(** *** Runs of spaces and tabs *)

Lemma is_blank_tab : is_blank TAB = true.
Proof. reflexivity. Qed.

Lemma blanks_at_cons (c : ascii) (r : string) :
  blanks_at (String c r)
  = if is_blank c then Some (S (blank_run r)) else None.
Proof. unfold blanks_at. cbn. destruct (is_blank c); reflexivity. Qed.

Lemma squeezed_no_tab (s : string) :
  forall skip,
    ~ In TAB (list_ascii_of_string (sub_from blanks_at " " s skip)).
Proof.
  induction s as [|c s IH]; intros skip; cbn [sub_from]; [auto|].
  destruct skip as [|k]; [|apply IH].
  rewrite blanks_at_cons. destruct (is_blank c) eqn:Hb.
  - cbn. intros [H|H]; [discriminate|]. exact (IH _ H).
  - cbn. intros [H|H]; [|exact (IH _ H)]. subst c. discriminate.
Qed.

(** Behind a run of blanks comes a character that is none. *)
Lemma squeezed_after_run (s : string) :
  match sub_from blanks_at " " s (blank_run s) with
  | String c _ => is_blank c = false
  | EmptyString => True
  end.
Proof.
  induction s as [|c s IH]; cbn [blank_run]; [exact I|].
  destruct (is_blank c) eqn:Hb.
  - cbn [sub_from]. exact IH.
  - cbn [sub_from]. rewrite blanks_at_cons, Hb. exact Hb.
Qed.

Lemma squeezed_no_double_space (s : string) :
  forall skip, str_contains "  " (sub_from blanks_at " " s skip) = false.
Proof.
  induction s as [|c s IH]; intros skip; cbn [sub_from]; [reflexivity|].
  destruct skip as [|k]; [|apply IH].
  rewrite blanks_at_cons. destruct (is_blank c) eqn:Hb.
  - cbn [append]. apply str_contains_cons; [|apply IH].
    pose proof (squeezed_after_run s) as Hh.
    rewrite prefix_head_eq.
    destruct (sub_from blanks_at " " s (blank_run s)) as [|d t]; [reflexivity|].
    apply prefix_head_neq. intros <-. discriminate Hh.
  - apply str_contains_cons; [|apply IH].
    apply prefix_head_neq. intros <-. discriminate Hb.
Qed.

(** *** Carriage returns *)

Lemma literal_at_char (x c : ascii) (s : string) :
  literal_at (String x "") (String c s)
  = if ascii_dec x c then Some 1%nat else None.
Proof.
  unfold literal_at. cbn [String.prefix String.length].
  destruct (ascii_dec x c); [destruct s|]; reflexivity.
Qed.

Lemma cr_replaced (s : string) :
  forall skip,
    ~ In CR (list_ascii_of_string
               (sub_from (literal_at (String CR "")) (String LF "") s skip)).
Proof.
  induction s as [|c s IH]; intros skip; cbn [sub_from]; [auto|].
  destruct skip as [|k]; [|apply IH].
  rewrite literal_at_char. destruct (ascii_dec CR c) as [<-|Hne].
  - cbn [append list_ascii_of_string In]. intros [H|H]; [discriminate H|].
    exact (IH _ H).
  - cbn [list_ascii_of_string In]. intros [H|H]; [congruence|exact (IH _ H)].
Qed.

Lemma replace_entities_last (text : string) :
  exists t,
    replace_entities text = re_sub (literal_at (String CR "")) (String LF "") t.
Proof. unfold replace_entities, html_entities. cbn [fold_left fst snd]. eauto. Qed.

(** *** Blank lines *)

Lemma is_space_lf : is_space LF = true.
Proof. reflexivity. Qed.

Lemma blank_lines_at_cons (c : ascii) (r : string) :
  blank_lines_at (String c r)
  = if (c =? LF)%char
    then option_map (fun k => S (S k)) (last_newline_in_run r)
    else None.
Proof. reflexivity. Qed.

Lemma last_newline_cons (c : ascii) (r : string) :
  last_newline_in_run (String c r)
  = if is_space c then
      match last_newline_in_run r with
      | Some k => Some (S k)
      | None => if (c =? LF)%char then Some 0%nat else None
      end
    else None.
Proof. reflexivity. Qed.

Lemma prefix_lf_starts_without (p s : string) :
  starts_without LF s -> String.prefix (String LF p) s = false.
Proof.
  destruct s as [|d s]; [reflexivity|]. cbn [starts_without]. intros H.
  apply prefix_head_neq. congruence.
Qed.

(** Where no line feed lies in the white space ahead, the next
    character put out is no line feed. *)
Lemma squeeze_lines_no_match (r : string) :
  last_newline_in_run r = None ->
  starts_without LF (sub_from blank_lines_at (line_feeds 2) r 0).
Proof.
  destruct r as [|d r]; [intros _; exact I|].
  rewrite last_newline_cons. intros H. cbn [sub_from].
  rewrite blank_lines_at_cons.
  destruct (Ascii.eqb_spec d LF) as [->|Hne].
  - rewrite is_space_lf in H. destruct (last_newline_in_run r); discriminate H.
  - exact Hne.
Qed.

(** Behind a match comes a character that is no line feed. *)
Lemma squeeze_lines_after_match (r : string) :
  forall k, last_newline_in_run r = Some k ->
            starts_without LF (sub_from blank_lines_at (line_feeds 2) r (S k)).
Proof.
  induction r as [|c r IH]; intros k; [discriminate|].
  rewrite last_newline_cons. cbn [sub_from].
  destruct (is_space c); [|discriminate].
  destruct (last_newline_in_run r) as [k'|] eqn:Hl.
  - intros [= <-]. apply IH. reflexivity.
  - destruct (c =? LF)%char; [|discriminate].
    intros [= <-]. apply squeeze_lines_no_match. exact Hl.
Qed.

Lemma squeezed_lines (s : string) :
  forall skip,
    str_contains (line_feeds 3)
                 (sub_from blank_lines_at (line_feeds 2) s skip) = false.
Proof.
  induction s as [|c s IH]; intros skip; cbn [sub_from]; [reflexivity|].
  destruct skip as [|k]; [|apply IH].
  rewrite blank_lines_at_cons.
  destruct (Ascii.eqb_spec c LF) as [->|Hne].
  - destruct (last_newline_in_run s) as [k|] eqn:Hl; cbn [option_map].
    + pose proof (squeeze_lines_after_match s k Hl) as Hh.
      cbn [line_feeds append].
      apply str_contains_cons.
      { rewrite !prefix_head_eq. apply prefix_lf_starts_without. exact Hh. }
      apply str_contains_cons; [|apply IH].
      rewrite prefix_head_eq. apply prefix_lf_starts_without. exact Hh.
    + pose proof (squeeze_lines_no_match s Hl) as Hh.
      apply str_contains_cons; [|apply IH].
      cbn [line_feeds]. rewrite prefix_head_eq.
      apply prefix_lf_starts_without. exact Hh.
  - apply str_contains_cons; [|apply IH].
    cbn [line_feeds]. apply prefix_head_neq. congruence.
Qed.

(** Squeezing the blanks brings no line feeds together. *)
Lemma squeezed_blanks_line_feeds (n : nat) :
  forall s,
    String.prefix (line_feeds n) (sub_from blanks_at " " s 0) = true ->
    String.prefix (line_feeds n) s = true.
Proof.
  induction n as [|n IH]; intros s; [destruct s; reflexivity|].
  cbn [line_feeds]. destruct s as [|c s]; cbn [sub_from]; [auto|].
  rewrite blanks_at_cons. destruct (is_blank c) eqn:Hb.
  - cbn [append]. rewrite prefix_head_neq by discriminate. discriminate.
  - destruct (ascii_dec LF c) as [<-|Hne].
    + rewrite !prefix_head_eq. apply IH.
    + rewrite prefix_head_neq by exact Hne. discriminate.
Qed.

Lemma squeezed_blanks_keep_lines (s : string) :
  forall skip,
    skip = 0%nat \/ skip = blank_run s ->
    str_contains (line_feeds 3) s = false ->
    str_contains (line_feeds 3) (sub_from blanks_at " " s skip) = false.
Proof.
  induction s as [|c s IH]; intros skip Hk Hs; cbn [sub_from]; [reflexivity|].
  pose proof (str_contains_tail _ _ _ Hs) as Ht.
  destruct skip as [|k].
  - rewrite blanks_at_cons. destruct (is_blank c) eqn:Hb.
    + cbn [append]. apply str_contains_cons; [|apply IH; auto].
      cbn [line_feeds]. apply prefix_head_neq. discriminate.
    + apply str_contains_cons; [|apply IH; auto].
      destruct (String.prefix (line_feeds 3)
                  (String c (sub_from blanks_at " " s 0))) eqn:Hp; [|reflexivity].
      exfalso.
      assert (Hq : String.prefix (line_feeds 3) (String c s) = true).
      { apply (squeezed_blanks_line_feeds 3 (String c s)).
        cbn [sub_from]. rewrite blanks_at_cons, Hb. exact Hp. }
      apply str_contains_head in Hs. congruence.
  - apply IH; [|exact Ht]. right.
    destruct Hk as [Hk|Hk]; [discriminate|].
    cbn [blank_run] in Hk. destruct (is_blank c); [|discriminate].
    congruence.
Qed.

Lemma html_to_text_stripped (html_content : string) :
  str_strip (_html_to_text html_content) = _html_to_text html_content.
Proof.
  unfold _html_to_text. destruct (html_content =? "")%string; [reflexivity|].
  apply str_strip_idempotent.
Qed.

(** The text [_html_to_text] returns is tidy white space: nothing to
    strip at either end, no tab, no carriage return, and no two spaces
    in a row. *)
Theorem html_to_text_white_space_is_tidy (html_content : string) :
  let text := _html_to_text html_content in
  str_strip text = text
  /\ str_contains (String TAB "") text = false
  /\ str_contains (String CR "") text = false
  /\ str_contains "  " text = false.
Proof.
  cbv zeta. split; [apply html_to_text_stripped|].
  unfold _html_to_text.
  destruct (html_content =? "")%string; [repeat split; reflexivity|].
  cbv zeta. unfold re_sub.
  split; [|split].
  - apply str_contains_strip. apply str_contains_char. apply squeezed_no_tab.
  - apply str_contains_char. apply strip_chars. intros H.
    apply sub_from_chars in H as [H|[H|[]]]; [|discriminate H].
    apply sub_from_chars in H as [H|[H|[H|[]]]]; try discriminate H.
    destruct (replace_entities_last (sub_from tag_at "" html_content 0))
      as [t Ht].
    rewrite Ht in H. exact (cr_replaced _ _ H).
  - apply str_contains_strip. apply squeezed_no_double_space.
Qed.

(** The text [_html_to_text] returns never has more than two line feeds
    in a row: lines are separated by at most one empty line. *)
Theorem html_to_text_leaves_no_three_line_feeds (html_content : string) :
  str_contains (line_feeds 3) (_html_to_text html_content) = false.
Proof.
  unfold _html_to_text.
  destruct (html_content =? "")%string; [reflexivity|].
  cbv zeta. unfold re_sub.
  apply str_contains_strip. apply squeezed_blanks_keep_lines; [auto|].
  apply (squeezed_lines _ 0%nat).
Qed.

End MarkupStripper.

(** ** The clean text and its source *)

Section CleanText.

Local Open Scope string_scope.

Lemma use_variant_result (f : string -> string) (b : json)
    (text_tag html_tag : string) (cur r : string * string) :
  use_variant f b text_tag html_tag cur = Ok r ->
  r = cur
  \/ (snd r = text_tag /\ str_strip (fst r) = fst r)
  \/ (snd r = html_tag /\ exists c, c <> "" /\ fst r = f c).
Proof.
  unfold use_variant.
  destruct (content_present b) as [p|e]; cbn [rbind]; [|discriminate].
  destruct p; [|intros [= <-]; auto].
  destruct (py_get b "content" (JStr "")) as [c|e]; cbn [rbind]; [|discriminate].
  destruct (py_strip c) as [content|e] eqn:Hs; cbn [rbind]; [|discriminate].
  destruct (py_get b "contentType" (JStr "")) as [t|e]; cbn [rbind];
    [|discriminate].
  destruct (py_lower t) as [content_type|e]; cbn [rbind]; [|discriminate].
  destruct (content_type =? "text").
  - intros [= <-]. right. left. split; [reflexivity|]. cbn [fst].
    destruct c; try discriminate. injection Hs as <-. apply str_strip_idempotent.
  - destruct (content_type =? "html"); cbn [andb]; [|intros [= <-]; auto].
    destruct (String.eqb_spec content ""); cbn [negb]; [intros [= <-]; auto|].
    intros [= <-]. right. right. split; [reflexivity|]. eauto.
Qed.

(** Unless it falls back on the raw preview after an internal failure,
    the extraction returns a text with no white space at either end
    together with the name of the place it was taken from; the text is
    empty only when nothing but the preview was left to try, and a name
    that begins with [uniqueBody], which is what [clean_text_extracted]
    counts, always comes with a text that is not empty. *)
Theorem clean_body_is_trimmed_and_sourced (msg : dict) :
  let clean_body := fst (fst (_extract_clean_email_content _html_to_text msg)) in
  let data_source := snd (fst (_extract_clean_email_content _html_to_text msg)) in
  data_source = "error_fallback"
  \/ (exists body,
        clean_body = JStr body
        /\ str_strip body = body
        /\ In data_source
              [ "uniqueBody_text"; "uniqueBody_html_converted"; "body_text";
                "body_html_converted"; "bodyPreview_fallback" ]
        /\ (body = "" -> data_source = "bodyPreview_fallback")
        /\ (String.prefix "uniqueBody" data_source = true -> body <> "")).
Proof.
  cbv zeta. unfold _extract_clean_email_content.
  destruct (extract_try _html_to_text msg) as [[[body src] h]|e] eqn:Ht;
    [|left; reflexivity].
  right. cbn [fst snd]. exists body. split; [reflexivity|].
  unfold extract_try in Ht.
  destruct (detect_threads _ _) as [ht|e]; cbn [rbind] in Ht; [|discriminate].
  destruct (use_variant _html_to_text (dict_get msg "uniqueBody" (JObj []))
              "uniqueBody_text" "uniqueBody_html_converted" ("", ""))
    as [s1|e] eqn:H1; cbn [rbind] in Ht; [|discriminate].
  pose proof html_to_text_stripped as Hhtml.
  assert (G1 : str_strip (fst s1) = fst s1
               /\ (fst s1 = "" \/ In (snd s1) ["uniqueBody_text";
                                               "uniqueBody_html_converted"])).
  { apply use_variant_result in H1 as [->|[[Hs Hb]|[Hs (c & _ & Hb)]]].
    - cbn. auto.
    - rewrite Hs. cbn. auto.
    - rewrite Hs, Hb. cbn. auto. }
  destruct G1 as [G1a G1b].
  destruct (match (fst s1 =? "") with
            | true => use_variant _html_to_text (dict_get msg "body" (JObj []))
                        "body_text" "body_html_converted" s1
            | false => Ok s1
            end) as [s2|e] eqn:H2; cbn [rbind] in Ht; [|discriminate].
  assert (G2 : str_strip (fst s2) = fst s2
               /\ (fst s2 = ""
                   \/ In (snd s2) ["uniqueBody_text"; "uniqueBody_html_converted";
                                   "body_text"; "body_html_converted"])).
  { destruct (String.eqb_spec (fst s1) "") as [He|Hne].
    - apply use_variant_result in H2 as [->|[[Hs Hb]|[Hs (c & _ & Hb)]]].
      + auto.
      + rewrite Hs. cbn. auto 10.
      + rewrite Hs, Hb. cbn. auto 10.
    - injection H2 as <-. split; [exact G1a|].
      destruct G1b as [|[|[|[]]]]; [contradiction| |]; cbn; auto 10. }
  destruct G2 as [G2a G2b].
  destruct (String.eqb_spec (fst s2) "") as [He|Hne].
  - destruct (py_strip (dict_get msg "bodyPreview" (JStr ""))) as [p|e] eqn:Hp;
      cbn [rbind] in Ht; [|discriminate].
    injection Ht as <- <- <-.
    split; [|split; [cbn; auto 10|split; [reflexivity|discriminate]]].
    destruct (dict_get msg "bodyPreview" (JStr "")); try discriminate.
    injection Hp as <-. apply str_strip_idempotent.
  - cbn [rbind] in Ht. injection Ht as <- <- <-.
    split; [exact G2a|]. destruct G2b as [|G2b]; [contradiction|].
    split; [cbn in *; tauto|]. split; [contradiction|]. intros _. exact Hne.
Qed.

End CleanText.

(** ** Fetching and the run *)

Lemma effective_max_idem (max_items : option nat) (batch_size : nat) :
  effective_max (Some (effective_max max_items batch_size)) batch_size
  = effective_max max_items batch_size.
Proof.
  destruct max_items as [[|n]|]; cbn; destruct batch_size; reflexivity.
Qed.

(** [fetch_unread_emails] never returns more messages than it was asked
    for: [max_emails], or [batch_size] when [max_emails] is [None]
    or 0. *)
Theorem fetch_returns_at_most_the_limit (fuel : nat)
    (server : string -> page_fetch) (token token' : result json)
    (count : count_response) (batch_size : nat) (full_url : json)
    (max_emails : option nat) (emails : list json) :
  fetch_unread_emails fuel server token token' count batch_size full_url max_emails
  = Some (Ok emails) ->
  (0 < effective_max max_emails batch_size)%nat ->
  (List.length emails <= effective_max max_emails batch_size)%nat.
Proof.
  unfold fetch_unread_emails. cbv zeta. intros H Hpos.
  destruct token as [t|e]; [|discriminate].
  destruct (fetch_unread_emails_try count _) as [[items|e]|] eqn:Ht;
    try discriminate; injection H as <-; [|cbn; lia].
  assert (Hg : get_all_pages fuel server token' batch_size full_url
                 (Some (effective_max max_emails batch_size)) = Some (Ok items)).
  { unfold fetch_unread_emails_try in Ht.
    destruct count as [e|code n]; [discriminate|].
    destruct (code =? 200); [destruct n|]; try discriminate; exact Ht. }
  unfold get_all_pages in Hg. rewrite effective_max_idem in Hg.
  destruct token' as [t'|e]; [|discriminate].
  destruct (walk_pages fuel server full_url 0 (effective_max max_emails batch_size))
    as [[its reqs]|] eqn:Hw; [|discriminate].
  injection Hg as <-.
  pose proof (walk_pages_length server _ fuel full_url 0%nat its reqs Hpos Hw). lia.
Qed.

(** A mailbox that cannot be read looks like an empty one: when the
    count request fails or its body is no number, when the second token
    fetch fails, or when the first page cannot be fetched,
    [fetch_unread_emails] returns, and what it returns is the empty
    list; [process_unread_emails] then reports a successful run with
    nothing processed and leaves metrics and records as they were. *)
Theorem unreadable_inbox_is_reported_as_success (collab : nat -> env)
    (stop : nat -> bool) (fuel : nat) (server : string -> page_fetch)
    (token : json) (token' : result json) (count : count_response)
    (batch_size : nat) (full_url : json) (max_emails : option nat)
    (mapping : dict) (st : state) :
  (0 < fuel)%nat ->
  (exists e, count = CountRaises e)
  \/ count = CountAnswer 200 None
  \/ (exists e, token' = Raise e)
  \/ (truthy full_url = true /\ fetch_fails (fetch_page server full_url) = true) ->
  truthy (JObj mapping) = true ->
  fetch_unread_emails fuel server (Ok token) token' count batch_size full_url
    max_emails = Some (Ok [])
  /\ process_unread_emails collab stop (Ok tt) (Ok mapping) (Ok []) st
     = (mkReport true 0 0 0, st).
Proof.
  intros Hfuel Hwhy Hm. split.
  - unfold fetch_unread_emails. cbv zeta.
    destruct Hwhy as [[e ->]|[->|[[e ->]|[Hu Hp]]]].
    + reflexivity.
    + reflexivity.
    + unfold fetch_unread_emails_try, get_all_pages.
      destruct count as [e'|code n]; [reflexivity|].
      destruct (code =? 200); [destruct n|]; reflexivity.
    + assert (Hg : (exists e, get_all_pages fuel server token' batch_size
                                full_url
                                (Some (effective_max max_emails batch_size))
                              = Some (Raise e))
                   \/ get_all_pages fuel server token' batch_size full_url
                        (Some (effective_max max_emails batch_size))
                      = Some (Ok [])).
      { unfold get_all_pages. destruct token' as [t'|e]; [|eauto].
        destruct fuel as [|fuel]; [lia|]. cbn [walk_pages]. rewrite Hu.
        destruct (fetch_page server full_url); try discriminate; auto. }
      unfold fetch_unread_emails_try.
      destruct count as [e'|code n]; [reflexivity|].
      destruct (code =? 200); [destruct n|];
        destruct Hg as [[e Hg]|Hg]; rewrite ?Hg; reflexivity.
  - unfold process_unread_emails. rewrite Hm. reflexivity.
Qed.

(** The loop has no guard around [msg.get("id")]: an item of the fetched
    list that is no object ends the run at once.  The messages before it
    have been processed and stay counted, the messages behind it are
    never looked at, and the run is reported as failed. *)
Theorem item_that_is_no_object_aborts_the_run (collab : nat -> env)
    (stop : nat -> bool) (mapping : dict) (before : list dict) (item : json)
    (behind : list json) (st : state) :
  (forall j, stop j = false) ->
  is_dict item = false ->
  truthy (JObj mapping) = true ->
  let st' := process_messages _html_to_text
               (combine (map (fun j => with_folder_mapping (collab j) mapping)
                             (seq 0 (List.length before))) before) st in
  process_unread_emails collab stop (Ok tt) (Ok mapping)
    (Ok (map JObj before ++ item :: behind)) st
  = (report_of false st', st').
Proof.
  intros Hs Hi Hm. cbv zeta. unfold process_unread_emails. rewrite Hm. cbn [negb].
  assert (Hl : forall i s,
            process_loop collab stop mapping i (map JObj before ++ item :: behind) s
            = (Raise AttributeError,
               process_messages _html_to_text
                 (combine (map (fun j => with_folder_mapping (collab j) mapping)
                               (seq i (List.length before))) before) s)).
  { induction before as [|msg before IH]; intros i s; cbn [map app process_loop];
      rewrite Hs.
    - destruct item; try reflexivity. discriminate Hi.
    - rewrite IH. reflexivity. }
  rewrite Hl.
  destruct (map JObj before ++ item :: behind) eqn:He; [|reflexivity].
  destruct before; discriminate He.
Qed.

(** ** The label folders *)

Lemma map_labels_ok (child_lookup : dict) (S : folder_service)
    (labels : list string) :
  forall folder_map m,
    map_labels child_lookup S labels folder_map = Ok m ->
    m = folder_map
        ++ flat_map (fun label =>
                       match folder_for child_lookup S label with
                       | Ok (Some folder_id) => [(label, folder_id)]
                       | _ => []
                       end) labels.
Proof.
  induction labels as [|label rest IH]; intros folder_map m; cbn [map_labels flat_map].
  - intros [= <-]. symmetry. apply app_nil_r.
  - destruct (folder_for child_lookup S label) as [[folder_id|]|e];
      cbn [rbind]; [| |discriminate]; intros H; apply IH in H; rewrite H.
    + rewrite <- app_assoc. reflexivity.
    + reflexivity.
Qed.

Lemma map_labels_all (child_lookup : dict) (S : folder_service)
    (labels : list string) :
  (forall label, In label labels ->
     exists r, folder_for child_lookup S label = Ok r) ->
  forall folder_map,
    map_labels child_lookup S labels folder_map
    = Ok (folder_map
          ++ flat_map (fun label =>
                         match folder_for child_lookup S label with
                         | Ok (Some folder_id) => [(label, folder_id)]
                         | _ => []
                         end) labels).
Proof.
  induction labels as [|label rest IH]; intros Hall folder_map;
    cbn [map_labels flat_map].
  - rewrite app_nil_r. reflexivity.
  - destruct (Hall label (or_introl eq_refl)) as [r Hr]. rewrite Hr. cbn [rbind].
    rewrite IH by (intros l Hl; apply Hall; right; exact Hl).
    destruct r; [rewrite <- app_assoc|]; reflexivity.
Qed.

Lemma map_labels_raises (child_lookup : dict) (S : folder_service)
    (label : string) (e : exn) (labels : list string) :
  In label labels ->
  folder_for child_lookup S label = Raise e ->
  forall folder_map,
    exists e', map_labels child_lookup S labels folder_map = Raise e'.
Proof.
  intros Hin Hr. induction labels as [|l rest IH]; [contradiction|].
  intros folder_map. cbn [map_labels].
  destruct Hin as [->|Hin].
  - rewrite Hr. cbn. eauto.
  - destruct (folder_for child_lookup S l) as [r|e0]; cbn [rbind]; [|eauto].
    apply IH. exact Hin.
Qed.

Lemma mapped_keys (child_lookup : dict) (S : folder_service)
    (labels : list string) :
  map fst (flat_map (fun label =>
                       match folder_for child_lookup S label with
                       | Ok (Some folder_id) => [(label, folder_id)]
                       | _ => []
                       end) labels)
  = filter (gets_folder child_lookup S) labels.
Proof.
  induction labels as [|label rest IH]; cbn [flat_map filter map]; [reflexivity|].
  unfold gets_folder at 1.
  destruct (folder_for child_lookup S label) as [[folder_id|]|e]; cbn;
    rewrite IH; reflexivity.
Qed.

(** [ensure_classification_folders] raises only what its token fetch
    raises; what it returns maps labels of [ALLOWED_LABELS] and nothing
    else, in the order of that list and each at most once: the labels
    whose round of the loop ended with a folder id, or none at all. *)
Theorem folder_mapping_names_allowed_labels (token : result json)
    (lookup : result dict) (created_parent : result json)
    (child_lookup : result dict) (S : folder_service) :
  match ensure_classification_folders token lookup created_parent child_lookup S
  with
  | Raise e => token = Raise e
  | Ok folder_map =>
      folder_map = []
      \/ exists children,
           child_lookup = Ok children
           /\ map fst folder_map = filter (gets_folder children S) ALLOWED_LABELS
  end.
Proof.
  unfold ensure_classification_folders.
  destruct token as [t|e]; cbn [rbind]; [|reflexivity].
  destruct lookup as [folders|e]; cbn [rbind]; [|auto].
  destruct (if truthy (dict_get folders (normalize "Email Classification") JNull)
            then Ok tt else _ <- created_parent ;; Ok tt) as [u|e];
    cbn [rbind]; [|auto].
  destruct child_lookup as [children|e]; cbn [rbind]; [|auto].
  destruct (map_labels children S ALLOWED_LABELS []) as [m|e] eqn:Hm; [|auto].
  right. exists children. split; [reflexivity|].
  apply map_labels_ok in Hm. rewrite Hm. cbn [app]. apply mapped_keys.
Qed.

(** When the parent folder exists and a folder for every label lies
    under it, the mapping is complete and is made from the listing
    alone: it is the same whatever searching, moving or creating
    folders would have done. *)
Theorem folders_in_place_are_mapped_without_a_request (token : json)
    (folders children : dict) (created_parent : result json)
    (S : folder_service) :
  truthy (dict_get folders (normalize "Email Classification") JNull) = true ->
  (forall label, In label ALLOWED_LABELS ->
     truthy (dict_get children (folder_key label) JNull) = true) ->
  ensure_classification_folders (Ok token) (Ok folders) created_parent
    (Ok children) S
  = Ok (map (fun label => (label, dict_get children (folder_key label) JNull))
            ALLOWED_LABELS).
Proof.
  intros Hp Hall. unfold ensure_classification_folders. cbn [rbind].
  rewrite Hp. cbn [rbind].
  assert (Hf : forall label, In label ALLOWED_LABELS ->
            folder_for children S label
            = Ok (Some (dict_get children (folder_key label) JNull))).
  { intros label Hl. unfold folder_for. cbv zeta. rewrite (Hall label Hl).
    reflexivity. }
  rewrite map_labels_all by (intros l Hl; rewrite (Hf l Hl); eauto).
  cbn [app]. f_equal.
  revert Hf. generalize ALLOWED_LABELS. intros labels.
  induction labels as [|l rest IH]; intros Hf; cbn [flat_map map]; [reflexivity|].
  rewrite (Hf l (or_introl eq_refl)). cbn [app]. f_equal.
  apply IH. intros l' Hl'. apply Hf. right. exact Hl'.
Qed.

(** One label folder that is found elsewhere and cannot be moved under
    the parent costs the whole mapping, the folders already mapped
    included: [ensure_classification_folders] returns the empty dict,
    and [process_unread_emails] gives up before it fetches a single
    message. *)
Theorem folder_that_cannot_be_moved_stops_the_run (collab : nat -> env)
    (stop : nat -> bool) (token : json) (lookup : result dict)
    (created_parent : result json) (children : dict) (S : folder_service)
    (label : string) (ghost : json) (e : exn)
    (fetched : result (list json)) (st : state) :
  In label ALLOWED_LABELS ->
  truthy (dict_get children (folder_key label) JNull) = false ->
  search S (display_name label) = Ok ghost ->
  truthy ghost = true ->
  move_to_parent S (display_name label) = Raise e ->
  ensure_classification_folders (Ok token) lookup created_parent (Ok children) S
  = Ok []
  /\ process_unread_emails collab stop (Ok tt)
       (ensure_classification_folders (Ok token) lookup created_parent
          (Ok children) S) fetched st
     = (mkReport false 0 0 0, st).
Proof.
  intros Hin Hc Hs Hg Hm.
  assert (He : ensure_classification_folders (Ok token) lookup created_parent
                 (Ok children) S = Ok []).
  { unfold ensure_classification_folders. cbn [rbind].
    destruct lookup as [folders|e0]; cbn [rbind]; [|reflexivity].
    destruct (if truthy (dict_get folders (normalize "Email Classification") JNull)
              then Ok tt else _ <- created_parent ;; Ok tt) as [u|e0];
      cbn [rbind]; [|reflexivity].
    assert (Hr : exists e', folder_for children S label = Raise e').
    { unfold folder_for. cbv zeta. rewrite Hc, Hs. cbn [rbind]. rewrite Hg.
      destruct (py_index ghost "id") as [folder_id|e0]; cbn [rbind]; [|eauto].
      rewrite Hm. cbn. eauto. }
    destruct Hr as [e' Hr].
    destruct (map_labels_raises children S label e' ALLOWED_LABELS Hin Hr [])
      as [e'' ->].
    reflexivity. }
  split; [exact He|]. rewrite He. reflexivity.
Qed.

(** A label folder that cannot be created costs that label only: with
    every other folder in place, the mapping holds all the other
    labels. *)
Theorem folder_that_cannot_be_created_is_left_out (token : json)
    (folders children : dict) (created_parent : result json)
    (S : folder_service) (label : string) (e : exn) :
  truthy (dict_get folders (normalize "Email Classification") JNull) = true ->
  (forall l, In l ALLOWED_LABELS -> l <> label ->
     truthy (dict_get children (folder_key l) JNull) = true) ->
  truthy (dict_get children (folder_key label) JNull) = false ->
  search S (display_name label) = Ok JNull ->
  create_folder S (display_name label) = CreateRaises e ->
  ensure_classification_folders (Ok token) (Ok folders) created_parent
    (Ok children) S
  = Ok (map (fun l => (l, dict_get children (folder_key l) JNull))
            (filter (fun l => negb (l =? label)%string) ALLOWED_LABELS)).
Proof.
  intros Hp Hall Hc Hs Hcr. unfold ensure_classification_folders. cbn [rbind].
  rewrite Hp. cbn [rbind].
  assert (Hf : forall l, In l ALLOWED_LABELS ->
            folder_for children S l
            = Ok (if (l =? label)%string then None
                  else Some (dict_get children (folder_key l) JNull))).
  { intros l Hl. unfold folder_for. cbv zeta.
    destruct (String.eqb_spec l label) as [->|Hne].
    - rewrite Hc, Hs. cbn [rbind truthy]. rewrite Hcr. reflexivity.
    - rewrite (Hall l Hl Hne). reflexivity. }
  rewrite map_labels_all by (intros l Hl; rewrite (Hf l Hl); eauto).
  cbn [app]. f_equal.
  revert Hf. generalize ALLOWED_LABELS. intros labels.
  induction labels as [|l rest IH]; intros Hf; cbn [flat_map map filter];
    [reflexivity|].
  rewrite (Hf l (or_introl eq_refl)).
  destruct (l =? label)%string; cbn [negb app map];
    [|f_equal]; apply IH; intros l' Hl'; apply Hf; right; exact Hl'.
Qed.

(** ** A move that fails *)

(** [move_email_to_folder] catches whatever its request raises, so the
    decorator around it has nothing to retry: a move that is refused, or
    answered with a body that is no object, is tried once, without a
    sleep.  The message is then left where it is, keeps its id and is
    not counted as moved, the read flag is still set on it, and the
    routing step ends without an error. *)
Theorem failed_move_is_tried_once_and_passed_over (E : env) (message_id : json)
    (label : string) (st : state) (token token' : json) (post : http_outcome) :
  let folder_id := dict_get (folder_mapping E) label JNull in
  truthy folder_id = true ->
  move_attempt E 0 = (Ok token, post) ->
  (forall answer, post <> HttpJson (JObj answer)) ->
  fst (mark_attempt E 0) = Ok token' ->
  with_retries
    (fun i => move_email_to_folder (fst (move_attempt E i)) (snd (move_attempt E i)))
    (jitter E) (sleep E)
  = mkRun (Ok (false, JNull)) 1 []
  /\ route_stage E message_id label st
     = (Ok tt,
        mkState (st_metrics st) (st_store st)
          (st_log st
           ++ [ EvMove message_id folder_id;
                EvMarkReadStatus message_id (negb (needs_manual_review label)) ])).
Proof.
  intros folder_id Hf Hm Hp Hk. subst folder_id.
  assert (Hbody : move_email_to_folder (fst (move_attempt E 0))
                    (snd (move_attempt E 0)) = Ok (false, JNull)).
  { rewrite Hm. cbn [fst snd move_email_to_folder rbind].
    destruct post as [e| |v]; try reflexivity.
    destruct v; try reflexivity. exfalso. eapply Hp. reflexivity. }
  assert (Hrun : with_retries
                   (fun i => move_email_to_folder (fst (move_attempt E i))
                               (snd (move_attempt E i))) (jitter E)
                   (sleep E)
                 = mkRun (Ok (false, JNull)) 1 []).
  { unfold with_retries, retry_with_backoff. cbn [retry_loop].
    rewrite Hbody. reflexivity. }
  split; [exact Hrun|].
  assert (Hmark : exists b, mark_call E = Ok b).
  { unfold mark_call, with_retries, retry_with_backoff. cbn [retry_loop].
    rewrite Hk. cbn [mark_email_read_status rbind].
    destruct (snd (mark_attempt E 0)); cbn; eauto. }
  destruct Hmark as [b Hmark].
  unfold route_stage. rewrite Hf.
  unfold bind, emit, lift, ret. cbn.
  unfold move_call. rewrite Hrun. cbn. rewrite Hmark. cbn.
  rewrite <- app_assoc. reflexivity.
Qed.

(** The token is fetched outside the [try] of [move_email_to_folder]:
    when it cannot be had, for a reason the decorator does not retry,
    the exception leaves the routing step at once.  The move has been
    attempted once, nothing is re-keyed or counted as moved, and the
    read flag is never set. *)
Theorem move_without_token_skips_the_read_flag (E : env) (message_id : json)
    (label : string) (st : state) (e : exn) (post : http_outcome) :
  let folder_id := dict_get (folder_mapping E) label JNull in
  truthy folder_id = true ->
  move_attempt E 0 = (Raise e, post) ->
  retryable (@Raise (bool * json) e) = false ->
  route_stage E message_id label st
  = (Raise e,
     mkState (st_metrics st) (st_store st)
       (st_log st ++ [EvMove message_id folder_id])).
Proof.
  intros folder_id Hf Hm Hr. subst folder_id.
  assert (Hmove : move_call E = Raise e).
  { unfold move_call, with_retries, retry_with_backoff. cbn [retry_loop].
    rewrite Hm. cbn [fst snd move_email_to_folder rbind].
    destruct e; try reflexivity.
    cbn in Hr. apply negb_false_iff in Hr. rewrite Hr. reflexivity. }
  unfold route_stage. rewrite Hf.
  unfold bind, emit, lift, ret. cbn. rewrite Hmove. reflexivity.
Qed.

(** ** The further properties at concrete inputs *)

(** A token fetched at one time is served from the cache a hundred
    seconds later, even by a client that has lost its configuration. *)
Lemma returned_token_is_reused_witness :
  let first := get_access_token full_config (Ok token_answer)
                 (float_of_int 1700000000) false empty_cache in
  let again := get_access_token config_without_secret
                 (Raise (PyException "offline")) (float_of_int 1700000100) false
                 (token_cache_after first) in
  let in_time := fgtb (cache_expires_at (token_cache_after first))
                      (fadd (float_of_int 1700000100) (float_of_int 60)) in
  token_result first = Ok (JStr "tok-1")
  /\ truthy (JStr "tok-1") = true
  /\ in_time = true
  /\ (in_time = true ->
      again = mkTokenCall (Ok (JStr "tok-1")) (token_cache_after first) 0)
  /\ (in_time = false -> validate_config config_without_secret = Ok tt ->
      token_exchanges again = 1%nat).
Proof.
  cbv zeta. split; [reflexivity|]. split; [reflexivity|]. split; [reflexivity|].
  exact (returned_token_is_reused full_config config_without_secret
           (Ok token_answer) (Raise (PyException "offline"))
           (float_of_int 1700000000) (float_of_int 1700000100) false
           empty_cache (JStr "tok-1") eq_refl eq_refl).
Defined.

Lemma walk_never_exceeds_the_limit_witness :
  get_all_pages 3 second_page_fails (Ok (JStr "token")) 1 (JStr "page1") None
  = Some (Ok [JNum 1])
  /\ (0 < effective_max None 1)%nat
  /\ (List.length [JNum 1] <= effective_max None 1)%nat.
Proof.
  assert (H1 : get_all_pages 3 second_page_fails (Ok (JStr "token")) 1
                 (JStr "page1") None = Some (Ok [JNum 1])) by reflexivity.
  assert (H2 : (0 < effective_max None 1)%nat) by (cbn; lia).
  split; [exact H1|]. split; [exact H2|].
  exact (walk_never_exceeds_the_limit 3 second_page_fails (Ok (JStr "token")) 1
           (JStr "page1") None [JNum 1] H1 H2).
Defined.

Lemma walk_without_limit_yields_all_witness :
  serves three_pages (JStr "page1")
    [[JNum 1; JNum 2]; [JNum 3; JNum 4]; [JNum 5; JNum 6]] EndOfLinks
  /\ effective_max (Some 0%nat) 0 = 0%nat
  /\ (3 < 4)%nat
  /\ get_all_pages 4 three_pages (Ok (JStr "token")) 0 (JStr "page1") (Some 0%nat)
     = Some (Ok [JNum 1; JNum 2; JNum 3; JNum 4; JNum 5; JNum 6]).
Proof.
  split; [exact three_pages_served|]. split; [reflexivity|]. split; [lia|].
  exact (walk_without_limit_yields_all three_pages (JStr "page1") (JStr "token")
           [[JNum 1; JNum 2]; [JNum 3; JNum 4]; [JNum 5; JNum 6]] EndOfLinks
           (Some 0%nat) 4 three_pages_served eq_refl ltac:(simpl; lia)).
Defined.

Lemma walk_of_self_linked_empty_page_never_ends_witness :
  self_linked_page "page1" = PageOk [] (JStr "page1")
  /\ "page1" <> ""
  /\ forall fuel,
       get_all_pages fuel self_linked_page (Ok (JStr "token")) 125
         (JStr "page1") (Some 5%nat) = None.
Proof.
  assert (H1 : self_linked_page "page1" = PageOk [] (JStr "page1"))
    by reflexivity.
  assert (H2 : "page1" <> "") by discriminate.
  split; [exact H1|]. split; [exact H2|].
  exact (walk_of_self_linked_empty_page_never_ends self_linked_page "page1"
           (JStr "token") 125 (Some 5%nat) H1 H2).
Defined.

(** With both services down the message is stored as uncategorised, yet
    counted as classified. *)
Lemma fallback_answers_count_as_classified_witness :
  exists pre,
    extract_metadata _html_to_text msg_invoice = Ok pre
    /\ db_raises env_services_down OpExists = false
    /\ existsb (has_id (dict_get msg_invoice "id" (JStr "unknown_id")))
               (st_store fresh_state) = false
    /\ ((exists answer,
           classify_email (classify_health env_services_down)
             (classify_post env_services_down) = Ok answer
           /\ emails_classified
                (st_metrics (_process_single_email _html_to_text
                               env_services_down msg_invoice fresh_state))
              = (emails_classified (st_metrics fresh_state)
                 + if is_dict answer then 1 else 0)%nat)
        /\ (classify_health env_services_down = false ->
            emails_classified
              (st_metrics (_process_single_email _html_to_text
                             env_services_down msg_invoice fresh_state))
            = S (emails_classified (st_metrics fresh_state)))).
Proof.
  destruct (extract_metadata _html_to_text msg_invoice) as [pre|e] eqn:Hm;
    [|discriminate Hm].
  exists pre. split; [reflexivity|]. split; [reflexivity|]. split; [reflexivity|].
  exact (fallback_answers_count_as_classified _html_to_text env_services_down
           msg_invoice fresh_state pre Hm eq_refl eq_refl).
Defined.

Lemma move_answer_without_id_rekeys_to_unknown_witness :
  let folder_id :=
    dict_get (folder_mapping env_move_without_id) "invoice_request_no_info" JNull in
  let st' := snd (route_stage env_move_without_id (JStr "AAMk2")
                    "invoice_request_no_info" state_after_first_run) in
  truthy folder_id = true
  /\ move_attempt env_move_without_id 0
     = (Ok (JStr "token"), HttpJson (JObj [("status", JStr "moved")]))
  /\ dict_mem [("status", JStr "moved")] "id" = false
  /\ db_raises env_move_without_id OpUpdateId = false
  /\ (st_log st'
      = st_log state_after_first_run
        ++ [ EvMove (JStr "AAMk2") folder_id;
             EvUpdateMessageId (JStr "AAMk2") (JStr "unknown");
             EvMarkReadStatus (JStr "unknown")
               (negb (needs_manual_review "invoice_request_no_info")) ]
      /\ emails_moved (st_metrics st')
         = S (emails_moved (st_metrics state_after_first_run))).
Proof.
  cbv zeta.
  split; [reflexivity|]. split; [reflexivity|]. split; [reflexivity|].
  split; [reflexivity|].
  exact (move_answer_without_id_rekeys_to_unknown env_move_without_id
           (JStr "AAMk2") "invoice_request_no_info" state_after_first_run
           (JStr "token") [("status", JStr "moved")] eq_refl eq_refl eq_refl
           eq_refl).
Defined.

Lemma fetch_returns_at_most_the_limit_witness :
  fetch_unread_emails 4 three_pages (Ok (JStr "token")) (Ok (JStr "token"))
    (CountAnswer 200 (Some 6)) 125 (JStr "page1") (Some 5%nat)
  = Some (Ok [JNum 1; JNum 2; JNum 3; JNum 4; JNum 5])
  /\ (0 < effective_max (Some 5%nat) 125)%nat
  /\ (List.length [JNum 1; JNum 2; JNum 3; JNum 4; JNum 5]
      <= effective_max (Some 5%nat) 125)%nat.
Proof.
  assert (H1 : fetch_unread_emails 4 three_pages (Ok (JStr "token"))
                 (Ok (JStr "token")) (CountAnswer 200 (Some 6)) 125
                 (JStr "page1") (Some 5%nat)
               = Some (Ok [JNum 1; JNum 2; JNum 3; JNum 4; JNum 5]))
    by reflexivity.
  assert (H2 : (0 < effective_max (Some 5%nat) 125)%nat) by (cbn; lia).
  split; [exact H1|]. split; [exact H2|].
  exact (fetch_returns_at_most_the_limit 4 three_pages (Ok (JStr "token"))
           (Ok (JStr "token")) (CountAnswer 200 (Some 6)) 125 (JStr "page1")
           (Some 5%nat) _ H1 H2).
Defined.

(** Six unread messages are there to be listed, but the count request
    times out. *)
Lemma unreadable_inbox_is_reported_as_success_witness :
  (0 < 4)%nat
  /\ ((exists e, CountAnswer 200 (Some 7) = CountRaises e)
      \/ CountAnswer 200 (Some 7) = CountAnswer 200 None
      \/ (exists e, @Ok json (JStr "token") = Raise e)
      \/ (truthy (JStr "page2") = true
          /\ fetch_fails (fetch_page second_page_fails (JStr "page2")) = true))
  /\ truthy (JObj one_folder) = true
  /\ (fetch_unread_emails 4 second_page_fails (Ok (JStr "token"))
        (Ok (JStr "token")) (CountAnswer 200 (Some 7)) 125 (JStr "page2") None
      = Some (Ok [])
      /\ process_unread_emails (fun _ => env_reply_down) (fun _ => false)
           (Ok tt) (Ok one_folder) (Ok []) fresh_state
         = (mkReport true 0 0 0, fresh_state)).
Proof.
  assert (H1 : (0 < 4)%nat) by lia.
  assert (H2 : (exists e, CountAnswer 200 (Some 7) = CountRaises e)
               \/ CountAnswer 200 (Some 7) = CountAnswer 200 None
               \/ (exists e, @Ok json (JStr "token") = Raise e)
               \/ (truthy (JStr "page2") = true
                   /\ fetch_fails (fetch_page second_page_fails (JStr "page2"))
                      = true))
    by (right; right; right; split; reflexivity).
  split; [exact H1|]. split; [exact H2|]. split; [reflexivity|].
  exact (unreadable_inbox_is_reported_as_success (fun _ => env_reply_down)
           (fun _ => false) 4 second_page_fails (JStr "token") (Ok (JStr "token"))
           (CountAnswer 200 (Some 7)) 125 (JStr "page2") None one_folder
           fresh_state H1 H2 eq_refl).
Defined.

Lemma item_that_is_no_object_aborts_the_run_witness :
  (forall j : nat, (fun _ : nat => false) j = false)
  /\ is_dict (JStr "not a message") = false
  /\ truthy (JObj one_folder) = true
  /\ process_unread_emails (fun _ => env_reply_down) (fun _ => false)
       (Ok tt) (Ok one_folder)
       (Ok (map JObj [msg_invoice] ++ JStr "not a message" :: [JObj msg_with_thread]))
       fresh_state
     = (let st' := process_messages _html_to_text
                     (combine (map (fun j => with_folder_mapping env_reply_down
                                                one_folder)
                                   (seq 0 (List.length [msg_invoice])))
                              [msg_invoice]) fresh_state in
        (report_of false st', st')).
Proof.
  assert (H1 : forall j : nat, (fun _ : nat => false) j = false)
    by (intros j; reflexivity).
  split; [exact H1|]. split; [reflexivity|]. split; [reflexivity|].
  exact (item_that_is_no_object_aborts_the_run (fun _ => env_reply_down)
           (fun _ => false) one_folder [msg_invoice] (JStr "not a message")
           [JObj msg_with_thread] fresh_state H1 eq_refl eq_refl).
Defined.

Lemma folders_in_place_are_mapped_without_a_request_witness :
  truthy (dict_get [("emailclassification", JStr "parent-1")]
            (normalize "Email Classification") JNull) = true
  /\ (forall label, In label ALLOWED_LABELS ->
        truthy (dict_get all_children (folder_key label) JNull) = true)
  /\ ensure_classification_folders (Ok (JStr "token"))
       (Ok [("emailclassification", JStr "parent-1")])
       (Raise (RequestError None)) (Ok all_children) failing_service
     = Ok (map (fun label => (label, dict_get all_children (folder_key label) JNull))
               ALLOWED_LABELS).
Proof.
  assert (H1 : truthy (dict_get [("emailclassification", JStr "parent-1")]
                         (normalize "Email Classification") JNull) = true)
    by reflexivity.
  assert (H2 : forall label, In label ALLOWED_LABELS ->
                 truthy (dict_get all_children (folder_key label) JNull) = true).
  { intros label Hl. cbn in Hl.
    repeat (destruct Hl as [<-|Hl]; [reflexivity|]). contradiction. }
  split; [exact H1|]. split; [exact H2|].
  exact (folders_in_place_are_mapped_without_a_request (JStr "token")
           [("emailclassification", JStr "parent-1")] all_children
           (Raise (RequestError None)) failing_service H1 H2).
Defined.

Lemma folder_that_cannot_be_moved_stops_the_run_witness :
  In "manual_review" ALLOWED_LABELS
  /\ truthy (dict_get children_but_manual_review (folder_key "manual_review")
               JNull) = false
  /\ search stuck_ghost_service (display_name "manual_review")
     = Ok (JObj [("id", JStr "ghost-1")])
  /\ truthy (JObj [("id", JStr "ghost-1")]) = true
  /\ move_to_parent stuck_ghost_service (display_name "manual_review")
     = Raise (HTTPStatusError 403)
  /\ (ensure_classification_folders (Ok (JStr "token"))
        (Ok [("emailclassification", JStr "parent-1")]) (Ok (JStr "parent-1"))
        (Ok children_but_manual_review) stuck_ghost_service
      = Ok []
      /\ process_unread_emails (fun _ => env_reply_down) (fun _ => false) (Ok tt)
           (ensure_classification_folders (Ok (JStr "token"))
              (Ok [("emailclassification", JStr "parent-1")])
              (Ok (JStr "parent-1")) (Ok children_but_manual_review)
              stuck_ghost_service)
           (Ok [JObj msg_invoice]) fresh_state
         = (mkReport false 0 0 0, fresh_state)).
Proof.
  assert (H1 : In "manual_review" ALLOWED_LABELS) by (cbn; auto 10).
  split; [exact H1|]. split; [reflexivity|]. split; [reflexivity|].
  split; [reflexivity|]. split; [reflexivity|].
  exact (folder_that_cannot_be_moved_stops_the_run (fun _ => env_reply_down)
           (fun _ => false) (JStr "token")
           (Ok [("emailclassification", JStr "parent-1")]) (Ok (JStr "parent-1"))
           children_but_manual_review stuck_ghost_service "manual_review"
           (JObj [("id", JStr "ghost-1")]) (HTTPStatusError 403)
           (Ok [JObj msg_invoice]) fresh_state H1 eq_refl eq_refl eq_refl eq_refl).
Defined.

Lemma folder_that_cannot_be_created_is_left_out_witness :
  truthy (dict_get [("emailclassification", JStr "parent-1")]
            (normalize "Email Classification") JNull) = true
  /\ (forall l, In l ALLOWED_LABELS -> l <> "manual_review" ->
        truthy (dict_get children_but_manual_review (folder_key l) JNull) = true)
  /\ truthy (dict_get children_but_manual_review (folder_key "manual_review")
               JNull) = false
  /\ search no_create_service (display_name "manual_review") = Ok JNull
  /\ create_folder no_create_service (display_name "manual_review")
     = CreateRaises (RequestError None)
  /\ ensure_classification_folders (Ok (JStr "token"))
       (Ok [("emailclassification", JStr "parent-1")]) (Ok (JStr "parent-1"))
       (Ok children_but_manual_review) no_create_service
     = Ok (map (fun l => (l, dict_get children_but_manual_review (folder_key l)
                               JNull))
               (filter (fun l => negb (l =? "manual_review")%string)
                       ALLOWED_LABELS)).
Proof.
  assert (H1 : truthy (dict_get [("emailclassification", JStr "parent-1")]
                         (normalize "Email Classification") JNull) = true)
    by reflexivity.
  assert (H2 : forall l, In l ALLOWED_LABELS -> l <> "manual_review" ->
                 truthy (dict_get children_but_manual_review (folder_key l) JNull)
                 = true).
  { intros l Hl Hne. cbn in Hl.
    repeat (destruct Hl as [<-|Hl]; [try reflexivity; contradiction|]).
    contradiction. }
  split; [exact H1|]. split; [exact H2|]. split; [reflexivity|].
  split; [reflexivity|]. split; [reflexivity|].
  exact (folder_that_cannot_be_created_is_left_out (JStr "token")
           [("emailclassification", JStr "parent-1")] children_but_manual_review
           (Ok (JStr "parent-1")) no_create_service "manual_review"
           (RequestError None) H1 H2 eq_refl eq_refl eq_refl).
Defined.

Lemma failed_move_is_tried_once_and_passed_over_witness :
  let folder_id :=
    dict_get (folder_mapping env_move_refused) "invoice_request_no_info" JNull in
  truthy folder_id = true
  /\ move_attempt env_move_refused 0
     = (Ok (JStr "token"), HttpRaises (HTTPStatusError 503))
  /\ (forall answer, HttpRaises (HTTPStatusError 503) <> HttpJson (JObj answer))
  /\ fst (mark_attempt env_move_refused 0) = Ok (JStr "token")
  /\ (with_retries
        (fun i => move_email_to_folder (fst (move_attempt env_move_refused i))
                    (snd (move_attempt env_move_refused i)))
        (jitter env_move_refused) (sleep env_move_refused)
      = mkRun (Ok (false, JNull)) 1 []
      /\ route_stage env_move_refused (JStr "AAMk2") "invoice_request_no_info"
           fresh_state
         = (Ok tt,
            mkState (st_metrics fresh_state) (st_store fresh_state)
              (st_log fresh_state
               ++ [ EvMove (JStr "AAMk2") folder_id;
                    EvMarkReadStatus (JStr "AAMk2")
                      (negb (needs_manual_review "invoice_request_no_info")) ]))).
Proof.
  assert (Hp : forall answer,
            HttpRaises (HTTPStatusError 503) <> HttpJson (JObj answer))
    by (intros answer H; discriminate H).
  cbv zeta. split; [reflexivity|]. split; [reflexivity|]. split; [exact Hp|].
  split; [reflexivity|].
  exact (failed_move_is_tried_once_and_passed_over env_move_refused (JStr "AAMk2")
           "invoice_request_no_info" fresh_state (JStr "token") (JStr "token")
           (HttpRaises (HTTPStatusError 503)) eq_refl eq_refl Hp eq_refl).
Defined.

Lemma move_without_token_skips_the_read_flag_witness :
  let folder_id :=
    dict_get (folder_mapping env_move_without_token) "invoice_request_no_info"
      JNull in
  truthy folder_id = true
  /\ move_attempt env_move_without_token 0
     = (Raise (ValueError "Missing required environment variables"),
        HttpJson JNull)
  /\ retryable
       (@Raise (bool * json)
          (ValueError "Missing required environment variables")) = false
  /\ route_stage env_move_without_token (JStr "AAMk2") "invoice_request_no_info"
       fresh_state
     = (Raise (ValueError "Missing required environment variables"),
        mkState (st_metrics fresh_state) (st_store fresh_state)
          (st_log fresh_state ++ [EvMove (JStr "AAMk2") folder_id])).
Proof.
  cbv zeta. split; [reflexivity|]. split; [reflexivity|]. split; [reflexivity|].
  exact (move_without_token_skips_the_read_flag env_move_without_token
           (JStr "AAMk2") "invoice_request_no_info" fresh_state
           (ValueError "Missing required environment variables") (HttpJson JNull)
           eq_refl eq_refl eq_refl).
Defined.

(** A decorator with a negative initial back-off: the first time-out is
    followed by a sleep of -1.5750000000000002 seconds, which
    [time.sleep] refuses. *)
Lemma raising_sleep_ends_the_wrapper_witness :
  let minus_1_5 := S754_finite true 6755399441055744 (-52) in
  let half := S754_finite false 4503599627370496 (-53) in
  (1 < 3)%nat
  /\ retryable (@Raise unit (RequestError None)) = true
  /\ time_sleep (sleep_time_of minus_1_5 half)
     = Raise (ValueError "sleep length must be non-negative")
  /\ retry_with_backoff (fun _ => @Raise unit (RequestError None))
       (fun _ => half) time_sleep 3 minus_1_5
     = mkRun (Raise (ValueError "sleep length must be non-negative")) 1
             [S754_finite true 7093169413108532 (-52)].
Proof.
  cbv zeta. split; [lia|]. split; [reflexivity|]. split; [reflexivity|].
  exact (raising_sleep_ends_the_wrapper unit (fun _ => @Raise unit (RequestError None))
           (fun _ => S754_finite false 4503599627370496 (-53)) time_sleep 3
           (S754_finite true 6755399441055744 (-52))
           (ValueError "sleep length must be non-negative")
           ltac:(lia) eq_refl eq_refl).
Defined.

(** *** The records of messages at concrete inputs *)

(** C3 as stated fails on a message that has a record but whose sender
    is [null]: reading the metadata raises before the lookup is made,
    and the message is counted as errored, not as skipped. *)
Lemma persisted_message_without_sender_is_errored :
  let st := state_after_first_run in
  let st' := _process_single_email (fun s => s) env_reply_down
               msg_without_sender st in
  existsb (has_id (dict_get msg_without_sender "id" (JStr "unknown_id")))
          (st_store st) = true
  /\ emails_skipped (st_metrics st') = emails_skipped (st_metrics st)
  /\ emails_errored (st_metrics st') = S (emails_errored (st_metrics st))
  /\ st_log st' = st_log st.
Proof. repeat split. Qed.

(** A message that was moved is not recognised by its old id: its record
    bears the id the mailbox returned, and a second run over the same
    message stores a second record. *)
Example moved_message_is_stored_again :
  let st1 := _process_single_email (fun s => s) env_folder_mapped msg_invoice
               fresh_state in
  let st2 := _process_single_email (fun s => s) env_folder_mapped msg_invoice
               st1 in
  map ed_message_id (st_store st1) = [JStr "AAMk9"]
  /\ map ed_message_id (st_store st2) = [JStr "AAMk9"; JStr "AAMk9"]
  /\ emails_skipped (st_metrics st2) = 0%nat.
Proof. repeat split. Qed.

(** Two runs over an invoice request that stays in the inbox. *)
Lemma persisted_message_is_skipped_witness :
  let id := JStr "AAMk2" in
  let st1 := _process_single_email (fun s => s) env_reply_down msg_invoice
               fresh_state in
  let st2 := _process_single_email (fun s => s) env_reply_down msg_invoice st1 in
  existsb (has_id id) (st_store fresh_state) = false
  /\ emails_processed (st_metrics st1)
     = S (emails_processed (st_metrics fresh_state))
  /\ emails_moved (st_metrics st1) = emails_moved (st_metrics fresh_state)
  /\ (records_with_id id (st_store st1) = 1%nat
      /\ st_store st2 = st_store st1
      /\ records_with_id id (st_store st2) = 1%nat
      /\ (db_raises env_reply_down OpExists = false ->
          emails_skipped (st_metrics st2) = S (emails_skipped (st_metrics st1))
          /\ emails_processed (st_metrics st2)
             = emails_processed (st_metrics st1))).
Proof.
  cbv zeta. split; [reflexivity|]. split; [reflexivity|]. split; [reflexivity|].
  exact (proj2 (persisted_message_is_skipped (fun s => s))
           env_reply_down env_reply_down msg_invoice fresh_state
           eq_refl eq_refl eq_refl).
Defined.

Lemma invoice_goes_through (E : env) :
  db_raises E = db_raises env_reply_down ->
  classify_health E = true ->
  classify_post E = classify_post env_reply_down
  \/ (exists answer, classify_post E
        = HttpJson (JObj [("status", JStr "success");
                          ("results", JArr [JObj answer])])
        /\ dict_mem answer "entities" = false) ->
  move_attempt E = move_attempt env_reply_down ->
  mark_attempt E = mark_attempt env_reply_down ->
  goes_through (fun s => s) E msg_invoice.
Proof.
  intros Hd Hh Hc Hm Hk. unfold goes_through.
  split; [eexists; eexists; split; reflexivity|].
  split; [intros op; rewrite Hd; reflexivity|].
  split.
  - unfold classified_as. rewrite Hh.
    destruct Hc as [->|(answer & -> & Ha)].
    + eexists. eexists. split; reflexivity.
    + cbn. rewrite (dict_get_absent _ _ _ Ha). eexists. eexists.
      split; reflexivity.
  - rewrite Hm, Hk. split; eexists; reflexivity.
Defined.


(** An invoice request in a deployment that does not send. *)
Lemma draft_is_forced_witness :
  let st' := _process_single_email (fun s => s) env_send_disabled msg_invoice
               fresh_state in
  goes_through (fun s => s) env_send_disabled msg_invoice
  /\ existsb (has_id (JStr "AAMk2")) (st_store fresh_state) = false
  /\ MAIL_SEND_ENABLED env_send_disabled = false
  /\ exists doc, st_store st' = [doc] /\ ed_save_as_draft doc = true.
Proof.
  cbv zeta.
  assert (G : goes_through (fun s => s) env_send_disabled msg_invoice).
  { apply invoice_goes_through; try reflexivity. left. reflexivity. }
  destruct (draft_is_forced (fun s => s) env_send_disabled msg_invoice fresh_state)
    as (_ & _ & T3 & T4).
  destruct (T3 (T4 G eq_refl)) as (doc & D1 & _ & D3 & _).
  split; [exact G|]. split; [reflexivity|]. split; [reflexivity|].
  exists doc. split; [exact D1|]. apply D3. left. reflexivity.
Defined.

Example invoice_is_drafted_when_sending_is_off :
  map (fun doc => (ed_classification doc, ed_save_as_draft doc))
      (st_store (_process_single_email (fun s => s) env_send_disabled msg_invoice
                   fresh_state))
  = [("invoice_request_no_info", true)]
  /\ map (fun doc => (ed_classification doc, ed_save_as_draft doc))
         (st_store (_process_single_email (fun s => s) env_reply_down msg_invoice
                      fresh_state))
     = [("invoice_request_no_info", false)].
Proof. split; reflexivity. Qed.
